(** * Brain-tumour segmentation app: the preprocessing, volume-assembly and
      inference-orchestration pipeline of [Deploy/app.py]

    The script is embedded shallowly.  Arrays are numpy arrays seen
    logically: a shape and the elements in C (row-major) order.  Voxel and
    probability values are rationals, on which comparison is the comparison
    of finite floats; the Normalizer, the one place that does arithmetic on
    them, is written over an arithmetic that is read exactly (rationals) or
    as the machine computes (binary64).  Code that may raise returns a
    [result]; the Streamlit script itself runs in a small
    writer-and-exception monad that records what it shows, asks of the model
    and writes to disk. *)

From Stdlib Require Import String Ascii Bool.
From Stdlib Require PrimFloat FloatOps SpecFloat FloatAxioms.
From Stdlib Require Import List Arith Lia ZArith QArith Qround.
Import ListNotations.
Local Open Scope nat_scope.

Set Implicit Arguments.

(** ** Python exceptions and fallible values *)

Inductive exn : Type :=
| ValueError
| IndexError
| AxisError
| TypeError
| AttributeError
| ImageFileError.

Inductive result (A : Type) : Type :=
| Ok (a : A)
| Raise (e : exn).

Arguments Ok {A} a.
Arguments Raise {A} e.

Definition rbind {A B} (r : result A) (f : A -> result B) : result B :=
  match r with
  | Ok a => f a
  | Raise e => Raise e
  end.

(** ** numpy arrays *)

Module Np.

Record ndarray (A : Type) : Type := mk_ndarray {
  shape : list nat;
  data : list A
}.

Arguments mk_ndarray {A} shape data.

(** Number of elements of an array of the given shape. *)
Definition size (sh : list nat) : nat := fold_right Nat.mul 1 sh.

Definition ndim {A} (a : ndarray A) : nat := length (shape a).

(** The buffer holds exactly the elements the shape announces. *)
Definition wf {A} (a : ndarray A) : Prop := length (data a) = size (shape a).

(** Flat position of a multi-index, C order. *)
Fixpoint ravel (sh idx : list nat) : nat :=
  match sh, idx with
  | _ :: sh', i :: idx' => i * size sh' + ravel sh' idx'
  | _, _ => 0
  end.

(** [a[i1, ..., ik]] for a full in-bounds multi-index. *)
Definition item {A} (d : A) (a : ndarray A) (idx : list nat) : A :=
  nth (ravel (shape a) idx) (data a) d.

(** The [i]-th block of [sz] consecutive elements: sub-array [i] along the
    first axis when [sz] is the size of the remaining axes. *)
Definition block {A} (sz i : nat) (d : list A) : list A :=
  firstn sz (skipn (i * sz) d).

(** *** Basic indexing: [a[i]], [a[lo:hi]], [a[:]] per axis *)

Inductive index : Type :=
| At (i : nat)
| Range (lo hi : nat)
| All.

Fixpoint getitem_check (ix : list index) (sh : list nat) : bool :=
  match ix, sh with
  | [], _ => true
  | _ :: _, [] => false
  | At i :: ix', n :: sh' => (i <? n) && getitem_check ix' sh'
  | _ :: ix', _ :: sh' => getitem_check ix' sh'
  end.

Fixpoint getitem_shape (ix : list index) (sh : list nat) : list nat :=
  match ix, sh with
  | At _ :: ix', _ :: sh' => getitem_shape ix' sh'
  | Range lo hi :: ix', n :: sh' =>
      (Nat.min hi n - Nat.min lo n) :: getitem_shape ix' sh'
  | All :: ix', n :: sh' => n :: getitem_shape ix' sh'
  | _, _ => sh
  end.

Fixpoint getitem_data {A} (ix : list index) (sh : list nat) (d : list A)
  : list A :=
  match ix, sh with
  | At i :: ix', _ :: sh' => getitem_data ix' sh' (block (size sh') i d)
  | Range lo hi :: ix', n :: sh' =>
      flat_map (fun i => getitem_data ix' sh' (block (size sh') i d))
               (seq (Nat.min lo n) (Nat.min hi n - Nat.min lo n))
  | All :: ix', n :: sh' =>
      flat_map (fun i => getitem_data ix' sh' (block (size sh') i d))
               (seq 0 n)
  | _, _ => d
  end.

(** Too many indices, or an integer index out of bounds, is an
    [IndexError]; slice bounds are clamped to the axis. *)
Definition getitem {A} (ix : list index) (a : ndarray A)
  : result (ndarray A) :=
  if getitem_check ix (shape a)
  then Ok (mk_ndarray (getitem_shape ix (shape a))
                      (getitem_data ix (shape a) (data a)))
  else Raise IndexError.

(** *** [np.stack(arrays, axis)] *)

Definition shape_eqb (s t : list nat) : bool :=
  if list_eq_dec Nat.eq_dec s t then true else false.

Definition stack {A} (arrays : list (ndarray A)) (axis : nat)
  : result (ndarray A) :=
  match arrays with
  | [] => Raise ValueError
  | a :: rest =>
      if forallb (fun b => shape_eqb (shape b) (shape a)) rest then
        if axis <=? ndim a then
          let outer := size (firstn axis (shape a)) in
          let inner := size (skipn axis (shape a)) in
          Ok (mk_ndarray
                (firstn axis (shape a) ++ length arrays :: skipn axis (shape a))
                (flat_map
                   (fun o => flat_map (fun b => block inner o (data b)) arrays)
                   (seq 0 outer)))
        else Raise AxisError
      else Raise ValueError
  end.

(** *** [np.expand_dims(a, axis=0)] *)

Definition expand_dims0 {A} (a : ndarray A) : ndarray A :=
  mk_ndarray (1 :: shape a) (data a).

(** *** [a.reshape(-1, cols)] and [a.reshape(shape)] *)

Definition reshape_rows {A} (a : ndarray A) (cols : nat)
  : result (ndarray A) :=
  if cols =? 0 then Raise ValueError
  else if size (shape a) mod cols =? 0
       then Ok (mk_ndarray [size (shape a) / cols; cols] (data a))
       else Raise ValueError.

Definition reshape {A} (a : ndarray A) (sh : list nat)
  : result (ndarray A) :=
  if size sh =? size (shape a)
  then Ok (mk_ndarray sh (data a))
  else Raise ValueError.

(** [a.shape[-1]] *)
Definition shape_last {A} (a : ndarray A) : result nat :=
  match shape a with
  | [] => Raise IndexError
  | n :: sh => Ok (last sh n)
  end.

(** *** [np.argmax(a, axis)] *)

Definition Qlt_bool (x y : Q) : bool := negb (Qle_bool y x).

(** The scan of numpy's argmax kernel: the running maximum [mp] is
    replaced only by a strictly larger element. *)
Fixpoint argmax_loop (mp : Q) (max_ind i : nat) (ip : list Q) : nat :=
  match ip with
  | [] => max_ind
  | x :: ip' =>
      if Qlt_bool mp x
      then argmax_loop x i (S i) ip'
      else argmax_loop mp max_ind (S i) ip'
  end.

Definition argmax_list (ip : list Q) : nat :=
  match ip with
  | [] => 0
  | x :: ip' => argmax_loop x 0 1 ip'
  end.

(** The elements along [axis] at outer position [o] and inner position [i]. *)
Definition lane {A} (d : A) (k inner o i : nat) (buf : list A) : list A :=
  map (fun c => nth ((o * k + c) * inner + i) buf d) (seq 0 k).

Definition argmax (axis : nat) (a : ndarray Q) : result (ndarray nat) :=
  if axis <? ndim a then
    let outer := size (firstn axis (shape a)) in
    let k := nth axis (shape a) 0 in
    let inner := size (skipn (S axis) (shape a)) in
    if k =? 0 then Raise ValueError
    else Ok (mk_ndarray
               (firstn axis (shape a) ++ skipn (S axis) (shape a))
               (flat_map
                  (fun o => map (fun i => argmax_list (lane 0%Q k inner o i (data a)))
                                (seq 0 inner))
                  (seq 0 outer)))
  else Raise AxisError.

(** *** [np.rot90(m)]: one quarter turn in the plane of the first two axes *)

Definition rot90 {A} (m : ndarray A) : result (ndarray A) :=
  match shape m with
  | h :: w :: rest =>
      let inner := size rest in
      Ok (mk_ndarray
            (w :: h :: rest)
            (flat_map
               (fun i => flat_map
                  (fun j => block inner (j * w + (w - 1 - i)) (data m))
                  (seq 0 h))
               (seq 0 w)))
  | _ => Raise ValueError
  end.

End Np.

Import Np.

(** ** The arithmetic of voxel values

    The operations the Normalizer applies to voxel values, and two readings
    of them: exact, on rationals, and as the machine evaluates them, on
    binary64 floats, each operation rounding to nearest.  [ten_eps] is
    [10 * np.finfo(np.float64).eps], ten times 2^-52. *)

Record arith (F : Type) : Type := mk_arith {
  zero : F;
  one : F;
  add : F -> F -> F;
  sub : F -> F -> F;
  mul : F -> F -> F;
  div : F -> F -> F;
  ltb : F -> F -> bool;
  eqb : F -> F -> bool;
  ten_eps : F
}.

Definition exactQ : arith Q :=
  mk_arith 0%Q 1%Q Qplus Qminus Qmult Qdiv Qlt_bool Qeq_bool
           (10 # 4503599627370496)%Q.

(** [np.finfo(np.float64)] *)
Module Finfo.

Import PrimFloat.

Definition eps : float := 0x1p-52%float.

Definition ten_eps : float := (10 * eps)%float.

End Finfo.

Definition binary64 : arith PrimFloat.float :=
  mk_arith PrimFloat.zero PrimFloat.one PrimFloat.add PrimFloat.sub
           PrimFloat.mul PrimFloat.div PrimFloat.ltb PrimFloat.eqb
           Finfo.ten_eps.

(** ** scikit-learn: [MinMaxScaler().fit_transform(X)]

    The scaler of the library with its default feature range (0, 1), as the
    library computes it: per column, [scale_ = (1 - 0) / (max - min)] with a
    range below [10 * eps] (a constant or nearly constant column) replaced
    by 1, [min_ = 0 - min * scale_], and the transform [X * scale_ + min_].
    The input must be a matrix with at least one row and one column; its
    values are taken to be finite. *)

Module Sklearn.

Section Scaler.

Context {F : Type} (ar : arith F).

Definition fmin (x y : F) : F := if ltb ar y x then y else x.

Definition fmax (x y : F) : F := if ltb ar x y then y else x.

Definition column (rows cols k : nat) (buf : list F) : list F :=
  map (fun r => nth (r * cols + k) buf (zero ar)) (seq 0 rows).

Definition list_min (l : list F) : F :=
  match l with
  | [] => zero ar
  | x :: t => fold_left fmin t x
  end.

Definition list_max (l : list F) : F :=
  match l with
  | [] => zero ar
  | x :: t => fold_left fmax t x
  end.

(** [constant_mask = scale < 10 * np.finfo(scale.dtype).eps;
     scale[constant_mask] = 1.0] *)
Definition handle_zeros_in_scale (s : F) : F :=
  if ltb ar s (ten_eps ar) then one ar else s.

Record MinMaxScaler : Type := mk_scaler {
  data_min_ : list F;
  data_max_ : list F;
  scale_ : list F;
  min_ : list F
}.

Definition fit (X : ndarray F) : result MinMaxScaler :=
  match shape X with
  | [rows; cols] =>
      if (rows =? 0) || (cols =? 0) then Raise ValueError
      else
        let data_min := map (fun k => list_min (column rows cols k (data X)))
                            (seq 0 cols) in
        let data_max := map (fun k => list_max (column rows cols k (data X)))
                            (seq 0 cols) in
        let scale :=
          map (fun k => div ar (sub ar (one ar) (zero ar))
                            (handle_zeros_in_scale
                               (sub ar (nth k data_max (zero ar))
                                       (nth k data_min (zero ar)))))
              (seq 0 cols) in
        let min :=
          map (fun k => sub ar (zero ar)
                            (mul ar (nth k data_min (zero ar))
                                    (nth k scale (zero ar))))
              (seq 0 cols) in
        Ok (mk_scaler data_min data_max scale min)
  | _ => Raise ValueError
  end.

Definition transform (s : MinMaxScaler) (X : ndarray F) : result (ndarray F) :=
  match shape X with
  | [rows; cols] =>
      Ok (mk_ndarray [rows; cols]
            (flat_map
               (fun r =>
                  map (fun k => add ar (mul ar (nth (r * cols + k) (data X)
                                                    (zero ar))
                                               (nth k (scale_ s) (zero ar)))
                                       (nth k (min_ s) (zero ar)))
                      (seq 0 cols))
               (seq 0 rows)))
  | _ => Raise ValueError
  end.

Definition fit_transform (X : ndarray F) : result (ndarray F) :=
  rbind (fit X) (fun s => transform s X).

End Scaler.

End Sklearn.

(** ** Keras: [to_categorical(y, num_classes)]

    The library's one-hot encoder: the labels are flattened, each becomes a
    row of [num_classes] zeros with a one at the label (a label that is not
    below [num_classes] is an [IndexError]), and the rows are reshaped to
    the input shape followed by [num_classes].  A trailing axis of length 1
    of an input of rank above one is dropped from that shape first.  A
    [num_classes] of zero stands for the omitted argument: the number of
    classes is then one more than the largest label. *)

Module Keras.

Definition one_hot (num_classes v : nat) : list Q :=
  map (fun c => if c =? v then 1%Q else 0%Q) (seq 0 num_classes).

Definition to_categorical (y : ndarray nat) (num_classes : nat)
  : result (ndarray Q) :=
  let input_shape :=
    if (last (shape y) 0 =? 1) && (1 <? ndim y)
    then removelast (shape y) else shape y in
  if (num_classes =? 0) && (length (data y) =? 0) then Raise ValueError
  else
    let num_classes :=
      if num_classes =? 0 then S (list_max (data y)) else num_classes in
    if forallb (fun v => v <? num_classes) (data y)
    then Ok (mk_ndarray (input_shape ++ [num_classes])
                        (flat_map (one_hot num_classes) (data y)))
    else Raise IndexError.

End Keras.

(** ** What the script does to the outside world *)

Inductive message : Type :=
| ShapeOfCombinedImage (sh : list nat)
| UnexpectedCombinedShape (sh : list nat)
| UnexpectedInputShape (sh : list nat)
| RunningSegmentation
| SegmentationCompleted
| MissingRequiredFiles
| CustomModelLoaded
| ErrorLoadingCustomModel (e : exn)
| UsingDefaultModelInstead
| UsingDefaultModel.

Inductive title : Type :=
| TestingImage
| GroundTruth
| Prediction
| Overlay.

Inductive event : Type :=
| StWrite (m : message)
| StError (m : message)
| SidebarSuccess (m : message)
| SidebarError (m : message)
| SidebarInfo (m : message)
| WriteModelFile (file : string)
| ModelPredict (x : ndarray Q)
| Subplots (rows cols : nat)
| Imshow (i j : nat) (img : ndarray Q)
| ImshowLabels (i j : nat) (img : ndarray nat)
| SetTitle (i j : nat) (t : title) (n_slice : nat)
| AxisOff (i j : nat)
| TightLayout
| StPyplot
| NibSave (file : string) (vol : ndarray Q)
| DownloadButton (file : string)
| OsRemove (file : string).

(** A run: its value or the exception that ended it, and the events up to
    there, oldest first. *)
Definition M (A : Type) : Type := (result A * list event)%type.

Definition ret {A} (a : A) : M A := (Ok a, []).

Definition bind {A B} (m : M A) (f : A -> M B) : M B :=
  match m with
  | (Ok a, l) => let (r, l') := f a in (r, l ++ l')
  | (Raise e, l) => (Raise e, l)
  end.

Definition emit (e : event) : M unit := (Ok tt, [e]).

Definition lift {A} (r : result A) : M A := (r, []).

Notation "x <- c ;; k" := (bind c (fun x => k))
  (at level 61, c at next level, right associativity).
Notation "c ;;; k" := (bind c (fun _ => k))
  (at level 61, right associativity).

Fixpoint for_each {A} (body : A -> M unit) (l : list A) : M unit :=
  match l with
  | [] => ret tt
  | x :: l' => body x ;;; for_each body l'
  end.

Definition enumerate {A} (l : list A) : list (nat * A) :=
  combine (seq 0 (length l)) l.

(** ** Strings and paths *)

Local Open Scope string_scope.

(** [s.endswith(suffix)] *)
Definition endswith (s suffix : string) : bool :=
  let n := String.length s in
  let m := String.length suffix in
  (m <=? n)%nat && String.eqb (substring (n - m) m s) suffix.

(** [os.path.join(a, b)] on a POSIX system. *)
Definition path_join (a b : string) : string :=
  if prefix "/" b then b
  else if (a =? "") || endswith a "/" then a ++ b
  else a ++ "/" ++ b.

(** Truth value of a variable holding [None] or a string. *)
Definition truthy (p : option string) : bool :=
  match p with
  | Some s => negb (s =? "")
  | None => false
  end.

(** Using a variable that may hold [None] as a path, as an array to index,
    or as an object with methods. *)
Definition str_arg (o : option string) : result string :=
  match o with
  | Some a => Ok a
  | None => Raise TypeError
  end.

Definition subscriptable {A} (o : option A) : result A :=
  match o with
  | Some a => Ok a
  | None => Raise TypeError
  end.

Definition has_attr {A} (o : option A) : result A :=
  match o with
  | Some a => Ok a
  | None => Raise AttributeError
  end.

Local Close Scope string_scope.

(** ** The script *)

(** A model is what its [predict] does to a batch. *)
Definition model : Type := ndarray Q -> result (ndarray Q).

(** Lines 40-48.  [nib_load] is [nib.load(path).get_fdata()] on the
    extracted files; [ar] is the arithmetic the scaler computes in. *)
Definition preprocess_nifti {F : Type} (ar : arith F)
    (nib_load : string -> result (ndarray F)) (file_path : string)
  : result (ndarray F) :=
  rbind (nib_load file_path) (fun image =>
  rbind (shape_last image) (fun cols =>
  rbind (reshape_rows image cols) (fun flat =>
  rbind (Sklearn.fit_transform ar flat) (fun scaled =>
  reshape scaled (shape image))))).

Section App.

(** [nib.load(path).get_fdata()] on the extracted files. *)
Variable nib_load : string -> result (ndarray Q).

(** Lines 51-55. *)
Definition combine_channels (t1n t1c t2f t2w : ndarray Q)
  : result (ndarray Q) :=
  rbind (stack [t1n; t1c; t2f; t2w] 3) (fun combined_image =>
  getitem [Range 56 184; Range 56 184; Range 13 141] combined_image).

(** Lines 58-73. *)
Definition run_segmentation (mdl : model) (input_image : ndarray Q)
  : M (option (ndarray nat)) :=
  let input_image := expand_dims0 input_image in
  if negb (ndim input_image =? 5) then
    emit (StError (UnexpectedInputShape (shape input_image))) ;;;
    ret None
  else
    emit (ModelPredict input_image) ;;;
    prediction <- lift (mdl input_image) ;;
    am <- lift (argmax 4 prediction) ;;
    prediction_argmax <- lift (getitem [At 0; All; All; All] am) ;;
    ret (Some prediction_argmax).

(** Lines 80-95: the model used for the session. *)
Section SelectModel.

Variable model_file : Type.
Variable load_model : model_file -> result model.
Variable default_model : model.

Definition select_model (uploaded_model : option model_file) : M model :=
  match uploaded_model with
  | Some f =>
      emit (WriteModelFile "temp_model.keras") ;;;
      match load_model f with
      | Ok m =>
          emit (SidebarSuccess CustomModelLoaded) ;;;
          ret m
      | Raise e =>
          emit (SidebarError (ErrorLoadingCustomModel e)) ;;;
          emit (SidebarInfo UsingDefaultModelInstead) ;;;
          ret default_model
      end
  | None =>
      emit (SidebarInfo UsingDefaultModel) ;;;
      ret default_model
  end.

End SelectModel.

(** Lines 114-131: the files of the extracted archive, by suffix. *)
Record found : Type := mk_found {
  t1n_path : option string;
  t1c_path : option string;
  t2f_path : option string;
  t2w_path : option string;
  mask_path : option string
}.

Definition visit (root : string) (st : found) (file : string) : found :=
  if endswith file "t1n.nii.gz" then
    mk_found (Some (path_join root file)) (t1c_path st) (t2f_path st)
             (t2w_path st) (mask_path st)
  else if endswith file "t1c.nii.gz" then
    mk_found (t1n_path st) (Some (path_join root file)) (t2f_path st)
             (t2w_path st) (mask_path st)
  else if endswith file "t2f.nii.gz" then
    mk_found (t1n_path st) (t1c_path st) (Some (path_join root file))
             (t2w_path st) (mask_path st)
  else if endswith file "t2w.nii.gz" then
    mk_found (t1n_path st) (t1c_path st) (t2f_path st)
             (Some (path_join root file)) (mask_path st)
  else if endswith file "seg.nii.gz" then
    mk_found (t1n_path st) (t1c_path st) (t2f_path st) (t2w_path st)
             (Some (path_join root file))
  else st.

(** One entry of [os.walk]: a directory and the names of its files. *)
Definition walk_entry : Type := (string * list string)%type.

Definition find_nifti_files (walk : list walk_entry) : found :=
  fold_left (fun st entry => fold_left (visit (fst entry)) (snd entry) st)
            walk
            (mk_found None None None None None).

(** Lines 160-163: the ground truth as a label volume.
    [mask.astype(np.uint8)] drops the fraction and keeps the low eight
    bits. *)
Definition Qtruncate (q : Q) : Z :=
  if Qlt_bool q 0 then Qceiling q else Qfloor q.

Definition astype_uint8 (a : ndarray Q) : ndarray nat :=
  mk_ndarray (shape a)
             (map (fun q => Z.to_nat (Qtruncate q mod 256)) (data a)).

(** [mask[mask == 4] = 3] *)
Definition reassign_4_to_3 (mask : ndarray nat) : ndarray nat :=
  mk_ndarray (shape mask)
             (map (fun v => if v =? 4 then 3 else v) (data mask)).

Definition mask_argmax (mask : ndarray Q) : result (ndarray nat) :=
  let mask := astype_uint8 mask in
  let mask := reassign_4_to_3 mask in
  rbind (Keras.to_categorical mask 4) (argmax 3).

(** Lines 158-165: the ground truth, when the archive has one. *)
Definition load_ground_truth (mpath : option string)
  : M (option (ndarray nat)) :=
  if truthy mpath then
    mask <- lift (rbind (str_arg mpath) nib_load) ;;
    am <- lift (mask_argmax mask) ;;
    ret (Some am)
  else ret None.

(** Lines 167-198: the panels. *)
Definition slice_indices : list nat := [75; 90; 100].

Definition plot_slice (combined_image : ndarray Q)
    (segmentation_result : option (ndarray nat))
    (mpath : option string) (mask_am : option (ndarray nat))
    (p : nat * nat) : M unit :=
  let (i, n_slice) := p in
  test_img_rotated <-
    lift (rbind (getitem [All; All; At n_slice; At 0] combined_image)
                (@rot90 Q)) ;;
  test_prediction_rotated <-
    lift (rbind (subscriptable segmentation_result) (fun sr =>
          rbind (getitem [All; All; At n_slice] sr) (@rot90 nat))) ;;
  emit (Imshow i 0 test_img_rotated) ;;;
  emit (SetTitle i 0 TestingImage n_slice) ;;;
  (if truthy mpath then
     test_mask_rotated <-
       lift (rbind (subscriptable mask_am) (fun m =>
             rbind (getitem [All; All; At n_slice] m) (@rot90 nat))) ;;
     emit (ImshowLabels i 1 test_mask_rotated) ;;;
     emit (SetTitle i 1 GroundTruth n_slice)
   else emit (AxisOff i 1)) ;;;
  emit (ImshowLabels i 2 test_prediction_rotated) ;;;
  emit (SetTitle i 2 Prediction n_slice) ;;;
  emit (Imshow i 3 test_img_rotated) ;;;
  emit (ImshowLabels i 3 test_prediction_rotated) ;;;
  emit (SetTitle i 3 Overlay n_slice).

Definition plot_results (combined_image : ndarray Q)
    (segmentation_result : option (ndarray nat))
    (mpath : option string) (mask_am : option (ndarray nat)) : M unit :=
  emit (Subplots 3 4) ;;;
  for_each (plot_slice combined_image segmentation_result mpath mask_am)
           (enumerate slice_indices) ;;;
  emit TightLayout ;;;
  emit StPyplot.

(** Lines 200-214: the downloadable file.
    [segmentation_result.astype(np.float32)] keeps the small integers. *)
Definition astype_float32 (a : ndarray nat) : ndarray Q :=
  mk_ndarray (shape a) (map (fun n => inject_Z (Z.of_nat n)) (data a)).

Definition output_file : string := "segmentation_result.nii.gz".

Definition save_result (segmentation_result : option (ndarray nat))
  : M unit :=
  sr <- lift (has_attr segmentation_result) ;;
  emit (NibSave output_file (astype_float32 sr)) ;;;
  emit (DownloadButton output_file) ;;;
  emit (OsRemove output_file).

(** Lines 155-214: everything after the segmentation. *)
Definition present_results (combined_image : ndarray Q)
    (segmentation_result : option (ndarray nat))
    (mpath : option string) : M unit :=
  emit (StWrite SegmentationCompleted) ;;;
  mask_am <- load_ground_truth mpath ;;
  plot_results combined_image segmentation_result mpath mask_am ;;;
  save_result segmentation_result.

(** Lines 113-216: what happens once the archive is extracted; [walk] is
    [os.walk(temp_dir)]. *)
Definition process_upload (mdl : model) (walk : list walk_entry) : M unit :=
  let f := find_nifti_files walk in
  if truthy (t1n_path f) && truthy (t1c_path f)
     && truthy (t2f_path f) && truthy (t2w_path f)
  then
    t1n <- lift (rbind (str_arg (t1n_path f)) (preprocess_nifti exactQ nib_load)) ;;
    t1c <- lift (rbind (str_arg (t1c_path f)) (preprocess_nifti exactQ nib_load)) ;;
    t2f <- lift (rbind (str_arg (t2f_path f)) (preprocess_nifti exactQ nib_load)) ;;
    t2w <- lift (rbind (str_arg (t2w_path f)) (preprocess_nifti exactQ nib_load)) ;;
    combined_image <- lift (combine_channels t1n t1c t2f t2w) ;;
    emit (StWrite (ShapeOfCombinedImage (shape combined_image))) ;;;
    if negb (ndim combined_image =? 4) then
      emit (StError (UnexpectedCombinedShape (shape combined_image)))
    else
      emit (StWrite RunningSegmentation) ;;;
      segmentation_result <- run_segmentation mdl combined_image ;;
      present_results combined_image segmentation_result (mask_path f)
  else
    emit (StError MissingRequiredFiles).

(** Line 101: nothing happens until an archive is uploaded. *)
Definition on_upload (mdl : model) (uploaded_folder : option (list walk_entry))
  : M unit :=
  match uploaded_folder with
  | Some walk => process_upload mdl walk
  | None => ret tt
  end.

End App.

(** ** Concrete inputs *)

Module Examples.

(** [np.zeros(sh)] *)
Definition zeros (sh : list nat) : ndarray Q :=
  mk_ndarray sh (repeat 0%Q (size sh)).

Definition wf_zeros (sh : list nat) : wf (zeros sh) :=
  repeat_length 0%Q (size sh).

(** A BraTS-sized modality volume. *)
Definition brats_volume : ndarray Q := zeros [240; 240; 155].

(** A probability tensor of shape (1,2,2,2,4) with known maxima, two of
    its voxels with ties. *)
Definition crafted : ndarray Q :=
  mk_ndarray [1; 2; 2; 2; 4]
    [ 0.1; 0.2; 0.3; 0.4;      0.7; 0.1; 0.1; 0.1;
      0.25; 0.25; 0.25; 0.25;  0.1; 0.4; 0.4; 0.1;
      0; 0; 1; 0;              0.3; 0.3; 0.2; 0.2;
      0; 1; 0; 0;              0.1; 0.1; 0.1; 0.7 ]%Q.

Definition crafted_model : model := fun _ => Ok crafted.

(** A stub model: for every voxel of the batch, a one-hot distribution over
    four classes that favours class 2. *)
Definition stub_model : model := fun x =>
  Ok (mk_ndarray (firstn 4 (shape x) ++ [4])
                 (flat_map (fun _ => [0; 0; 1; 0]%Q)
                           (seq 0 (size (firstn 4 (shape x)))))).

(** A volume of two voxels per last index. *)
Definition tiny_volume : ndarray Q :=
  mk_ndarray [2; 1; 2] [1; 5; 3; 9]%Q.

(** Ground truths: one of a single slice, one of full size whose first
    voxel holds a label outside the scheme, one of full size that is fine,
    one small with every label of the scheme. *)
Definition single_slice_mask : ndarray Q := zeros [240; 240; 1].


Definition good_mask : ndarray Q := zeros [240; 240; 155].

Definition small_mask : ndarray Q := mk_ndarray [1; 2; 2] [4; 1; 0; 2]%Q.

(** Extracted archives. *)
Definition temp_dir : string := "/tmp/tmpab12cd".

Definition case_dir : string := "/tmp/tmpab12cd/case".

Definition four_files : list string :=
  ["BraTS-GLI-00000-000-t1n.nii.gz"; "BraTS-GLI-00000-000-t1c.nii.gz";
   "BraTS-GLI-00000-000-t2f.nii.gz"; "BraTS-GLI-00000-000-t2w.nii.gz"]%string.

Definition walk_without_seg : list walk_entry :=
  [(temp_dir, ["uploaded_folder.zip"%string]); (case_dir, four_files)].

Definition walk_with_seg : list walk_entry :=
  [(temp_dir, ["uploaded_folder.zip"%string]);
   (case_dir, four_files ++ ["BraTS-GLI-00000-000-seg.nii.gz"%string])].

Definition walk_without_t2w : list walk_entry :=
  [(temp_dir, ["uploaded_folder.zip"%string]);
   (case_dir, firstn 3 four_files)].

Definition walk_with_duplicates : list walk_entry :=
  [(case_dir, ["a-t1n.nii.gz"; "b-t1n.nii.gz"]%string)].

(** The files on disk: BraTS-sized modality volumes, and a ground truth. *)
Definition load_with (mask : ndarray Q) : string -> result (ndarray Q) :=
  fun path => if endswith path "seg.nii.gz" then Ok mask else Ok brats_volume.

End Examples.

Module Examples64.

Import PrimFloat.

(** Two voxels of one last index with whole intensities, as binary64. *)
Definition two_voxels : ndarray float :=
  mk_ndarray [2; 1; 1] [1848; 3166]%float.

(** Two voxels of one last index that differ by 2^-50, less than ten
    times the machine epsilon. *)
Definition near_constant : ndarray float :=
  mk_ndarray [2; 1; 1] [1; 1 + 0x1p-50]%float.

(** Two volumes of two slices that agree on the first slice only, and the
    files they are read from. *)
Definition volume_a : ndarray float :=
  mk_ndarray [2; 1; 2] [1; 5; 3; 9]%float.

Definition volume_b : ndarray float :=
  mk_ndarray [2; 1; 2] [1; 7; 3; 8]%float.

Definition load_a_or_b (path : string) : result (ndarray float) :=
  if endswith path "a.nii.gz" then Ok volume_a else Ok volume_b.

End Examples64.

(** ** Vocabulary of the statements *)

Unset Implicit Arguments.

(** [idx] is a full multi-index within an array of shape [sh]. *)
Definition in_bounds (sh idx : list nat) : Prop := Forall2 lt idx sh.

(** The position in the indexed array that a position of [a[ix]] shows. *)
Fixpoint src_index (ix : list index) (sh idx : list nat) : list nat :=
  match ix, sh with
  | At i :: ix', _ :: sh' => i :: src_index ix' sh' idx
  | Range lo _ :: ix', n :: sh' =>
      match idx with
      | j :: idx' => (Nat.min lo n + j) :: src_index ix' sh' idx'
      | [] => []
      end
  | All :: ix', _ :: sh' =>
      match idx with
      | j :: idx' => j :: src_index ix' sh' idx'
      | [] => []
      end
  | _, _ => idx
  end.

(** What the index of a list's maximum is, ties going to the lowest. *)
Definition first_max (l : list Q) (r : nat) : Prop :=
  r < length l /\
  (forall c, c < length l -> (nth c l 0 <= nth r l 0)%Q) /\
  (forall c, c < r -> (nth c l 0 < nth r l 0)%Q).

(** The extreme values over all positions that share the last index [k],
    in the order of the arithmetic: both occur at some position, no value
    is below the least and none is above the greatest. *)
Definition is_axis_min {F : Type} (ar : arith F) (image : ndarray F)
    (X Y k : nat) (mn : F) : Prop :=
  (forall i j, i < X -> j < Y ->
     ltb ar (item (zero ar) image [i; j; k]) mn = false) /\
  (exists i j, i < X /\ j < Y /\ item (zero ar) image [i; j; k] = mn).

Definition is_axis_max {F : Type} (ar : arith F) (image : ndarray F)
    (X Y k : nat) (mx : F) : Prop :=
  (forall i j, i < X -> j < Y ->
     ltb ar mx (item (zero ar) image [i; j; k]) = false) /\
  (exists i j, i < X /\ j < Y /\ item (zero ar) image [i; j; k] = mx).

(** A volume of finite floats: no infinity and no NaN. *)
Definition finite_valued (image : ndarray PrimFloat.float) : Prop :=
  forall v, In v (data image) -> PrimFloat.is_finite v = true.

(** One voxel through the cast to uint8 and the reassignment of 4. *)
Definition relabel (q : Q) : nat :=
  (fun v => if v =? 4 then 3 else v) (Z.to_nat (Qtruncate q mod 256)).

(** The five kinds of file the scan recognises. *)
Inductive modality : Type := T1n | T1c | T2f | T2w | Seg.

Definition suffix_of (m : modality) : string :=
  match m with
  | T1n => "t1n.nii.gz"
  | T1c => "t1c.nii.gz"
  | T2f => "t2f.nii.gz"
  | T2w => "t2w.nii.gz"
  | Seg => "seg.nii.gz"
  end.

Definition path_of (m : modality) (f : found) : option string :=
  match m with
  | T1n => t1n_path f
  | T1c => t1c_path f
  | T2f => t2f_path f
  | T2w => t2w_path f
  | Seg => mask_path f
  end.

Definition required : list modality := [T1n; T1c; T2f; T2w].

(** The files in the order the two nested loops meet them. *)
Definition walk_files (walk : list walk_entry) : list (string * string) :=
  flat_map (fun entry => map (fun file => (fst entry, file)) (snd entry)) walk.

Definition scan_step (st : found) (p : string * string) : found :=
  visit (fst p) st (snd p).

(** The archive has a file of modality [m]. *)
Definition has_file (walk : list walk_entry) (m : modality) : Prop :=
  exists p, In p (walk_files walk) /\ endswith (snd p) (suffix_of m) = true.

(** Kinds of event. *)
Definition is_shape_error (e : event) : bool :=
  match e with
  | StError (UnexpectedCombinedShape _) => true
  | StError (UnexpectedInputShape _) => true
  | _ => false
  end.

Definition is_predict (e : event) : bool :=
  match e with
  | ModelPredict _ => true
  | _ => false
  end.

Definition is_output (e : event) : bool :=
  match e with
  | NibSave _ _ => true
  | DownloadButton _ => true
  | _ => false
  end.

(** The inference requests and the packaged result of a run. *)
Definition predictions {A} (run : M A) : list event :=
  filter is_predict (snd run).

Definition outputs {A} (run : M A) : list event :=
  filter is_output (snd run).

(** What a run that reaches the packaging step writes and offers. *)
Definition packaged (sr : option (ndarray nat)) : list event :=
  match sr with
  | Some s => [NibSave output_file (astype_float32 s);
               DownloadButton output_file]
  | None => []
  end.



(** ** Vocabulary of the further properties *)

(** The events that touch the result file. *)
Definition is_file_event (e : event) : bool :=
  match e with
  | NibSave _ _ => true
  | DownloadButton _ => true
  | OsRemove _ => true
  | _ => false
  end.

Definition file_events {A} (run : M A) : list event :=
  filter is_file_event (snd run).

(** Saving the result, offering it for download, removing it. *)
Definition delivery (sr : ndarray nat) : list event :=
  [NibSave output_file (astype_float32 sr);
   DownloadButton output_file;
   OsRemove output_file].

(** A run touches the result file either not at all, or by ending
    normally, after one call of the model, with the delivery of a label
    volume. *)
Definition tidy (run : M unit) : Prop :=
  (file_events run = [] /\ length (predictions run) <= 1) \/
  (fst run = Ok tt /\ length (predictions run) = 1 /\
   exists (s : ndarray nat) (log : list event),
     snd run = log ++ delivery s /\ filter is_file_event log = []).

(** The extents of the crop window on a volume of extents X, Y, Z. *)
Definition crop_x (X : nat) : nat := Nat.min 184 X - Nat.min 56 X.
Definition crop_z (Z : nat) : nat := Nat.min 141 Z - Nat.min 13 Z.

(** The input of the model, as lines 141-147 build it from the files the
    scan has bound: each file loaded and normalised, the four combined in
    the order T1n, T1c, T2f, T2w. *)
Definition normalised_channel (nib_load : string -> result (ndarray Q))
    (f : found) (m : modality) : result (ndarray Q) :=
  rbind (str_arg (path_of m f)) (preprocess_nifti exactQ nib_load).

Definition combined_input (nib_load : string -> result (ndarray Q))
    (walk : list walk_entry) : result (ndarray Q) :=
  let f := find_nifti_files walk in
  rbind (normalised_channel nib_load f T1n) (fun t1n =>
  rbind (normalised_channel nib_load f T1c) (fun t1c =>
  rbind (normalised_channel nib_load f T2f) (fun t2f =>
  rbind (normalised_channel nib_load f T2w) (fun t2w =>
  combine_channels t1n t1c t2f t2w)))).

(** The model answers the batch made of [combined] with class scores for
    every voxel: a tensor with at least one batch entry, the three spatial
    extents of [combined] and at least one class. *)
Definition scores_batch_of (mdl : model) (combined : ndarray Q) : Prop :=
  exists (prediction : ndarray Q) (N K : nat),
    mdl (expand_dims0 combined) = Ok prediction /\
    shape prediction = S N :: firstn 3 (shape combined) ++ [S K].

(** The classes of the exceptions, as [except] and [isinstance] see them:
    numpy's [AxisError] derives from both [ValueError] and [IndexError];
    the other classes are unrelated to one another. *)
Definition isinstance (e c : exn) : bool :=
  match e, c with
  | AxisError, AxisError => true
  | AxisError, ValueError => true
  | AxisError, IndexError => true
  | ValueError, ValueError => true
  | IndexError, IndexError => true
  | TypeError, TypeError => true
  | AttributeError, AttributeError => true
  | ImageFileError, ImageFileError => true
  | _, _ => false
  end.

(** ** The default model *)

(** A use of the network or of the model loader. *)
Inductive call : Type :=
| GdownDownload (url output : string)
| LoadModel (path : string).

Section DefaultModel.

(** The working directory: what [os.path.exists] answers on it, what
    [gdown.download(url, output, quiet=False)] makes of it (it may raise;
    its return value is not used), and what
    [load_model(path, compile=False)] reads from it. *)
Variable disk : Type.
Variable path_exists : disk -> string -> bool.
Variable gdown_download : string -> string -> disk -> result unit * disk.
Variable load_model : disk -> string -> result model.

Definition file_id : string := "1lV1SgafomQKwgv1NW2cjlpyb4LwZXFwX"%string.

Definition output_path : string := "default_model.keras"%string.

(** Lines 17-27: the outcome, the directory afterwards, the calls made. *)
Definition download_default_model (d : disk)
  : result string * disk * list call :=
  if negb (path_exists d output_path) then
    let url := ("https://drive.google.com/uc?id=" ++ file_id)%string in
    let (r, d') := gdown_download url output_path d in
    (rbind r (fun _ => Ok output_path), d', [GdownDownload url output_path])
  else (Ok output_path, d, []).

(** Lines 31-35, the body under [st.cache_resource]. *)
Definition load_default_model (d : disk)
  : result model * disk * list call :=
  let '(r, d', log) := download_default_model d in
  match r with
  | Ok model_path =>
      (load_model d' model_path, d', log ++ [LoadModel model_path])
  | Raise e => (Raise e, d', log)
  end.

(** [n] executions of [load_default_model], one after the other: their
    outcomes, the directory at the end, all the calls made. *)
Fixpoint reloads (n : nat) (d : disk)
  : list (result model) * disk * list call :=
  match n with
  | 0 => ([], d, [])
  | S n =>
      let '(r, d', log) := load_default_model d in
      let '(rs, d'', log') := reloads n d' in
      (r :: rs, d'', log ++ log')
  end.

End DefaultModel.

(** ** Further concrete inputs *)

Module Cases.

(** A volume of two slices per axis and four channels, and a model whose
    answer has four dimensions only. *)
Definition small_input : ndarray Q := Examples.zeros [2; 2; 2; 4].

Definition flat_answer : model := fun _ => Ok (Examples.zeros [1; 2; 2; 2]).

(** An annotation with a label outside the scheme. *)
Definition mask_with_label_5 : ndarray Q :=
  mk_ndarray [1; 2; 2] [5; 1; 0; 2]%Q.

(** Files on disk: volumes of 100 slices; an unreadable T2f file; a T2w
    volume one slice short; four-dimensional series. *)
Definition shallow_volume : ndarray Q := Examples.zeros [240; 240; 100].

Definition load_shallow : string -> result (ndarray Q) :=
  fun _ => Ok shallow_volume.

Definition load_unreadable_t2f : string -> result (ndarray Q) :=
  fun path =>
    if endswith path "t2f.nii.gz" then Raise ImageFileError
    else Ok Examples.brats_volume.

Definition short_volume : ndarray Q := Examples.zeros [240; 240; 154].

Definition volumes_short_t2w (m : modality) : ndarray Q :=
  match m with
  | T2w => short_volume
  | _ => Examples.brats_volume
  end.

Definition load_short_t2w : string -> result (ndarray Q) :=
  fun path =>
    if endswith path "t2w.nii.gz" then Ok short_volume
    else Ok Examples.brats_volume.

Definition series : ndarray Q := Examples.zeros [240; 240; 155; 2].

Definition load_series : string -> result (ndarray Q) :=
  fun _ => Ok series.

(** A working directory as the list of its files, a download that creates
    the file, and a model file that cannot be read. *)
Definition listed (d : list string) (path : string) : bool :=
  existsb (String.eqb path) d.

Definition fetch (url output : string) (d : list string)
  : result unit * list string :=
  (Ok tt, output :: d).

Definition unreadable (d : list string) (path : string) : result model :=
  Raise ValueError.

End Cases.

(** * Properties *)

(** ** Lists cut into equal pieces *)

Section Pieces.

Context {A B : Type}.

Lemma length_flat_map_const (f : A -> list B) (n : nat) (l : list A) :
  (forall x, In x l -> length (f x) = n) ->
  length (flat_map f l) = length l * n.
Proof.
  induction l as [|a l IH]; intros Hf; simpl; [reflexivity|].
  rewrite length_app, Hf by (left; reflexivity).
  rewrite IH by (intros x Hx; apply Hf; right; exact Hx).
  reflexivity.
Qed.

Lemma nth_flat_map_const (f : A -> list B) (n : nat) (l : list A)
      (dA : A) (dB : B) :
  (forall x, In x l -> length (f x) = n) ->
  forall i j, i < length l -> j < n ->
    nth (i * n + j) (flat_map f l) dB = nth j (f (nth i l dA)) dB.
Proof.
  induction l as [|a l IH]; intros Hf i j Hi Hj; simpl in Hi; [lia|].
  assert (Ha : length (f a) = n) by (apply Hf; left; reflexivity).
  destruct i as [|i]; simpl.
  - rewrite app_nth1 by lia. reflexivity.
  - replace (n + i * n + j) with (length (f a) + (i * n + j)) by lia.
    rewrite app_nth2_plus.
    apply IH; [intros x Hx; apply Hf; right; exact Hx | lia | exact Hj].
Qed.

End Pieces.

Lemma nth_block {A} (sz i j : nat) (d : list A) (x : A) :
  j < sz -> nth j (block sz i d) x = nth (i * sz + j) d x.
Proof.
  intros Hj. unfold block.
  rewrite nth_firstn.
  destruct (Nat.ltb_spec j sz); [|lia].
  apply nth_skipn.
Qed.

Lemma length_block {A} (sz i : nat) (d : list A) :
  S i * sz <= length d -> length (block sz i d) = sz.
Proof.
  intros H. unfold block.
  rewrite length_firstn, length_skipn. simpl in H. lia.
Qed.

Lemma nth_map_seq {B} (f : nat -> B) (n i : nat) (d : B) :
  i < n -> nth i (map f (seq 0 n)) d = f i.
Proof.
  intros Hi.
  rewrite (nth_indep _ d (f 0)) by (rewrite length_map, length_seq; exact Hi).
  rewrite (map_nth f (seq 0 n) 0 i), seq_nth by exact Hi.
  reflexivity.
Qed.

(** ** Multi-indices *)

Lemma ravel_lt sh : forall idx, in_bounds sh idx -> ravel sh idx < size sh.
Proof.
  induction sh as [|n sh IH]; intros idx H; inversion H; subst; simpl.
  - lia.
  - specialize (IH _ H4). nia.
Qed.

Lemma src_index_in_bounds ix : forall sh idx,
  getitem_check ix sh = true ->
  in_bounds (getitem_shape ix sh) idx ->
  in_bounds sh (src_index ix sh idx).
Proof.
  induction ix as [|[i|lo hi|] ix IH]; intros sh idx Hc Hb.
  - destruct sh; exact Hb.
  - destruct sh as [|n sh]; simpl in *; [discriminate|].
    apply andb_prop in Hc. destruct Hc as [Hi Hc].
    apply Nat.ltb_lt in Hi.
    constructor; [exact Hi | apply IH; assumption].
  - destruct sh as [|n sh]; simpl in *; [discriminate|].
    inversion Hb; subst.
    constructor; [lia | apply IH; assumption].
  - destruct sh as [|n sh]; simpl in *; [discriminate|].
    inversion Hb; subst.
    constructor; [assumption | apply IH; assumption].
Qed.

Lemma length_getitem_data {A} ix : forall sh (d : list A),
  getitem_check ix sh = true ->
  length d = size sh ->
  length (getitem_data ix sh d) = size (getitem_shape ix sh).
Proof.
  induction ix as [|[i|lo hi|] ix IH]; intros sh d Hc Hd.
  - destruct sh; exact Hd.
  - destruct sh as [|n sh]; simpl in *; [discriminate|].
    apply andb_prop in Hc. destruct Hc as [Hi Hc].
    apply Nat.ltb_lt in Hi.
    apply IH; [exact Hc|]. apply length_block. simpl. nia.
  - destruct sh as [|n sh]; simpl in *; [discriminate|].
    rewrite (length_flat_map_const _ (size (getitem_shape ix sh))).
    + rewrite length_seq. reflexivity.
    + intros x Hx. apply in_seq in Hx.
      apply IH; [exact Hc|]. apply length_block. simpl. nia.
  - destruct sh as [|n sh]; simpl in *; [discriminate|].
    rewrite (length_flat_map_const _ (size (getitem_shape ix sh))).
    + rewrite length_seq. reflexivity.
    + intros x Hx. apply in_seq in Hx.
      apply IH; [exact Hc|]. apply length_block. simpl. nia.
Qed.

(** Every element of [a[ix]] is the element of [a] at the source index. *)
Lemma nth_getitem_data {A} (x : A) ix : forall sh (d : list A) idx,
  getitem_check ix sh = true ->
  length d = size sh ->
  in_bounds (getitem_shape ix sh) idx ->
  nth (ravel (getitem_shape ix sh) idx) (getitem_data ix sh d) x
  = nth (ravel sh (src_index ix sh idx)) d x.
Proof.
  induction ix as [|[i|lo hi|] ix IH]; intros sh d idx Hc Hd Hb.
  - destruct sh; reflexivity.
  - destruct sh as [|n sh]; simpl in *; [discriminate|].
    apply andb_prop in Hc. destruct Hc as [Hi Hc].
    apply Nat.ltb_lt in Hi.
    rewrite IH; [| exact Hc | apply length_block; simpl; nia | exact Hb].
    apply nth_block.
    apply ravel_lt, src_index_in_bounds; assumption.
  - destruct sh as [|n sh]; simpl in *; [discriminate|].
    inversion Hb as [|j len idx' gs Hj Hb']; subst. simpl.
    rewrite (nth_flat_map_const _ (size (getitem_shape ix sh)) _ 0).
    + rewrite seq_nth by exact Hj.
      rewrite IH; [| exact Hc | apply length_block; simpl; nia | exact Hb'].
      apply nth_block.
      apply ravel_lt, src_index_in_bounds; assumption.
    + intros y Hy. apply in_seq in Hy.
      apply length_getitem_data; [exact Hc|].
      apply length_block. simpl. nia.
    + rewrite length_seq. exact Hj.
    + apply ravel_lt. exact Hb'.
  - destruct sh as [|n sh]; simpl in *; [discriminate|].
    inversion Hb as [|j len idx' gs Hj Hb']; subst. simpl.
    rewrite (nth_flat_map_const _ (size (getitem_shape ix sh)) _ 0).
    + rewrite seq_nth by exact Hj.
      rewrite IH; [| exact Hc | apply length_block; simpl; nia | exact Hb'].
      apply nth_block.
      apply ravel_lt, src_index_in_bounds; assumption.
    + intros y Hy. apply in_seq in Hy.
      apply length_getitem_data; [exact Hc|].
      apply length_block. simpl. nia.
    + rewrite length_seq. exact Hj.
    + apply ravel_lt. exact Hb'.
Qed.

(** ** The argmax scan *)

Lemma Qlt_bool_true (x y : Q) : Qlt_bool x y = true -> (x < y)%Q.
Proof.
  unfold Qlt_bool. intros H. apply negb_true_iff in H.
  apply Qnot_le_lt. intros Hle. apply Qle_bool_iff in Hle. congruence.
Qed.

Lemma Qlt_bool_false (x y : Q) : Qlt_bool x y = false -> (y <= x)%Q.
Proof.
  unfold Qlt_bool. intros H. apply negb_false_iff in H.
  apply Qle_bool_iff. exact H.
Qed.

Lemma argmax_loop_spec (ip : list Q) : forall pre mp max_ind,
  max_ind < length pre ->
  nth max_ind pre 0%Q = mp ->
  (forall c, c < length pre -> (nth c pre 0 <= mp)%Q) ->
  (forall c, c < max_ind -> (nth c pre 0 < mp)%Q) ->
  first_max (pre ++ ip) (argmax_loop mp max_ind (length pre) ip).
Proof.
  induction ip as [|x ip IH]; intros pre mp max_ind Hm Hmp Hle Hlt.
  - simpl. rewrite app_nil_r. unfold first_max. rewrite Hmp. auto.
  - simpl.
    replace (pre ++ x :: ip) with ((pre ++ [x]) ++ ip)
      by (rewrite <- app_assoc; reflexivity).
    replace (S (length pre)) with (length (pre ++ [x]))
      by (rewrite length_app; simpl; lia).
    destruct (Qlt_bool mp x) eqn:Hcmp.
    + apply Qlt_bool_true in Hcmp.
      apply IH.
      * rewrite length_app. simpl. lia.
      * apply nth_middle.
      * intros c Hc. rewrite length_app in Hc. simpl in Hc.
        destruct (Nat.eq_dec c (length pre)) as [->|Hne].
        -- rewrite nth_middle. apply Qle_refl.
        -- rewrite app_nth1 by lia.
           apply Qle_trans with mp; [apply Hle; lia | apply Qlt_le_weak, Hcmp].
      * intros c Hc. rewrite app_nth1 by lia.
        apply Qle_lt_trans with mp; [apply Hle; lia | exact Hcmp].
    + apply Qlt_bool_false in Hcmp.
      apply IH.
      * rewrite length_app. simpl. lia.
      * rewrite app_nth1 by lia. exact Hmp.
      * intros c Hc. rewrite length_app in Hc. simpl in Hc.
        destruct (Nat.eq_dec c (length pre)) as [->|Hne].
        -- rewrite nth_middle. exact Hcmp.
        -- rewrite app_nth1 by lia. apply Hle. lia.
      * intros c Hc. rewrite app_nth1 by lia. apply Hlt. exact Hc.
Qed.

Lemma argmax_list_spec (l : list Q) :
  l <> [] -> first_max l (argmax_list l).
Proof.
  destruct l as [|x t]; [congruence|]. intros _.
  apply (argmax_loop_spec t [x] x 0); simpl.
  - lia.
  - reflexivity.
  - intros c Hc. assert (c = 0) as -> by lia. apply Qle_refl.
  - intros c Hc. lia.
Qed.

(** The labels [np.argmax] computes, by position. *)
Lemma nth_argmax_data (k inner outer : nat) (buf : list Q) (o i : nat) :
  o < outer -> i < inner ->
  nth (o * inner + i)
      (flat_map (fun o => map (fun i => argmax_list (lane 0%Q k inner o i buf))
                              (seq 0 inner))
                (seq 0 outer)) 0
  = argmax_list (lane 0%Q k inner o i buf).
Proof.
  intros Ho Hi.
  rewrite (nth_flat_map_const _ inner _ 0).
  - rewrite seq_nth by exact Ho. simpl.
    apply (nth_map_seq (fun i => argmax_list (lane 0%Q k inner o i buf))).
    exact Hi.
  - intros x _. rewrite length_map, length_seq. reflexivity.
  - rewrite length_seq. exact Ho.
  - exact Hi.
Qed.

Lemma length_argmax_data (k inner outer : nat) (buf : list Q) :
  length (flat_map (fun o => map (fun i => argmax_list (lane 0%Q k inner o i buf))
                                 (seq 0 inner))
                   (seq 0 outer))
  = outer * inner.
Proof.
  rewrite (length_flat_map_const _ inner).
  - rewrite length_seq. reflexivity.
  - intros x _. rewrite length_map, length_seq. reflexivity.
Qed.

(** ** The Inference Orchestrator *)

(** C1.  When the model's [predict] answers the batched input with a
    five-dimensional tensor of at least one batch entry and at least one
    class, [run_segmentation] returns the label volume of the first batch
    entry, with the batch axis dropped: at every spatial position the label
    is a class index whose probability no other class exceeds, and every
    class of lower index has a strictly smaller probability, so ties go to
    the lowest index. *)
Theorem run_segmentation_argmax :
  forall (mdl : model) (input_image prediction : ndarray Q)
         (B X Y Z K : nat),
    ndim input_image = 4 ->
    mdl (expand_dims0 input_image) = Ok prediction ->
    shape prediction = [S B; X; Y; Z; S K] ->
    exists labels : ndarray nat,
      fst (run_segmentation mdl input_image) = Ok (Some labels) /\
      shape labels = [X; Y; Z] /\
      forall x y z, x < X -> y < Y -> z < Z ->
        let r := item 0 labels [x; y; z] in
        r < S K /\
        (forall c, c < S K ->
           Qle (item 0%Q prediction [0; x; y; z; c])
               (item 0%Q prediction [0; x; y; z; r])) /\
        (forall c, c < r ->
           Qlt (item 0%Q prediction [0; x; y; z; c])
               (item 0%Q prediction [0; x; y; z; r])).
Proof.
  intros mdl input_image prediction B X Y Z K Hin Hp Hs.
  unfold run_segmentation.
  replace (ndim (expand_dims0 input_image)) with 5
    by (unfold ndim, expand_dims0 in *; simpl; lia).
  cbn [Nat.eqb negb bind emit lift ret fst app].
  rewrite Hp.
  unfold argmax, ndim. rewrite Hs.
  cbn [length Nat.ltb Nat.leb nth Nat.eqb firstn skipn app bind lift ret fst].
  unfold getitem.
  cbn [shape data getitem_check Nat.ltb Nat.leb andb bind lift ret fst].
  eexists. split; [reflexivity|]. split; [reflexivity|].
  intros x y z Hx Hy Hz.
  set (D := flat_map _ _).
  assert (HD : length D = size [S B; X; Y; Z]).
  { subst D. rewrite length_argmax_data. cbn [size fold_right]. lia. }
  assert (Hb : in_bounds [X; Y; Z] [x; y; z]).
  { constructor; [exact Hx|]. constructor; [exact Hy|].
    constructor; [exact Hz|]. constructor. }
  unfold item. cbn [shape data getitem_shape]. rewrite Hs.
  pose proof (nth_getitem_data 0 [At 0; All; All; All] [S B; X; Y; Z] D
                [x; y; z] eq_refl HD Hb) as E.
  cbn [getitem_shape src_index] in E.
  cbv zeta. rewrite E. clear E.
  set (o := ravel [S B; X; Y; Z] [0; x; y; z]).
  assert (Ho : o < size [S B; X; Y; Z]).
  { apply ravel_lt. constructor; [lia | exact Hb]. }
  assert (HDo : nth o D 0 = argmax_list (lane 0%Q (S K) 1 o 0 (data prediction))).
  { subst D. replace o with (o * 1 + 0) at 1 by lia.
    apply nth_argmax_data; [|lia].
    cbn [size fold_right] in Ho |- *. lia. }
  rewrite HDo.
  assert (Hlane : forall c, c < S K ->
            nth c (lane 0%Q (S K) 1 o 0 (data prediction)) 0%Q
            = nth (ravel [S B; X; Y; Z; S K] [0; x; y; z; c])
                  (data prediction) 0%Q).
  { intros c Hc. unfold lane.
    rewrite (nth_map_seq (fun c => nth ((o * S K + c) * 1 + 0)
                                       (data prediction) 0%Q)) by exact Hc.
    f_equal. subst o. cbn [ravel size fold_right]. ring. }
  assert (Hlen : length (lane 0%Q (S K) 1 o 0 (data prediction)) = S K)
    by (unfold lane; rewrite length_map, length_seq; reflexivity).
  destruct (argmax_list_spec (lane 0%Q (S K) 1 o 0 (data prediction)))
    as (Hr & Hmax & Hfirst).
  { intros Hnil. rewrite Hnil in Hlen. discriminate. }
  rewrite Hlen in Hr, Hmax.
  split; [exact Hr|]. split.
  - intros c Hc. rewrite <- !Hlane by assumption. apply Hmax. exact Hc.
  - intros c Hc. rewrite <- !Hlane by lia. apply Hfirst. exact Hc.
Qed.

(** ** The Channel Combiner *)

(** Stacking along a new last axis interleaves the buffers. *)
Lemma length_stack_last {A} (arrs : list (ndarray A)) (outer : nat) :
  (forall b, In b arrs -> outer <= length (data b)) ->
  length (flat_map (fun o => flat_map (fun b => block 1 o (data b)) arrs)
                   (seq 0 outer))
  = outer * length arrs.
Proof.
  intros Hlen.
  rewrite (length_flat_map_const _ (length arrs)).
  - rewrite length_seq. reflexivity.
  - intros o Ho. apply in_seq in Ho.
    rewrite (length_flat_map_const _ 1); [lia|].
    intros b Hb. apply length_block. specialize (Hlen b Hb). lia.
Qed.

Lemma nth_stack_last {A} (arrs : list (ndarray A)) (outer : nat)
      (d : A) (dflt : ndarray A) :
  (forall b, In b arrs -> outer <= length (data b)) ->
  forall o c, o < outer -> c < length arrs ->
    nth (o * length arrs + c)
        (flat_map (fun o => flat_map (fun b => block 1 o (data b)) arrs)
                  (seq 0 outer)) d
    = nth o (data (nth c arrs dflt)) d.
Proof.
  intros Hlen o c Ho Hc.
  assert (Hblk : forall o', o' < outer -> forall b, In b arrs ->
                   length (block 1 o' (data b)) = 1).
  { intros o' Ho' b Hb. apply length_block. specialize (Hlen b Hb). lia. }
  rewrite (nth_flat_map_const _ (length arrs) _ 0).
  - rewrite seq_nth by exact Ho. simpl.
    replace c with (c * 1 + 0) at 1 by lia.
    rewrite (nth_flat_map_const _ 1 _ dflt);
      [| intros b Hb; apply Hblk; assumption | exact Hc | lia].
    rewrite nth_block by lia. f_equal. lia.
  - intros o' Ho'. apply in_seq in Ho'.
    rewrite (length_flat_map_const _ 1); [lia|].
    intros b Hb. apply Hblk; [lia | exact Hb].
  - rewrite length_seq. exact Ho.
  - exact Hc.
Qed.

Lemma shape_eqb_refl (s : list nat) : shape_eqb s s = true.
Proof. unfold shape_eqb. destruct (list_eq_dec Nat.eq_dec s s); congruence. Qed.

(** What [combine_channels] returns on four volumes of one shape, whatever
    their extent: the crop window is clamped to the volume. *)
Lemma combine_channels_ok (t1n t1c t2f t2w : ndarray Q) (X Y Z : nat) :
  shape t1n = [X; Y; Z] -> shape t1c = [X; Y; Z] ->
  shape t2f = [X; Y; Z] -> shape t2w = [X; Y; Z] ->
  exists buf,
    combine_channels t1n t1c t2f t2w
    = Ok (mk_ndarray [Nat.min 184 X - Nat.min 56 X;
                      Nat.min 184 Y - Nat.min 56 Y;
                      Nat.min 141 Z - Nat.min 13 Z; 4] buf).
Proof.
  intros H1 H2 H3 H4.
  unfold combine_channels, stack, ndim.
  cbn [forallb]. rewrite H1, H2, H3, H4, shape_eqb_refl.
  cbn [andb length Nat.leb firstn skipn app rbind].
  unfold getitem.
  cbn [shape data getitem_check getitem_shape].
  eexists. reflexivity.
Qed.

(** C2.  On four well-formed volumes of one shape that contains the crop
    window, [combine_channels] returns a four-dimensional array of shape
    128 x 128 x 128 x 4 whose channels 0, 1, 2, 3 are T1n, T1c, T2f, T2w
    restricted to X in [56,184), Y in [56,184), Z in [13,141). *)
Theorem combine_channels_crop :
  forall (t1n t1c t2f t2w : ndarray Q) (X Y Z : nat),
    shape t1n = [X; Y; Z] -> shape t1c = [X; Y; Z] ->
    shape t2f = [X; Y; Z] -> shape t2w = [X; Y; Z] ->
    wf t1n -> wf t1c -> wf t2f -> wf t2w ->
    184 <= X -> 184 <= Y -> 141 <= Z ->
    exists combined : ndarray Q,
      combine_channels t1n t1c t2f t2w = Ok combined /\
      ndim combined = 4 /\
      shape combined = [128; 128; 128; 4] /\
      forall i j k, i < 128 -> j < 128 -> k < 128 ->
        item 0%Q combined [i; j; k; 0] = item 0%Q t1n [56 + i; 56 + j; 13 + k] /\
        item 0%Q combined [i; j; k; 1] = item 0%Q t1c [56 + i; 56 + j; 13 + k] /\
        item 0%Q combined [i; j; k; 2] = item 0%Q t2f [56 + i; 56 + j; 13 + k] /\
        item 0%Q combined [i; j; k; 3] = item 0%Q t2w [56 + i; 56 + j; 13 + k].
Proof.
  intros t1n t1c t2f t2w X Y Z H1 H2 H3 H4 W1 W2 W3 W4 HX HY HZ.
  unfold wf in *. rewrite H1 in W1. rewrite H2 in W2.
  rewrite H3 in W3. rewrite H4 in W4.
  unfold combine_channels, stack, ndim.
  cbn [forallb]. rewrite H1, H2, H3, H4, shape_eqb_refl.
  cbn [andb length Nat.leb firstn skipn app rbind].
  unfold getitem.
  cbn [shape data getitem_check getitem_shape].
  rewrite !(Nat.min_l 184), !(Nat.min_l 56), (Nat.min_l 141), (Nat.min_l 13)
    by lia.
  change (184 - 56) with 128. change (141 - 13) with 128.
  eexists. split; [reflexivity|]. split; [reflexivity|].
  split; [reflexivity|].
  intros i j k Hi Hj Hk.
  set (arrs := [t1n; t1c; t2f; t2w]).
  set (S := flat_map _ _).
  assert (ES : S = flat_map (fun o => flat_map (fun b => block 1 o (data b)) arrs)
                            (seq 0 (size [X; Y; Z]))) by reflexivity.
  clearbody S.
  assert (Hlen : forall b, In b arrs -> size [X; Y; Z] <= length (data b)).
  { intros b [<-|[<-|[<-|[<-|[]]]]]; lia. }
  assert (HS : length S = size [X; Y; Z; 4]).
  { rewrite ES, (length_stack_last arrs (size [X; Y; Z]) Hlen).
    cbn [size fold_right arrs length]. lia. }
  assert (Hsrc : in_bounds [X; Y; Z] [56 + i; 56 + j; 13 + k]).
  { constructor; [lia|]. constructor; [lia|]. constructor; [lia|].
    constructor. }
  pose proof (ravel_lt _ _ Hsrc) as Ho.
  assert (Hitem : forall c, c < 4 ->
            nth (ravel [128; 128; 128; 4] [i; j; k; c])
                (getitem_data [Range 56 184; Range 56 184; Range 13 141]
                              [X; Y; Z; 4] S) 0%Q
            = nth (ravel [X; Y; Z] [56 + i; 56 + j; 13 + k])
                  (data (nth c arrs t1n)) 0%Q).
  { intros c Hc.
    assert (Hb : in_bounds
                   (getitem_shape [Range 56 184; Range 56 184; Range 13 141]
                                  [X; Y; Z; 4]) [i; j; k; c]).
    { cbn [getitem_shape].
      rewrite !(Nat.min_l 184), !(Nat.min_l 56), (Nat.min_l 141),
        (Nat.min_l 13) by lia.
      constructor; [lia|]. constructor; [lia|]. constructor; [lia|].
      constructor; [lia|]. constructor. }
    pose proof (nth_getitem_data 0%Q
                  [Range 56 184; Range 56 184; Range 13 141]
                  [X; Y; Z; 4] S [i; j; k; c] eq_refl HS Hb) as E.
    cbn [getitem_shape src_index] in E.
    rewrite !(Nat.min_l 184), !(Nat.min_l 56), (Nat.min_l 141),
      (Nat.min_l 13) in E by lia.
    change (184 - 56) with 128 in E. change (141 - 13) with 128 in E.
    rewrite E. clear E.
    rewrite ES.
    rewrite <- (nth_stack_last arrs (size [X; Y; Z]) 0%Q t1n Hlen
                  (ravel [X; Y; Z] [56 + i; 56 + j; 13 + k]) c Ho Hc).
    f_equal. cbn [ravel size fold_right arrs length]. ring. }
  unfold item. cbn [shape data]. rewrite H1, H2, H3, H4.
  rewrite !Hitem by lia.
  repeat split; reflexivity.
Qed.

(** ** The Normalizer *)

(** What the scaler returns on a matrix with rows and columns, in any
    arithmetic: every column is transformed with its own minimum and
    maximum. *)
Lemma fit_transform_columns {F : Type} (ar : arith F) (rows cols : nat)
      (buf : list F) :
  0 < rows -> 0 < cols ->
  exists out,
    Sklearn.fit_transform ar (mk_ndarray [rows; cols] buf)
    = Ok (mk_ndarray [rows; cols] out) /\
    length out = rows * cols /\
    forall r k, r < rows -> k < cols ->
      let mn := Sklearn.list_min ar (Sklearn.column ar rows cols k buf) in
      let mx := Sklearn.list_max ar (Sklearn.column ar rows cols k buf) in
      let scale := div ar (sub ar (one ar) (zero ar))
                       (Sklearn.handle_zeros_in_scale ar (sub ar mx mn)) in
      nth (r * cols + k) out (zero ar)
      = add ar (mul ar (nth (r * cols + k) buf (zero ar)) scale)
               (sub ar (zero ar) (mul ar mn scale)).
Proof.
  intros Hr Hc.
  unfold Sklearn.fit_transform, Sklearn.fit. cbn [shape data].
  destruct (Nat.eqb_spec rows 0) as [|_]; [lia|].
  destruct (Nat.eqb_spec cols 0) as [|_]; [lia|].
  cbn [orb rbind Sklearn.transform shape data Sklearn.scale_ Sklearn.min_].
  eexists. split; [reflexivity|]. split.
  - rewrite (length_flat_map_const _ cols).
    + rewrite length_seq. reflexivity.
    + intros x _. rewrite length_map, length_seq. reflexivity.
  - intros r k Hr' Hk. cbv zeta.
    rewrite (nth_flat_map_const _ cols _ 0);
      [| intros x _; rewrite length_map, length_seq; reflexivity
       | rewrite length_seq; exact Hr' | exact Hk].
    rewrite seq_nth by exact Hr'. cbn [Nat.add].
    match goal with
    | |- nth k (map ?f (seq 0 cols)) _ = _ =>
        rewrite (nth_map_seq f cols k (zero ar) Hk)
    end.
    repeat match goal with
    | |- context [nth k (map ?f (seq 0 cols)) (zero ar)] =>
        rewrite (nth_map_seq f cols k (zero ar) Hk)
    end.
    reflexivity.
Qed.

Lemma fit_transform_matrix (rows cols : nat) (buf : list Q) :
  0 < rows -> 0 < cols ->
  exists out,
    Sklearn.fit_transform exactQ (mk_ndarray [rows; cols] buf)
    = Ok (mk_ndarray [rows; cols] out) /\
    length out = rows * cols /\
    forall r k, r < rows -> k < cols ->
      let mn := Sklearn.list_min exactQ (Sklearn.column exactQ rows cols k buf) in
      let mx := Sklearn.list_max exactQ (Sklearn.column exactQ rows cols k buf) in
      nth (r * cols + k) out 0%Q
      = (nth (r * cols + k) buf 0
         * ((1 - 0) / Sklearn.handle_zeros_in_scale exactQ (mx - mn))
         + (0 - mn * ((1 - 0) / Sklearn.handle_zeros_in_scale exactQ (mx - mn))))%Q.
Proof. exact (fit_transform_columns exactQ rows cols buf). Qed.

(** A column of the flattened matrix holds exactly the voxels of one last
    index. *)
Lemma column_item {F : Type} (ar : arith F) (image : ndarray F)
      (X Y Z k : nat) :
  shape image = [X; Y; Z] -> k < Z ->
  forall q, In q (Sklearn.column ar (X * Y) Z k (data image)) <->
            exists i j, i < X /\ j < Y /\ item (zero ar) image [i; j; k] = q.
Proof.
  intros Hs Hk q. unfold Sklearn.column, item. rewrite Hs.
  cbn [ravel size fold_right].
  rewrite in_map_iff. split.
  - intros (r & <- & Hr). apply in_seq in Hr.
    assert (HY : 0 < Y) by nia.
    exists (r / Y), (r mod Y). split; [|split].
    + apply Nat.Div0.div_lt_upper_bound. lia.
    + apply Nat.mod_upper_bound. lia.
    + f_equal. pose proof (Nat.div_mod_eq r Y). nia.
  - intros (i & j & Hi & Hj & <-).
    exists (i * Y + j). split; [f_equal; ring|].
    apply in_seq. nia.
Qed.

(** *** Least and greatest values, in an arithmetic whose comparison
    orders the values at hand *)

Section Extremes.

Context {F : Type} (ar : arith F) (ordered : F -> Prop).

Hypothesis ltb_asym :
  forall a b, ltb ar a b = true -> ltb ar b a = false.

Hypothesis not_below_trans :
  forall a b c, ordered b ->
    ltb ar b a = false -> ltb ar c b = false -> ltb ar c a = false.

Lemma ltb_irrefl (a : F) : ltb ar a a = false.
Proof.
  destruct (ltb ar a a) eqn:E; [|reflexivity].
  rewrite (ltb_asym a a E) in E. discriminate E.
Qed.

Lemma fold_fmin_spec (l : list F) : forall x,
  ordered x -> Forall ordered l ->
  (fold_left (Sklearn.fmin ar) l x = x
   \/ In (fold_left (Sklearn.fmin ar) l x) l) /\
  ltb ar x (fold_left (Sklearn.fmin ar) l x) = false /\
  forall y, In y l -> ltb ar y (fold_left (Sklearn.fmin ar) l x) = false.
Proof.
  induction l as [|a l IH]; intros x Hx Hl; cbn [fold_left].
  - split; [left; reflexivity|]. split; [apply ltb_irrefl | intros y []].
  - inversion Hl as [|a' l' Ha Hl']; subst.
    unfold Sklearn.fmin at 2 4 6 8. 
    destruct (ltb ar a x) eqn:E.
    + destruct (IH a Ha Hl') as (Hin & Hle & Hall).
      split; [destruct Hin as [-> | Hin]; [right; left; reflexivity
                                          | right; right; exact Hin]|].
      split.
      * apply (not_below_trans _ a _ Ha); [exact Hle|].
        apply ltb_asym. exact E.
      * intros y [<- | Hy]; [exact Hle | apply Hall; exact Hy].
    + destruct (IH x Hx Hl') as (Hin & Hle & Hall).
      split; [destruct Hin as [-> | Hin]; [left; reflexivity
                                          | right; right; exact Hin]|].
      split; [exact Hle|].
      intros y [<- | Hy]; [|apply Hall; exact Hy].
      apply (not_below_trans _ x _ Hx); [exact Hle | exact E].
Qed.

Lemma fold_fmax_spec (l : list F) : forall x,
  ordered x -> Forall ordered l ->
  (fold_left (Sklearn.fmax ar) l x = x
   \/ In (fold_left (Sklearn.fmax ar) l x) l) /\
  ltb ar (fold_left (Sklearn.fmax ar) l x) x = false /\
  forall y, In y l -> ltb ar (fold_left (Sklearn.fmax ar) l x) y = false.
Proof.
  induction l as [|a l IH]; intros x Hx Hl; cbn [fold_left].
  - split; [left; reflexivity|]. split; [apply ltb_irrefl | intros y []].
  - inversion Hl as [|a' l' Ha Hl']; subst.
    unfold Sklearn.fmax at 2 4 6 8.
    destruct (ltb ar x a) eqn:E.
    + destruct (IH a Ha Hl') as (Hin & Hle & Hall).
      split; [destruct Hin as [-> | Hin]; [right; left; reflexivity
                                          | right; right; exact Hin]|].
      split.
      * apply (not_below_trans _ a _ Ha); [|exact Hle].
        apply ltb_asym. exact E.
      * intros y [<- | Hy]; [exact Hle | apply Hall; exact Hy].
    + destruct (IH x Hx Hl') as (Hin & Hle & Hall).
      split; [destruct Hin as [-> | Hin]; [left; reflexivity
                                          | right; right; exact Hin]|].
      split; [exact Hle|].
      intros y [<- | Hy]; [|apply Hall; exact Hy].
      apply (not_below_trans _ x _ Hx); [exact E | exact Hle].
Qed.

Lemma list_min_spec (l : list F) :
  l <> [] -> Forall ordered l ->
  In (Sklearn.list_min ar l) l /\
  forall y, In y l -> ltb ar y (Sklearn.list_min ar l) = false.
Proof.
  destruct l as [|x t]; [congruence|]. intros _ Hl.
  inversion Hl as [|x' t' Hx Ht]; subst. cbn [Sklearn.list_min].
  destruct (fold_fmin_spec t x Hx Ht) as (Hin & Hle & Hall).
  split.
  - destruct Hin as [-> | Hin]; [left; reflexivity | right; exact Hin].
  - intros y [<- | Hy]; [exact Hle | apply Hall; exact Hy].
Qed.

Lemma list_max_spec (l : list F) :
  l <> [] -> Forall ordered l ->
  In (Sklearn.list_max ar l) l /\
  forall y, In y l -> ltb ar (Sklearn.list_max ar l) y = false.
Proof.
  destruct l as [|x t]; [congruence|]. intros _ Hl.
  inversion Hl as [|x' t' Hx Ht]; subst. cbn [Sklearn.list_max].
  destruct (fold_fmax_spec t x Hx Ht) as (Hin & Hle & Hall).
  split.
  - destruct Hin as [-> | Hin]; [left; reflexivity | right; exact Hin].
  - intros y [<- | Hy]; [exact Hle | apply Hall; exact Hy].
Qed.

End Extremes.

(** *** The comparison of binary64 orders the finite floats *)

Lemma SFltb_asym (a b : SpecFloat.spec_float) :
  SpecFloat.SFltb a b = true -> SpecFloat.SFltb b a = false.
Proof.
  unfold SpecFloat.SFltb, SpecFloat.SFcompare.
  destruct a as [sa|sa| |sa ma ea], b as [sb|sb| |sb mb eb];
    try congruence; try reflexivity;
    try (destruct sa, sb; simpl; congruence).
  destruct sa, sb; try (simpl; congruence);
    change (Pos.compare_cont Eq ?p ?q) with (Pos.compare p q);
    destruct (Z.compare_spec ea eb), (Z.compare_spec eb ea);
    try lia; try congruence; subst;
    destruct (Pos.compare_spec ma mb), (Pos.compare_spec mb ma);
    simpl; try lia; try congruence.
Qed.

Lemma SFltb_not_below_trans (a b c : SpecFloat.spec_float) :
  b <> SpecFloat.S754_nan ->
  SpecFloat.SFltb b a = false -> SpecFloat.SFltb c b = false ->
  SpecFloat.SFltb c a = false.
Proof.
  intros Hb.
  unfold SpecFloat.SFltb, SpecFloat.SFcompare.
  destruct a as [sa|sa| |sa ma ea], b as [sb|sb| |sb mb eb],
           c as [sc|sc| |sc mc ec];
    try congruence; try reflexivity;
    try (destruct sa, sb, sc; simpl; congruence).
  destruct sa, sb, sc; try (simpl; congruence);
    change (Pos.compare_cont Eq ?p ?q) with (Pos.compare p q);
    destruct (Z.compare_spec eb ea), (Z.compare_spec ec eb),
             (Z.compare_spec ec ea);
    try lia; try congruence; subst;
    destruct (Pos.compare_spec mb ma), (Pos.compare_spec mc mb),
             (Pos.compare_spec mc ma);
    simpl; try lia; try congruence.
Qed.

Lemma finite_not_nan (x : PrimFloat.float) :
  PrimFloat.is_finite x = true -> FloatOps.Prim2SF x <> SpecFloat.S754_nan.
Proof.
  unfold PrimFloat.is_finite, PrimFloat.is_nan. intros H E.
  rewrite FloatAxioms.eqb_spec, E in H. discriminate H.
Qed.

Lemma binary64_ltb_asym (a b : PrimFloat.float) :
  ltb binary64 a b = true -> ltb binary64 b a = false.
Proof.
  cbn [ltb binary64]. rewrite !FloatAxioms.ltb_spec. apply SFltb_asym.
Qed.

Lemma binary64_not_below_trans (a b c : PrimFloat.float) :
  PrimFloat.is_finite b = true ->
  ltb binary64 b a = false -> ltb binary64 c b = false ->
  ltb binary64 c a = false.
Proof.
  cbn [ltb binary64]. rewrite !FloatAxioms.ltb_spec. intros Hb.
  apply SFltb_not_below_trans, finite_not_nan, Hb.
Qed.

(** C3 (amended).  On a finite-valued binary64 volume of shape X x Y x Z
    with no empty axis, [preprocess_nifti] returns a well-formed volume of
    the same shape, and every last index k is rescaled on its own: there
    are a least value [mn] and a greatest value [mx] among the voxels of
    last index k, and every output voxel of that index is the float
    [x * scale + (0 - mn * scale)], where [x] is the input voxel and
    [scale] is [1 / (mx - mn)], or [1 / 1] when [mx - mn] is below ten
    times the machine epsilon; every operation is the rounded operation
    of binary64. *)
Theorem preprocess_nifti_minmax :
  forall (nib_load : string -> result (ndarray PrimFloat.float))
         (file_path : string) (image : ndarray PrimFloat.float)
         (X Y Z : nat),
    nib_load file_path = Ok image ->
    shape image = [X; Y; Z] ->
    0 < X -> 0 < Y -> 0 < Z ->
    finite_valued image ->
    exists out : ndarray PrimFloat.float,
      preprocess_nifti binary64 nib_load file_path = Ok out /\
      shape out = shape image /\
      wf out /\
      forall k, k < Z ->
        exists mn mx : PrimFloat.float,
          is_axis_min binary64 image X Y k mn /\
          is_axis_max binary64 image X Y k mx /\
          forall i j, i < X -> j < Y ->
            let range := PrimFloat.sub mx mn in
            let scale :=
              PrimFloat.div PrimFloat.one
                (if PrimFloat.ltb range Finfo.ten_eps
                 then PrimFloat.one else range) in
            item PrimFloat.zero out [i; j; k]
            = PrimFloat.add
                (PrimFloat.mul (item PrimFloat.zero image [i; j; k]) scale)
                (PrimFloat.sub PrimFloat.zero (PrimFloat.mul mn scale)).
Proof.
  intros nib_load file_path image X Y Z Hload Hs HX HY HZ Hfin.
  assert (Hrows : 0 < X * Y) by nia.
  assert (Hsize : size [X; Y; Z] = X * Y * Z)
    by (cbn [size fold_right]; ring).
  destruct (fit_transform_columns binary64 (X * Y) Z (data image) Hrows HZ)
    as (out & Hft & Hlen & Hout).
  unfold preprocess_nifti. rewrite Hload. cbn [rbind].
  unfold shape_last. rewrite Hs. cbn [last rbind].
  unfold reshape_rows. rewrite Hs, Hsize.
  destruct (Nat.eqb_spec Z 0) as [|_]; [lia|].
  rewrite Nat.Div0.mod_mul, Nat.div_mul by lia.
  cbn [Nat.eqb rbind]. rewrite Hft. cbn [rbind].
  unfold reshape. cbn [shape data]. rewrite Hsize.
  replace (size [X * Y; Z]) with (X * Y * Z)
    by (cbn [size fold_right]; ring).
  rewrite Nat.eqb_refl.
  eexists. split; [reflexivity|]. split; [reflexivity|].
  split; [unfold wf; cbn [shape data]; rewrite Hsize; exact Hlen|].
  intros k Hk.
  set (col := Sklearn.column binary64 (X * Y) Z k (data image)).
  assert (Hcol : col <> []).
  { intros E. assert (L : length col = X * Y)
      by (unfold col, Sklearn.column; rewrite length_map, length_seq;
          reflexivity).
    rewrite E in L. simpl in L. lia. }
  assert (Hord : Forall (fun v => PrimFloat.is_finite v = true) col).
  { apply Forall_forall. intros v Hv.
    unfold col, Sklearn.column in Hv. apply in_map_iff in Hv.
    destruct Hv as (r & <- & _).
    destruct (nth_in_or_default (r * Z + k) (data image) (zero binary64))
      as [Hin | ->]; [apply Hfin, Hin | reflexivity]. }
  destruct (list_min_spec binary64 _ binary64_ltb_asym
              binary64_not_below_trans col Hcol Hord) as (Hmin_in & Hmin_le).
  destruct (list_max_spec binary64 _ binary64_ltb_asym
              binary64_not_below_trans col Hcol Hord) as (Hmax_in & Hmax_le).
  pose proof (column_item binary64 image X Y Z k Hs Hk) as Hci.
  fold col in Hci.
  exists (Sklearn.list_min binary64 col), (Sklearn.list_max binary64 col).
  split; [|split].
  - split.
    + intros i j Hi Hj. apply Hmin_le, Hci. exists i, j. auto.
    + apply Hci. exact Hmin_in.
  - split.
    + intros i j Hi Hj. apply Hmax_le, Hci. exists i, j. auto.
    + apply Hci. exact Hmax_in.
  - intros i j Hi Hj. cbv zeta.
    unfold item at 1. cbn [shape data].
    replace (ravel [X; Y; Z] [i; j; k]) with ((i * Y + j) * Z + k)
      by (cbn [ravel size fold_right]; ring).
    change PrimFloat.zero with (zero binary64).
    rewrite Hout by nia. cbv zeta. fold col.
    replace (nth ((i * Y + j) * Z + k) (data image) (zero binary64))
      with (item (zero binary64) image [i; j; k])
      by (unfold item; rewrite Hs; f_equal;
          cbn [ravel size fold_right]; ring).
    reflexivity.
Qed.

(** ** The Ground-Truth Adapter *)

Lemma Qtruncate_inject_Z (q : Q) (n : Z) :
  (0 <= n)%Z -> Qeq q (inject_Z n) -> Qtruncate q = n.
Proof.
  intros Hn Hq. unfold Qtruncate.
  assert (Hf : Qlt_bool q 0 = false).
  { unfold Qlt_bool. apply negb_false_iff. apply Qle_bool_iff.
    rewrite Hq. change (inject_Z 0 <= inject_Z n)%Q.
    rewrite <- Zle_Qle. exact Hn. }
  rewrite Hf, Hq. apply Qfloor_Z.
Qed.

Lemma relabel_cases (q : Q) :
  (Qeq q 0 -> relabel q = 0) /\ (Qeq q 1 -> relabel q = 1) /\
  (Qeq q 2 -> relabel q = 2) /\ (Qeq q 4 -> relabel q = 3).
Proof.
  unfold relabel.
  repeat split; intros H.
  - rewrite (Qtruncate_inject_Z q 0); [reflexivity | lia | exact H].
  - rewrite (Qtruncate_inject_Z q 1); [reflexivity | lia | exact H].
  - rewrite (Qtruncate_inject_Z q 2); [reflexivity | lia | exact H].
  - rewrite (Qtruncate_inject_Z q 4); [reflexivity | lia | exact H].
Qed.

Lemma data_relabel (mask : ndarray Q) :
  data (reassign_4_to_3 (astype_uint8 mask)) = map relabel (data mask).
Proof.
  unfold reassign_4_to_3, astype_uint8. cbn [data]. apply map_map.
Qed.

Lemma argmax_one_hot (v : nat) :
  v < 4 -> argmax_list (Keras.one_hot 4 v) = v.
Proof.
  intros Hv.
  destruct v as [|[|[|[|v]]]]; [reflexivity .. | lia].
Qed.

Lemma lane_one_hot (labels : list nat) (o : nat) :
  o < length labels ->
  lane 0%Q 4 1 o 0 (flat_map (Keras.one_hot 4) labels)
  = Keras.one_hot 4 (nth o labels 0).
Proof.
  intros Ho. unfold lane.
  assert (Hlen : forall v, In v labels -> length (Keras.one_hot 4 v) = 4)
    by (intros v _; reflexivity).
  apply map_ext_in. intros c Hc. apply in_seq in Hc.
  replace ((o * 4 + c) * 1 + 0) with (o * 4 + c) by lia.
  rewrite (nth_flat_map_const _ 4 labels 0 0%Q Hlen o c Ho) by lia.
  unfold Keras.one_hot.
  apply (nth_map_seq (fun c => if c =? nth o labels 0 then 1%Q else 0%Q)).
  lia.
Qed.

(** One-hot encoding over four classes followed by argmax along the class
    axis gives back a three-dimensional label volume whose last axis is not
    of length one. *)
Lemma argmax_to_categorical (m : ndarray nat) (X Y Z : nat) :
  shape m = [X; Y; Z] -> Z <> 1 -> wf m ->
  (forall v, In v (data m) -> v < 4) ->
  rbind (Keras.to_categorical m 4) (argmax 3) = Ok m.
Proof.
  intros Hs HZ Hwf Hv. unfold wf in Hwf. rewrite Hs in Hwf.
  unfold Keras.to_categorical, ndim. rewrite Hs. cbn [last length].
  destruct (Nat.eqb_spec Z 1) as [|_]; [contradiction|].
  cbn [andb Nat.eqb].
  assert (Hall : forallb (fun v => v <? 4) (data m) = true).
  { apply forallb_forall. intros v Hin. apply Nat.ltb_lt, Hv, Hin. }
  rewrite Hall. cbn [rbind app].
  unfold argmax, ndim.
  cbn [shape data length Nat.ltb Nat.leb nth Nat.eqb firstn skipn app].
  destruct m as [sh dm]. cbn [shape data] in *. subst sh.
  do 2 f_equal.
  apply (nth_ext _ _ 0 0).
  - rewrite length_argmax_data. cbn [size fold_right] in Hwf |- *. lia.
  - intros n Hn. rewrite length_argmax_data in Hn.
    replace n with (n * 1 + 0) at 1 by lia.
    assert (Hn' : n < length dm) by (cbn [size fold_right] in Hwf, Hn |- *; lia).
    rewrite nth_argmax_data; [| cbn [size fold_right] in Hn |- *; lia | cbn; lia].
    change (size []) with 1.
    rewrite lane_one_hot by exact Hn'.
    apply argmax_one_hot, Hv, nth_In, Hn'.
Qed.

(** C4 (amended).  On a well-formed raw annotation volume of shape
    X x Y x Z with Z different from 1 whose values are among 0, 1, 2, 4,
    the adapter returns the relabelled volume itself (one-hot encoding and
    argmax cancel out): same shape, every 4 turned into 3, every 0, 1, 2
    kept, all labels at most 3. *)
Theorem mask_argmax_relabels :
  forall (mask : ndarray Q) (X Y Z : nat),
    shape mask = [X; Y; Z] ->
    Z <> 1 ->
    wf mask ->
    (forall q, In q (data mask) ->
       Qeq q 0 \/ Qeq q 1 \/ Qeq q 2 \/ Qeq q 4) ->
    mask_argmax mask = Ok (reassign_4_to_3 (astype_uint8 mask)) /\
    shape (reassign_4_to_3 (astype_uint8 mask)) = shape mask /\
    forall i j k, i < X -> j < Y -> k < Z ->
      let q := item 0%Q mask [i; j; k] in
      let v := item 0 (reassign_4_to_3 (astype_uint8 mask)) [i; j; k] in
      (Qeq q 4 -> v = 3) /\ (Qeq q 0 -> v = 0) /\
      (Qeq q 1 -> v = 1) /\ (Qeq q 2 -> v = 2) /\ v <= 3.
Proof.
  intros mask X Y Z Hs HZ Hwf Hvals.
  assert (Hrel : forall q, In q (data mask) -> relabel q < 4).
  { intros q Hq. destruct (relabel_cases q) as (H0 & H1 & H2 & H4).
    destruct (Hvals q Hq) as [E|[E|[E|E]]];
      [rewrite (H0 E) | rewrite (H1 E) | rewrite (H2 E) | rewrite (H4 E)];
      lia. }
  split; [|split; [reflexivity|]].
  - unfold mask_argmax.
    apply (argmax_to_categorical _ X Y Z); [exact Hs | exact HZ | |].
    + unfold wf. rewrite data_relabel, length_map. exact Hwf.
    + intros v Hv. rewrite data_relabel in Hv.
      apply in_map_iff in Hv. destruct Hv as (q & <- & Hq).
      apply Hrel, Hq.
  - intros i j k Hi Hj Hk q v.
    assert (Hr : ravel [X; Y; Z] [i; j; k] < length (data mask)).
    { unfold wf in Hwf. rewrite Hwf, Hs. apply ravel_lt.
      constructor; [exact Hi|]. constructor; [exact Hj|].
      constructor; [exact Hk|]. constructor. }
    assert (Ev : v = relabel q).
    { subst v q. unfold item. rewrite data_relabel.
      change (shape (reassign_4_to_3 (astype_uint8 mask))) with (shape mask).
      rewrite Hs.
      rewrite (nth_indep _ 0 (relabel 0%Q)) by (rewrite length_map; exact Hr).
      apply map_nth. }
    assert (Hq : In q (data mask)).
    { subst q. unfold item. rewrite Hs. apply nth_In. exact Hr. }
    rewrite Ev.
    destruct (relabel_cases q) as (H0 & H1 & H2 & H4).
    repeat split; auto.
    specialize (Hrel q Hq). lia.
Qed.

(** ** Finding the files of the archive *)

Lemma endswith_substring (file suffix : string) :
  endswith file suffix = true ->
  substring (String.length file - String.length suffix)
            (String.length suffix) file = suffix.
Proof.
  unfold endswith. intros H. apply andb_prop in H. destruct H as [_ H].
  apply String.eqb_eq. exact H.
Qed.

(** A name ends with at most one suffix of a given length. *)
Lemma endswith_exclusive (file s1 s2 : string) :
  String.length s1 = String.length s2 ->
  endswith file s1 = true -> endswith file s2 = true -> s1 = s2.
Proof.
  intros Hlen H1 H2.
  apply endswith_substring in H1. apply endswith_substring in H2.
  rewrite Hlen in H1. congruence.
Qed.

Lemma endswith_other (m m' : modality) (file : string) :
  m <> m' -> endswith file (suffix_of m) = true ->
  endswith file (suffix_of m') = false.
Proof.
  intros Hne H. destruct (endswith file (suffix_of m')) eqn:E; [|reflexivity].
  exfalso. apply Hne.
  assert (Hs : suffix_of m = suffix_of m').
  { apply (endswith_exclusive file); [|exact H|exact E].
    destruct m, m'; reflexivity. }
  destruct m, m'; try reflexivity; discriminate Hs.
Qed.

Ltac other_suffix Ho m' :=
  let H := fresh in
  assert (H := Ho m' ltac:(discriminate));
  cbn [suffix_of] in H; rewrite H; clear H.

(** One step of the scan: a matching name replaces the binding of its
    modality, any other name leaves it alone. *)
Lemma visit_spec (m : modality) (root : string) (st : found) (file : string) :
  path_of m (visit root st file)
  = if endswith file (suffix_of m) then Some (path_join root file)
    else path_of m st.
Proof.
  destruct (endswith file (suffix_of m)) eqn:E.
  - assert (Ho : forall m', m <> m' -> endswith file (suffix_of m') = false)
      by (intros m' Hne; apply (endswith_other m); assumption).
    unfold visit.
    destruct m; cbn [suffix_of] in E;
      repeat first [ rewrite E
                   | other_suffix Ho T1n | other_suffix Ho T1c
                   | other_suffix Ho T2f | other_suffix Ho T2w
                   | other_suffix Ho Seg ];
      reflexivity.
  - unfold visit.
    destruct m; cbn [suffix_of] in E;
      repeat match goal with
      | |- context [if endswith file ?s then _ else _] =>
          destruct (endswith file s) eqn:?; try discriminate
      end; try reflexivity; congruence.
Qed.

Lemma find_nifti_files_scan (walk : list walk_entry) :
  find_nifti_files walk
  = fold_left scan_step (walk_files walk)
              (mk_found None None None None None).
Proof.
  unfold find_nifti_files, walk_files.
  generalize (mk_found None None None None None).
  induction walk as [|[root files] walk IH]; intros st; [reflexivity|].
  cbn [fold_left flat_map fst snd]. rewrite fold_left_app, IH.
  f_equal. clear IH. revert st.
  induction files as [|f files IHf]; intros st; [reflexivity|].
  cbn [map fold_left]. apply IHf.
Qed.

Lemma scan_no_match (m : modality) (l : list (string * string)) :
  forall st,
    (forall p, In p l -> endswith (snd p) (suffix_of m) = false) ->
    path_of m (fold_left scan_step l st) = path_of m st.
Proof.
  induction l as [|p l IH]; intros st Hno; [reflexivity|].
  cbn [fold_left]. rewrite IH by (intros q Hq; apply Hno; right; exact Hq).
  unfold scan_step. rewrite visit_spec, (Hno p) by (left; reflexivity).
  reflexivity.
Qed.

Lemma scan_last_match (m : modality) (l1 l2 : list (string * string))
      (root file : string) (st : found) :
  endswith file (suffix_of m) = true ->
  (forall p, In p l2 -> endswith (snd p) (suffix_of m) = false) ->
  path_of m (fold_left scan_step (l1 ++ (root, file) :: l2) st)
  = Some (path_join root file).
Proof.
  intros Hm Hno.
  rewrite fold_left_app. cbn [fold_left].
  rewrite scan_no_match by exact Hno.
  unfold scan_step. cbn [fst snd]. rewrite visit_spec, Hm. reflexivity.
Qed.

(** C8 (amended).  When several files of the extracted archive carry the
    same recognised suffix, the file bound to that modality is the last one
    met during the directory walk: every later match overwrites the
    binding. *)
Theorem last_match_wins :
  forall (m : modality) (walk : list walk_entry)
         (before after : list (string * string)) (root file : string),
    walk_files walk = before ++ (root, file) :: after ->
    endswith file (suffix_of m) = true ->
    (forall p, In p after -> endswith (snd p) (suffix_of m) = false) ->
    path_of m (find_nifti_files walk) = Some (path_join root file).
Proof.
  intros m walk before after root file Hw Hm Hno.
  rewrite find_nifti_files_scan, Hw.
  apply scan_last_match; assumption.
Qed.

(** ** Runs and their logs *)

Lemma fst_bind {A B} (m : M A) (f : A -> M B) :
  fst (bind m f)
  = match fst m with
    | Ok a => fst (f a)
    | Raise e => Raise e
    end.
Proof.
  destruct m as [[a|e] l]; cbn [bind fst]; [|reflexivity].
  destruct (f a); reflexivity.
Qed.

Lemma snd_bind {A B} (m : M A) (f : A -> M B) :
  snd (bind m f)
  = snd m ++ match fst m with
             | Ok a => snd (f a)
             | Raise _ => []
             end.
Proof.
  destruct m as [[a|e] l]; cbn [bind fst snd].
  - destruct (f a); reflexivity.
  - rewrite app_nil_r. reflexivity.
Qed.

Lemma log_bind {A B} (P : event -> Prop) (m : M A) (f : A -> M B) :
  Forall P (snd m) ->
  (forall a, fst m = Ok a -> Forall P (snd (f a))) ->
  Forall P (snd (bind m f)).
Proof.
  intros Hm Hf. rewrite snd_bind. apply Forall_app. split; [exact Hm|].
  destruct (fst m) as [a|e]; [apply Hf; reflexivity | constructor].
Qed.

Lemma log_lift {A} (P : event -> Prop) (r : result A) :
  Forall P (snd (lift r)).
Proof. constructor. Qed.

Lemma log_ret {A} (P : event -> Prop) (a : A) : Forall P (snd (ret a)).
Proof. constructor. Qed.

Lemma log_emit (P : event -> Prop) (e : event) :
  P e -> Forall P (snd (emit e)).
Proof. intros H. constructor; [exact H | constructor]. Qed.

Lemma log_for_each {A} (P : event -> Prop) (body : A -> M unit) (l : list A) :
  (forall x, Forall P (snd (body x))) ->
  Forall P (snd (for_each body l)).
Proof.
  intros Hb. induction l as [|x l IH]; cbn [for_each].
  - apply log_ret.
  - apply log_bind; [apply Hb | intros _ _; exact IH].
Qed.

(** Discharges "every event of this run satisfies P" for straight-line
    code whose events all do; facts about sub-runs are taken from the
    context. *)
Ltac log_steps :=
  repeat first
    [ match goal with H : _ |- _ => solve [apply H] end
    | apply log_lift
    | apply log_ret
    | apply log_emit; try reflexivity; try discriminate
    | apply log_bind; [| intros ? ?]
    | apply log_for_each; intros ?
    | match goal with
      | |- Forall _ (snd (if ?c then _ else _)) => destruct c
      | |- Forall _ (snd (let (_, _) := ?p in _)) => destruct p
      end ].

(** ** The rank check of the Inference Orchestrator, and the model used *)

Lemma run_segmentation_rejects (mdl : model) (input_image : ndarray Q) :
  ndim (expand_dims0 input_image) <> 5 ->
  run_segmentation mdl input_image
  = (Ok None,
     [StError (UnexpectedInputShape (shape (expand_dims0 input_image)))]).
Proof.
  intros H. unfold run_segmentation.
  destruct (Nat.eqb_spec (ndim (expand_dims0 input_image)) 5);
    [contradiction | reflexivity].
Qed.

Lemma run_segmentation_log (mdl : model) (input_image : ndarray Q) :
  ndim (expand_dims0 input_image) = 5 ->
  snd (run_segmentation mdl input_image)
  = [ModelPredict (expand_dims0 input_image)].
Proof.
  intros H. unfold run_segmentation. rewrite H. cbn [Nat.eqb negb].
  destruct (mdl (expand_dims0 input_image)) as [prediction|e];
    [|reflexivity].
  cbn [bind emit lift ret snd fst app].
  destruct (argmax 4 prediction) as [am|e]; [|reflexivity].
  destruct (getitem [At 0; All; All; All] am); reflexivity.
Qed.

Lemma run_segmentation_returns (mdl : model) (input_image prediction : ndarray Q)
      (B X Y Z K : nat) :
  ndim (expand_dims0 input_image) = 5 ->
  mdl (expand_dims0 input_image) = Ok prediction ->
  shape prediction = [S B; X; Y; Z; S K] ->
  exists labels, fst (run_segmentation mdl input_image) = Ok (Some labels).
Proof.
  intros H Hp Hs. unfold run_segmentation. rewrite H. cbn [Nat.eqb negb].
  rewrite Hp. cbn [bind emit lift ret fst snd app].
  unfold argmax, ndim. rewrite Hs.
  cbn [length Nat.ltb Nat.leb nth Nat.eqb firstn skipn app
       bind emit lift ret fst snd].
  unfold getitem. cbn [shape getitem_check Nat.ltb Nat.leb andb].
  eexists. reflexivity.
Qed.

(** C5.  After the batch axis is inserted, [run_segmentation] reports a
    shape error and returns [None], without asking the model anything,
    exactly when the batched tensor does not have five dimensions; when it
    has five, the model is asked once, on the batched tensor, and if it
    answers with a five-dimensional tensor of at least one batch entry and
    one class, a label volume is returned. *)
Theorem run_segmentation_rank_check :
  forall (mdl : model) (input_image : ndarray Q),
    let batched := expand_dims0 input_image in
    let run := run_segmentation mdl input_image in
    (ndim batched <> 5 <->
     run = (Ok None, [StError (UnexpectedInputShape (shape batched))])) /\
    (ndim batched <> 5 -> predictions run = []) /\
    (ndim batched = 5 ->
     snd run = [ModelPredict batched] /\
     forall prediction B X Y Z K,
       mdl batched = Ok prediction ->
       shape prediction = [S B; X; Y; Z; S K] ->
       exists labels, fst run = Ok (Some labels)).
Proof.
  intros mdl input_image batched run. subst batched run.
  split; [split|split].
  - apply run_segmentation_rejects.
  - intros Hrun Hfive.
    pose proof (run_segmentation_log mdl input_image Hfive) as Hlog.
    rewrite Hrun in Hlog. discriminate Hlog.
  - intros H. rewrite (run_segmentation_rejects mdl input_image H).
    reflexivity.
  - intros H. split; [apply run_segmentation_log; exact H|].
    intros prediction B X Y Z K Hp Hs.
    apply (run_segmentation_returns mdl input_image prediction B X Y Z K);
      assumption.
Qed.

(** C7.  Without an upload the session uses the default model; with an
    upload that loads it uses the uploaded model; with an upload that fails
    to load the error is shown and the session uses the default model.
    The run never raises. *)
Theorem select_model_fallback :
  forall (model_file : Type) (load_model : model_file -> result model)
         (default_model : model),
    select_model load_model default_model None
    = (Ok default_model, [SidebarInfo UsingDefaultModel]) /\
    (forall f m, load_model f = Ok m ->
       select_model load_model default_model (Some f)
       = (Ok m, [WriteModelFile "temp_model.keras";
                 SidebarSuccess CustomModelLoaded])) /\
    (forall f e, load_model f = Raise e ->
       select_model load_model default_model (Some f)
       = (Ok default_model,
          [WriteModelFile "temp_model.keras";
           SidebarError (ErrorLoadingCustomModel e);
           SidebarInfo UsingDefaultModelInstead])).
Proof.
  intros model_file load_model default_model.
  split; [reflexivity|]. split.
  - intros f m H. unfold select_model. rewrite H. reflexivity.
  - intros f e H. unfold select_model. rewrite H. reflexivity.
Qed.

(** ** The pipeline as a whole *)

Lemma filter_none {A} (f : A -> bool) (l : list A) :
  Forall (fun x => f x = false) l -> filter f l = [].
Proof.
  induction 1 as [|x l Hx _ IH]; cbn [filter]; [reflexivity|].
  rewrite Hx. exact IH.
Qed.

(** Nothing that follows the segmentation reports an error. *)
Lemma present_results_no_error (nib_load : string -> result (ndarray Q))
      (combined_image : ndarray Q) (sr : option (ndarray nat))
      (mpath : option string) :
  Forall (fun e => forall m, e <> StError m)
         (snd (present_results nib_load combined_image sr mpath)).
Proof.
  unfold present_results, load_ground_truth, plot_results, plot_slice,
    save_result.
  log_steps.
Qed.

Lemma run_segmentation_events (mdl : model) (input_image : ndarray Q) :
  snd (run_segmentation mdl input_image)
  = [ModelPredict (expand_dims0 input_image)]
  \/ snd (run_segmentation mdl input_image)
     = [StError (UnexpectedInputShape (shape (expand_dims0 input_image)))].
Proof.
  destruct (Nat.eq_dec (ndim (expand_dims0 input_image)) 5) as [H|H].
  - left. apply run_segmentation_log. exact H.
  - right. rewrite (run_segmentation_rejects mdl input_image H). reflexivity.
Qed.

Lemma append_nonempty (a b : string) : b <> ""%string -> (a ++ b)%string <> ""%string.
Proof. destruct a; cbn; [auto | discriminate]. Qed.

Lemma path_join_nonempty (a b : string) :
  b <> ""%string -> path_join a b <> ""%string.
Proof.
  intros Hb. unfold path_join.
  destruct (prefix "/" b); [exact Hb|].
  destruct ((a =? "")%string || endswith a "/").
  - apply append_nonempty. exact Hb.
  - apply append_nonempty, append_nonempty. exact Hb.
Qed.

Lemma truthy_bound (m : modality) (root file : string) :
  endswith file (suffix_of m) = true ->
  truthy (Some (path_join root file)) = true.
Proof.
  intros H. cbn [truthy]. apply negb_true_iff. apply String.eqb_neq.
  apply path_join_nonempty. intros ->. destruct m; discriminate H.
Qed.

(** The last file of a list that satisfies a test. *)
Lemma last_match_split {A} (f : A -> bool) (l : list A) :
  (exists x, In x l /\ f x = true) ->
  exists l1 x l2, l = l1 ++ x :: l2 /\ f x = true /\
                  forall y, In y l2 -> f y = false.
Proof.
  induction l as [|a l IH]; intros (x & Hin & Hx); [destruct Hin|].
  destruct (existsb f l) eqn:E.
  - apply existsb_exists in E. destruct (IH E) as (l1 & y & l2 & -> & Hy & Hno).
    exists (a :: l1), y, l2. auto.
  - assert (Hno : forall y, In y l -> f y = false).
    { intros y Hy. destruct (f y) eqn:Ey; [|reflexivity].
      assert (existsb f l = true) by (apply existsb_exists; eauto).
      congruence. }
    destruct Hin as [->|Hin]; [|rewrite (Hno x Hin) in Hx; discriminate].
    exists [], x, l. auto.
Qed.

Lemma has_file_truthy (walk : list walk_entry) (m : modality) :
  has_file walk m -> truthy (path_of m (find_nifti_files walk)) = true.
Proof.
  intros H.
  destruct (last_match_split (fun p => endswith (snd p) (suffix_of m))
              (walk_files walk) H) as (l1 & [root file] & l2 & Hw & Hm & Hno).
  rewrite find_nifti_files_scan, Hw.
  rewrite (scan_last_match m l1 l2 root file _ Hm Hno).
  apply (truthy_bound m). exact Hm.
Qed.

Lemma no_file_unbound (walk : list walk_entry) (m : modality) :
  ~ has_file walk m -> path_of m (find_nifti_files walk) = None.
Proof.
  intros H. rewrite find_nifti_files_scan, scan_no_match.
  - destruct m; reflexivity.
  - intros p Hp. destruct (endswith (snd p) (suffix_of m)) eqn:E;
      [|reflexivity].
    exfalso. apply H. exists p. auto.
Qed.

(** C6.  When the extracted archive has no file for one of the four
    required modalities, the run consists of the missing-files error alone:
    nothing is loaded or normalised, the model is not asked, no file is
    written; this holds whatever the files contain.  When all four are
    there, that error is not reported, with or without a [seg.nii.gz]. *)
Theorem missing_input_file :
  forall (nib_load : string -> result (ndarray Q)) (mdl : model)
         (walk : list walk_entry),
    ((exists m, In m required /\ ~ has_file walk m) ->
     process_upload nib_load mdl walk
     = (Ok tt, [StError MissingRequiredFiles])) /\
    ((forall m, In m required -> has_file walk m) ->
     ~ In (StError MissingRequiredFiles)
          (snd (process_upload nib_load mdl walk))).
Proof.
  intros nib_load mdl walk. split.
  - intros (m & Hm & Hno).
    apply no_file_unbound in Hno. unfold process_upload.
    destruct Hm as [<-|[<-|[<-|[<-|[]]]]]; cbn [path_of] in Hno;
      rewrite Hno; cbn [truthy andb];
      rewrite ?andb_false_r; reflexivity.
  - intros Hall.
    assert (H1 := has_file_truthy walk T1n (Hall T1n ltac:(cbn; auto))).
    assert (H2 := has_file_truthy walk T1c (Hall T1c ltac:(cbn; auto))).
    assert (H3 := has_file_truthy walk T2f (Hall T2f ltac:(cbn; auto))).
    assert (H4 := has_file_truthy walk T2w (Hall T2w ltac:(cbn; auto))).
    cbn [path_of] in H1, H2, H3, H4.
    unfold process_upload. rewrite H1, H2, H3, H4. cbn [andb].
    intros Hin.
    refine ((proj1 (Forall_forall
                      (fun e => e <> StError MissingRequiredFiles) _) _)
              _ Hin eq_refl).
    assert (Hrun : forall c, Forall (fun e => e <> StError MissingRequiredFiles)
                           (snd (run_segmentation mdl c))).
    { intros c. destruct (run_segmentation_events mdl c) as [-> | ->];
        (constructor; [discriminate | constructor]). }
    assert (Hpres : forall c sr mp,
              Forall (fun e => e <> StError MissingRequiredFiles)
                     (snd (present_results nib_load c sr mp))).
    { intros c sr mp.
      eapply Forall_impl; [| apply present_results_no_error].
      intros e He. apply He. }
    log_steps.
Qed.

(** ** The rank checks *)

Lemma preprocess_nifti_shape (nib_load : string -> result (ndarray Q))
      (p : string) (out : ndarray Q) :
  preprocess_nifti exactQ nib_load p = Ok out ->
  exists image, nib_load p = Ok image /\ shape out = shape image.
Proof.
  unfold preprocess_nifti. intros H.
  destruct (nib_load p) as [image|e]; [|discriminate H].
  exists image. split; [reflexivity|].
  cbn [rbind] in H.
  destruct (shape_last image) as [cols|e]; [|discriminate H].
  cbn [rbind] in H.
  destruct (reshape_rows image cols) as [flat|e]; [|discriminate H].
  cbn [rbind] in H.
  destruct (Sklearn.fit_transform exactQ flat) as [scaled|e]; [|discriminate H].
  cbn [rbind] in H. unfold reshape in H.
  destruct (size (shape image) =? size (shape scaled)); [|discriminate H].
  injection H as <-. reflexivity.
Qed.

Lemma channel_shape (nib_load : string -> result (ndarray Q))
      (o : option string) (a : ndarray Q) (sh : list nat) :
  (forall p image, o = Some p -> nib_load p = Ok image -> shape image = sh) ->
  fst (lift (rbind (str_arg o) (preprocess_nifti exactQ nib_load))) = Ok a ->
  shape a = sh.
Proof.
  intros Hsh H. cbn [lift fst] in H.
  destruct o as [p|]; [|discriminate H]. cbn [str_arg rbind] in H.
  destruct (preprocess_nifti_shape nib_load p a H) as (image & Hl & ->).
  apply (Hsh p image eq_refl Hl).
Qed.

Lemma combine_channels_ndim (t1n t1c t2f t2w combined : ndarray Q)
      (X Y Z : nat) :
  shape t1n = [X; Y; Z] -> shape t1c = [X; Y; Z] ->
  shape t2f = [X; Y; Z] -> shape t2w = [X; Y; Z] ->
  combine_channels t1n t1c t2f t2w = Ok combined ->
  ndim combined = 4.
Proof.
  intros H1 H2 H3 H4 H.
  destruct (combine_channels_ok t1n t1c t2f t2w X Y Z H1 H2 H3 H4)
    as (buf & E).
  rewrite E in H. injection H as <-. reflexivity.
Qed.

(** C9.  Four volumes of one three-dimensional shape always combine, into
    an array of exactly four dimensions, which the batch axis makes
    five-dimensional, so that [run_segmentation] asks the model and reports
    nothing; and in a run of the whole pipeline on files that load as
    volumes of one three-dimensional shape, neither rank check reports an
    error. *)
Theorem rank_checks_cannot_fail :
  (forall (t1n t1c t2f t2w : ndarray Q) (X Y Z : nat) (mdl : model),
     shape t1n = [X; Y; Z] -> shape t1c = [X; Y; Z] ->
     shape t2f = [X; Y; Z] -> shape t2w = [X; Y; Z] ->
     exists combined,
       combine_channels t1n t1c t2f t2w = Ok combined /\
       ndim combined = 4 /\
       ndim (expand_dims0 combined) = 5 /\
       snd (run_segmentation mdl combined)
       = [ModelPredict (expand_dims0 combined)]) /\
  (forall (nib_load : string -> result (ndarray Q)) (mdl : model)
          (walk : list walk_entry) (X Y Z : nat),
     (forall m p image,
        In m required ->
        path_of m (find_nifti_files walk) = Some p ->
        nib_load p = Ok image ->
        shape image = [X; Y; Z]) ->
     Forall (fun e => is_shape_error e = false)
            (snd (process_upload nib_load mdl walk))).
Proof.
  split.
  - intros t1n t1c t2f t2w X Y Z mdl H1 H2 H3 H4.
    destruct (combine_channels_ok t1n t1c t2f t2w X Y Z H1 H2 H3 H4)
      as (buf & E).
    eexists. split; [exact E|]. split; [reflexivity|].
    split; [reflexivity|].
    apply run_segmentation_log. reflexivity.
  - intros nib_load mdl walk X Y Z Hsh.
    unfold process_upload.
    set (f := find_nifti_files walk) in *.
    destruct (truthy (t1n_path f) && truthy (t1c_path f)
              && truthy (t2f_path f) && truthy (t2w_path f));
      [| apply log_emit; reflexivity].
    apply log_bind; [apply log_lift | intros t1n E1].
    apply log_bind; [apply log_lift | intros t1c E2].
    apply log_bind; [apply log_lift | intros t2f E3].
    apply log_bind; [apply log_lift | intros t2w E4].
    apply log_bind; [apply log_lift | intros combined Ec].
    apply (channel_shape nib_load _ _ [X; Y; Z]) in E1;
      [| intros p image Hp; apply (Hsh T1n); [cbn; auto | exact Hp]].
    apply (channel_shape nib_load _ _ [X; Y; Z]) in E2;
      [| intros p image Hp; apply (Hsh T1c); [cbn; auto | exact Hp]].
    apply (channel_shape nib_load _ _ [X; Y; Z]) in E3;
      [| intros p image Hp; apply (Hsh T2f); [cbn; auto | exact Hp]].
    apply (channel_shape nib_load _ _ [X; Y; Z]) in E4;
      [| intros p image Hp; apply (Hsh T2w); [cbn; auto 6 | exact Hp]].
    cbn [lift fst] in Ec.
    pose proof (combine_channels_ndim _ _ _ _ _ X Y Z E1 E2 E3 E4 Ec) as Hnd.
    apply log_bind; [apply log_emit; reflexivity | intros _ _].
    rewrite Hnd. cbn [Nat.eqb negb].
    apply log_bind; [apply log_emit; reflexivity | intros _ _].
    apply log_bind.
    + rewrite run_segmentation_log
        by (unfold ndim in *; cbn [expand_dims0 shape length]; lia).
      constructor; [reflexivity | constructor].
    + intros sr _.
      eapply Forall_impl; [| apply present_results_no_error].
      intros e He. destruct e; try reflexivity.
      exfalso. apply (He m). reflexivity.
Qed.

(** ** The ground truth and the packaged result *)

Lemma filter_bind {A B} (p : event -> bool) (m : M A) (f : A -> M B) :
  filter p (snd (bind m f))
  = filter p (snd m) ++ match fst m with
                        | Ok a => filter p (snd (f a))
                        | Raise _ => []
                        end.
Proof.
  rewrite snd_bind, filter_app. destruct (fst m); reflexivity.
Qed.



(** After the segmentation nothing is asked of the model, and the only
    thing packaged is the segmentation result, when the run gets there. *)
Lemma present_results_packages (nib_load : string -> result (ndarray Q))
      (combined_image : ndarray Q) (sr : option (ndarray nat))
      (mpath : option string) :
  let run := present_results nib_load combined_image sr mpath in
  predictions run = [] /\
  (outputs run = [] \/ outputs run = packaged sr) /\
  (fst run = Ok tt -> outputs run = packaged sr).
Proof.
  cbv zeta. split.
  - apply filter_none.
    unfold present_results, load_ground_truth, plot_results, plot_slice,
      save_result.
    log_steps.
  - assert (Hgt : outputs (load_ground_truth nib_load mpath) = []).
    { apply filter_none. unfold load_ground_truth. log_steps. }
    assert (Hplot : forall am,
              outputs (plot_results combined_image sr mpath am) = []).
    { intros am. apply filter_none. unfold plot_results, plot_slice.
      log_steps. }
    assert (Hsave : outputs (save_result sr) = packaged sr /\
                    (fst (save_result sr) = Ok tt -> sr <> None)).
    { destruct sr; split; try reflexivity; try discriminate. }
    destruct Hsave as [Hsave _].
    unfold present_results, outputs in *.
    rewrite !filter_bind, !fst_bind.
    cbn [emit fst snd filter is_output app].
    rewrite Hgt. cbn [app].
    destruct (fst (load_ground_truth nib_load mpath)) as [am|e].
    + rewrite filter_bind, fst_bind, Hplot. cbn [app].
      destruct (fst (plot_results combined_image sr mpath am)) as [[]|e].
      * rewrite Hsave. auto.
      * split; [auto | discriminate].
    + split; [auto | discriminate].
Qed.





(** ** Runs that reach the packaging step, and runs that do not *)

Lemma bind_lift_ok {A B} (a : A) (f : A -> M B) : bind (lift (Ok a)) f = f a.
Proof. unfold bind, lift. destruct (f a). reflexivity. Qed.



Lemma plot_slice_ok (combined : ndarray Q) (sr : ndarray nat)
      (A B C i n : nat) :
  shape combined = [A; B; C; 4] ->
  shape sr = [A; B; C] ->
  n < C ->
  fst (plot_slice combined (Some sr) None None (i, n)) = Ok tt /\
  outputs (plot_slice combined (Some sr) None None (i, n)) = [].
Proof.
  intros Hc Hs Hn.
  assert (Hlt : (n <? C) = true) by (apply Nat.ltb_lt; exact Hn).
  unfold outputs, plot_slice. cbn [subscriptable rbind truthy].
  unfold getitem. rewrite Hc, Hs.
  cbn [getitem_check getitem_shape shape rbind].
  rewrite Hlt.
  change (0 <? 4) with true.
  cbn [andb rbind]. unfold rot90.
  cbn [shape rbind bind lift emit ret fst snd app filter is_output].
  split; reflexivity.
Qed.

(** Without a ground truth, on a prediction deep enough for the three
    displayed slices, everything after the segmentation succeeds and the
    prediction is packaged. *)
Lemma present_results_without_mask (nib_load : string -> result (ndarray Q))
      (combined : ndarray Q) (sr : ndarray nat) (A B C : nat) :
  shape combined = [A; B; C; 4] ->
  shape sr = [A; B; C] ->
  100 < C ->
  fst (present_results nib_load combined (Some sr) None) = Ok tt /\
  outputs (present_results nib_load combined (Some sr) None)
  = packaged (Some sr).
Proof.
  intros Hc Hs HC.
  assert (H75 := plot_slice_ok combined sr A B C 0 75 Hc Hs ltac:(lia)).
  assert (H90 := plot_slice_ok combined sr A B C 1 90 Hc Hs ltac:(lia)).
  assert (H100 := plot_slice_ok combined sr A B C 2 100 Hc Hs ltac:(lia)).
  destruct H75 as [F75 O75], H90 as [F90 O90], H100 as [F100 O100].
  unfold outputs in *.
  unfold present_results, load_ground_truth, plot_results.
  change (enumerate slice_indices) with [(0, 75); (1, 90); (2, 100)].
  cbn [truthy for_each].
  repeat first
    [ rewrite fst_bind | rewrite filter_bind
    | rewrite F75 | rewrite O75 | rewrite F90 | rewrite O90
    | rewrite F100 | rewrite O100
    | progress cbn [emit ret lift has_attr save_result fst snd filter
                    is_output app] ].
  split; reflexivity.
Qed.


(** A ground truth of a single slice has its last axis dropped by the
    one-hot encoder, and the argmax along axis 3 of the three-dimensional
    encoding raises. *)
Lemma mask_argmax_single_slice (mask : ndarray Q) (X Y : nat) :
  shape mask = [X; Y; 1] ->
  (forall q, In q (data mask) -> relabel q < 4) ->
  mask_argmax mask = Raise AxisError.
Proof.
  intros Hs Hv. unfold mask_argmax, Keras.to_categorical, ndim.
  cbn [reassign_4_to_3 astype_uint8 shape data]. rewrite Hs.
  cbn [last length Nat.eqb]. change (1 <? 3) with true.
  cbn [andb removelast].
  rewrite map_map.
  change (map _ (data mask)) with (map relabel (data mask)).
  assert (Hall : forallb (fun v => v <? 4) (map relabel (data mask)) = true).
  { apply forallb_forall. intros v Hin. apply in_map_iff in Hin.
    destruct Hin as (q & <- & Hq). apply Nat.ltb_lt, Hv, Hq. }
  rewrite Hall. reflexivity.
Qed.



(** ** The statements at concrete inputs *)

(** The crafted tensor of shape (1,2,2,2,4): every voxel gets the index of
    its maximum, the lowest one at the two ties. *)
Example run_segmentation_crafted :
  fst (run_segmentation Examples.crafted_model (Examples.zeros [2; 2; 2; 4]))
  = Ok (Some (mk_ndarray [2; 2; 2] [3; 0; 0; 1; 2; 0; 1; 3])).
Proof. vm_compute. reflexivity. Qed.

Lemma run_segmentation_argmax_witness :
  exists labels : ndarray nat,
    fst (run_segmentation Examples.crafted_model (Examples.zeros [2; 2; 2; 4]))
    = Ok (Some labels) /\
    shape labels = [2; 2; 2] /\
    forall x y z, x < 2 -> y < 2 -> z < 2 ->
      let r := item 0 labels [x; y; z] in
      r < 4 /\
      (forall c, c < 4 ->
         Qle (item 0%Q Examples.crafted [0; x; y; z; c])
             (item 0%Q Examples.crafted [0; x; y; z; r])) /\
      (forall c, c < r ->
         Qlt (item 0%Q Examples.crafted [0; x; y; z; c])
             (item 0%Q Examples.crafted [0; x; y; z; r])).
Proof.
  apply (run_segmentation_argmax Examples.crafted_model
           (Examples.zeros [2; 2; 2; 4]) Examples.crafted 0 2 2 2 3).
  - reflexivity.
  - reflexivity.
  - reflexivity.
Defined.

Lemma combine_channels_crop_witness :
  exists combined : ndarray Q,
    combine_channels Examples.brats_volume Examples.brats_volume
                     Examples.brats_volume Examples.brats_volume
    = Ok combined /\
    ndim combined = 4 /\
    shape combined = [128; 128; 128; 4] /\
    forall i j k, i < 128 -> j < 128 -> k < 128 ->
      item 0%Q combined [i; j; k; 0]
      = item 0%Q Examples.brats_volume [56 + i; 56 + j; 13 + k] /\
      item 0%Q combined [i; j; k; 1]
      = item 0%Q Examples.brats_volume [56 + i; 56 + j; 13 + k] /\
      item 0%Q combined [i; j; k; 2]
      = item 0%Q Examples.brats_volume [56 + i; 56 + j; 13 + k] /\
      item 0%Q combined [i; j; k; 3]
      = item 0%Q Examples.brats_volume [56 + i; 56 + j; 13 + k].
Proof.
  apply (combine_channels_crop Examples.brats_volume Examples.brats_volume
           Examples.brats_volume Examples.brats_volume 240 240 155).
  - reflexivity.
  - reflexivity.
  - reflexivity.
  - reflexivity.
  - apply Examples.wf_zeros.
  - apply Examples.wf_zeros.
  - apply Examples.wf_zeros.
  - apply Examples.wf_zeros.
  - lia.
  - lia.
  - lia.
Defined.

Lemma preprocess_nifti_minmax_witness :
  exists out : ndarray PrimFloat.float,
    preprocess_nifti binary64 (fun _ => Ok Examples64.two_voxels)
                     "t1n.nii.gz" = Ok out /\
    shape out = shape Examples64.two_voxels /\
    wf out /\
    forall k, k < 1 ->
      exists mn mx : PrimFloat.float,
        is_axis_min binary64 Examples64.two_voxels 2 1 k mn /\
        is_axis_max binary64 Examples64.two_voxels 2 1 k mx /\
        forall i j, i < 2 -> j < 1 ->
          let range := PrimFloat.sub mx mn in
          let scale :=
            PrimFloat.div PrimFloat.one
              (if PrimFloat.ltb range Finfo.ten_eps
               then PrimFloat.one else range) in
          item PrimFloat.zero out [i; j; k]
          = PrimFloat.add
              (PrimFloat.mul
                 (item PrimFloat.zero Examples64.two_voxels [i; j; k]) scale)
              (PrimFloat.sub PrimFloat.zero (PrimFloat.mul mn scale)).
Proof.
  apply (preprocess_nifti_minmax (fun _ => Ok Examples64.two_voxels)
           "t1n.nii.gz" Examples64.two_voxels 2 1 1).
  - reflexivity.
  - reflexivity.
  - lia.
  - lia.
  - lia.
  - intros v [<- | [<- | []]]; reflexivity.
Defined.

(** C3, as stated, fails: in binary64 the scaler maps the larger of two
    voxels of intensities 1848 and 3166, whose range is not degenerate, to
    the float next after 1, which is above 1 and is not the quotient
    (3166 - 1848) / (3166 - 1848), that being 1. *)
Lemma normalizer_binary64_exceeds_one :
  PrimFloat.ltb (item PrimFloat.zero Examples64.two_voxels [0; 0; 0])
                (item PrimFloat.zero Examples64.two_voxels [1; 0; 0]) = true /\
  preprocess_nifti binary64 (fun _ => Ok Examples64.two_voxels) "t1n.nii.gz"
  = Ok (mk_ndarray [2; 1; 1]
          [PrimFloat.zero; PrimFloat.next_up PrimFloat.one]) /\
  PrimFloat.ltb PrimFloat.one (PrimFloat.next_up PrimFloat.one) = true /\
  PrimFloat.div
    (PrimFloat.sub (item PrimFloat.zero Examples64.two_voxels [1; 0; 0])
                   (item PrimFloat.zero Examples64.two_voxels [0; 0; 0]))
    (PrimFloat.sub (item PrimFloat.zero Examples64.two_voxels [1; 0; 0])
                   (item PrimFloat.zero Examples64.two_voxels [0; 0; 0]))
  = PrimFloat.one.
Proof.
  split; [vm_compute; reflexivity|].
  split; [vm_compute; reflexivity|].
  split; vm_compute; reflexivity.
Qed.

(** Two voxels that differ by less than ten times the machine epsilon
    are not stretched to 0 and 1: the range is replaced by 1 and the
    voxels are only shifted by their minimum. *)
Example preprocess_nifti_near_constant :
  preprocess_nifti binary64 (fun _ => Ok Examples64.near_constant)
                   "t1n.nii.gz"
  = Ok (mk_ndarray [2; 1; 1]
          [PrimFloat.zero;
           PrimFloat.sub (item PrimFloat.zero Examples64.near_constant
                               [1; 0; 0])
                         PrimFloat.one]) /\
  PrimFloat.ltb
    (PrimFloat.sub (item PrimFloat.zero Examples64.near_constant [1; 0; 0])
                   PrimFloat.one)
    Finfo.ten_eps = true.
Proof. split; vm_compute; reflexivity. Qed.

(** The min-max transform of the small volume, computed in exact
    arithmetic: each last index has its own range. *)
Example preprocess_nifti_tiny :
  exists out,
    preprocess_nifti exactQ (fun _ => Ok Examples.tiny_volume) "t1n.nii.gz" = Ok out /\
    shape out = [2; 1; 2] /\
    map Qred (data out) = [0; 0; 1; 1]%Q.
Proof.
  eexists. split; [vm_compute; reflexivity|].
  split; reflexivity.
Qed.

(** C4, as stated, fails: on a ground truth of a single slice, all of its
    labels 0, the adapter raises instead of returning a label volume. *)
Lemma mask_argmax_single_slice_raises :
  shape Examples.single_slice_mask = [240; 240; 1] /\
  wf Examples.single_slice_mask /\
  (forall q, In q (data Examples.single_slice_mask) -> q = 0%Q) /\
  mask_argmax Examples.single_slice_mask = Raise AxisError /\
  ~ exists out, mask_argmax Examples.single_slice_mask = Ok out.
Proof.
  assert (Hz : forall q, In q (data Examples.single_slice_mask) -> q = 0%Q).
  { intros q Hq. apply (repeat_spec _ _ _ Hq). }
  assert (Hr : mask_argmax Examples.single_slice_mask = Raise AxisError).
  { apply (mask_argmax_single_slice _ 240 240); [reflexivity|].
    intros q Hq. rewrite (Hz q Hq). vm_compute. lia. }
  split; [reflexivity|]. split; [apply Examples.wf_zeros|].
  split; [exact Hz|]. split; [exact Hr|].
  intros (out & H). rewrite Hr in H. discriminate H.
Qed.

Lemma mask_argmax_relabels_witness :
  mask_argmax Examples.small_mask
  = Ok (reassign_4_to_3 (astype_uint8 Examples.small_mask)) /\
  shape (reassign_4_to_3 (astype_uint8 Examples.small_mask))
  = shape Examples.small_mask /\
  forall i j k, i < 1 -> j < 2 -> k < 2 ->
    let q := item 0%Q Examples.small_mask [i; j; k] in
    let v := item 0 (reassign_4_to_3 (astype_uint8 Examples.small_mask))
                  [i; j; k] in
    (Qeq q 4 -> v = 3) /\ (Qeq q 0 -> v = 0) /\
    (Qeq q 1 -> v = 1) /\ (Qeq q 2 -> v = 2) /\ v <= 3.
Proof.
  apply (mask_argmax_relabels Examples.small_mask 1 2 2).
  - reflexivity.
  - discriminate.
  - reflexivity.
  - intros q Hq. cbn in Hq.
    destruct Hq as [<-|[<-|[<-|[<-|[]]]]].
    + right. right. right. reflexivity.
    + right. left. reflexivity.
    + left. reflexivity.
    + right. right. left. reflexivity.
Defined.

Example mask_argmax_small :
  mask_argmax Examples.small_mask = Ok (mk_ndarray [1; 2; 2] [3; 1; 0; 2]).
Proof. vm_compute. reflexivity. Qed.

Lemma run_segmentation_rank_check_witness :
  snd (run_segmentation Examples.stub_model (Examples.zeros [2; 2; 2; 4]))
  = [ModelPredict (expand_dims0 (Examples.zeros [2; 2; 2; 4]))] /\
  run_segmentation Examples.stub_model (Examples.zeros [2; 2; 4])
  = (Ok None, [StError (UnexpectedInputShape [1; 2; 2; 4])]).
Proof.
  split.
  - apply (proj2 (proj2 (run_segmentation_rank_check Examples.stub_model
                           (Examples.zeros [2; 2; 2; 4])))).
    reflexivity.
  - apply (proj1 (proj1 (run_segmentation_rank_check Examples.stub_model
                           (Examples.zeros [2; 2; 4])))).
    discriminate.
Defined.

(** The archive without [t2w.nii.gz]: the error, and nothing else. *)
Lemma missing_input_file_witness :
  process_upload (Examples.load_with Examples.good_mask) Examples.stub_model
                 Examples.walk_without_t2w
  = (Ok tt, [StError MissingRequiredFiles]).
Proof.
  apply (proj1 (missing_input_file (Examples.load_with Examples.good_mask)
                  Examples.stub_model Examples.walk_without_t2w)).
  exists T2w. split; [cbn; auto 6|].
  intros (p & Hin & He). cbn in Hin.
  destruct Hin as [<-|[<-|[<-|[<-|[]]]]]; discriminate He.
Defined.

(** C8, as stated, fails: of two files with the T1n suffix the second one
    met is bound, not the first. *)
Lemma first_match_does_not_win :
  walk_files Examples.walk_with_duplicates
  = [(Examples.case_dir, "a-t1n.nii.gz"%string);
     (Examples.case_dir, "b-t1n.nii.gz"%string)] /\
  t1n_path (find_nifti_files Examples.walk_with_duplicates)
  = Some "/tmp/tmpab12cd/case/b-t1n.nii.gz"%string /\
  t1n_path (find_nifti_files Examples.walk_with_duplicates)
  <> Some (path_join Examples.case_dir "a-t1n.nii.gz").
Proof.
  split; [reflexivity|]. split; [reflexivity|]. discriminate.
Qed.

Lemma last_match_wins_witness :
  path_of T1n (find_nifti_files Examples.walk_with_duplicates)
  = Some (path_join Examples.case_dir "b-t1n.nii.gz").
Proof.
  apply (last_match_wins T1n Examples.walk_with_duplicates
           [(Examples.case_dir, "a-t1n.nii.gz"%string)] []
           Examples.case_dir "b-t1n.nii.gz").
  - reflexivity.
  - reflexivity.
  - intros p [].
Defined.

Lemma rank_checks_cannot_fail_witness :
  exists combined,
    combine_channels Examples.brats_volume Examples.brats_volume
                     Examples.brats_volume Examples.brats_volume
    = Ok combined /\
    ndim combined = 4 /\
    ndim (expand_dims0 combined) = 5 /\
    snd (run_segmentation Examples.stub_model combined)
    = [ModelPredict (expand_dims0 combined)].
Proof.
  apply (proj1 rank_checks_cannot_fail Examples.brats_volume
           Examples.brats_volume Examples.brats_volume Examples.brats_volume
           240 240 155 Examples.stub_model); reflexivity.
Defined.





(** * Further properties *)

(** ** The Normalizer on any volume *)

Lemma size_app (s t : list nat) : size (s ++ t) = size s * size t.
Proof.
  unfold size. induction s as [|n s IH]; simpl; [lia|].
  rewrite IH. ring.
Qed.

Lemma last_cons (sh : list nat) : forall n d, last (n :: sh) d = last sh n.
Proof.
  induction sh as [|a sh IH]; intros n d; [reflexivity|].
  change (last (n :: a :: sh) d) with (last (a :: sh) d).
  rewrite (IH a d), (IH a n). reflexivity.
Qed.

Lemma last_removelast (sh : list nat) (d : nat) :
  sh <> [] -> sh = removelast sh ++ [last sh d].
Proof. intros H. apply app_removelast_last. exact H. Qed.

(** What [preprocess_nifti] returns on a non-empty volume of any rank. *)
Lemma preprocess_nifti_any_rank (nib_load : string -> result (ndarray Q))
      (p : string) (image : ndarray Q) :
  nib_load p = Ok image ->
  shape image <> [] ->
  0 < size (shape image) ->
  let cols := last (shape image) 0 in
  let rows := size (removelast (shape image)) in
  exists out,
    preprocess_nifti exactQ nib_load p = Ok (mk_ndarray (shape image) out) /\
    length out = size (shape image) /\
    forall r k, r < rows -> k < cols ->
      let mn := Sklearn.list_min exactQ
                  (Sklearn.column exactQ rows cols k (data image)) in
      let mx := Sklearn.list_max exactQ
                  (Sklearn.column exactQ rows cols k (data image)) in
      nth (r * cols + k) out 0%Q
      = (nth (r * cols + k) (data image) 0
         * ((1 - 0) / Sklearn.handle_zeros_in_scale exactQ (mx - mn))
         + (0 - mn * ((1 - 0) / Sklearn.handle_zeros_in_scale exactQ (mx - mn))))%Q.
Proof.
  intros Hload Hne Hpos cols rows.
  assert (Hsplit : size (shape image) = rows * cols).
  { subst rows cols.
    rewrite (last_removelast (shape image) 0 Hne) at 1.
    rewrite size_app. cbn [size fold_right]. lia. }
  assert (Hc : 0 < cols) by nia.
  assert (Hr : 0 < rows) by nia.
  destruct (fit_transform_matrix rows cols (data image) Hr Hc)
    as (out & Hft & Hlen & Hout).
  exists out.
  split; [|split; [rewrite Hsplit; exact Hlen | exact Hout]].
  unfold preprocess_nifti. rewrite Hload. cbn [rbind].
  unfold shape_last.
  destruct (shape image) as [|n sh] eqn:Es; [congruence|].
  cbn [rbind].
  assert (Hlast : last sh n = cols)
    by (subst cols; symmetry; apply last_cons).
  rewrite Hlast.
  unfold reshape_rows. rewrite Es, Hsplit.
  destruct (Nat.eqb_spec cols 0) as [|_]; [lia|].
  rewrite Nat.Div0.mod_mul, Nat.div_mul by lia.
  cbn [Nat.eqb rbind]. rewrite Hft. cbn [rbind].
  unfold reshape. cbn [shape data]. rewrite Hsplit.
  replace (size [rows; cols]) with (rows * cols)
    by (cbn [size fold_right]; ring).
  rewrite Nat.eqb_refl. reflexivity.
Qed.

(** X2.  [preprocess_nifti] raises on a volume with an empty axis: the
    reshape cannot infer the row count when the last axis is empty, and the
    scaler refuses a matrix without rows.  An error of the loader is passed
    on unchanged. *)
Theorem preprocess_nifti_empty_volume :
  forall (F : Type) (ar : arith F)
         (nib_load : string -> result (ndarray F)) (file_path : string),
    (forall image X Y Z,
       nib_load file_path = Ok image ->
       shape image = [X; Y; Z] ->
       X = 0 \/ Y = 0 \/ Z = 0 ->
       preprocess_nifti ar nib_load file_path = Raise ValueError) /\
    (forall e,
       nib_load file_path = Raise e ->
       preprocess_nifti ar nib_load file_path = Raise e).
Proof.
  intros F ar nib_load file_path. split.
  - intros image X Y Z Hload Hs Hz.
    unfold preprocess_nifti. rewrite Hload. cbn [rbind].
    unfold shape_last. rewrite Hs. cbn [last rbind].
    unfold reshape_rows. rewrite Hs.
    destruct (Nat.eqb_spec Z 0) as [|HZ]; [reflexivity|].
    assert (Hsz : size [X; Y; Z] = 0).
    { cbn [size fold_right]. destruct Hz as [-> | [-> | ->]]; lia. }
    rewrite Hsz, Nat.Div0.mod_0_l, Nat.Div0.div_0_l.
    cbn [Nat.eqb rbind].
    unfold Sklearn.fit_transform, Sklearn.fit. cbn [shape Nat.eqb orb rbind].
    reflexivity.
  - intros e Hload. unfold preprocess_nifti. rewrite Hload. reflexivity.
Qed.

(** ** The Normalizer, one last index at a time *)

(** What [preprocess_nifti] returns on a volume with no empty axis, in any
    arithmetic. *)
Lemma preprocess_nifti_volume {F : Type} (ar : arith F)
      (nib_load : string -> result (ndarray F)) (p : string)
      (image : ndarray F) (X Y Z : nat) :
  nib_load p = Ok image ->
  shape image = [X; Y; Z] ->
  0 < X -> 0 < Y -> 0 < Z ->
  exists out,
    preprocess_nifti ar nib_load p = Ok (mk_ndarray [X; Y; Z] out) /\
    forall i j k, i < X -> j < Y -> k < Z ->
      let col := Sklearn.column ar (X * Y) Z k (data image) in
      let mn := Sklearn.list_min ar col in
      let mx := Sklearn.list_max ar col in
      let scale := div ar (sub ar (one ar) (zero ar))
                       (Sklearn.handle_zeros_in_scale ar (sub ar mx mn)) in
      item (zero ar) (mk_ndarray [X; Y; Z] out) [i; j; k]
      = add ar (mul ar (item (zero ar) image [i; j; k]) scale)
               (sub ar (zero ar) (mul ar mn scale)).
Proof.
  intros Hload Hs HX HY HZ.
  assert (Hrows : 0 < X * Y) by nia.
  assert (Hsize : size [X; Y; Z] = X * Y * Z)
    by (cbn [size fold_right]; ring).
  destruct (fit_transform_columns ar (X * Y) Z (data image) Hrows HZ)
    as (out & Hft & Hlen & Hout).
  exists out. split.
  - unfold preprocess_nifti. rewrite Hload. cbn [rbind].
    unfold shape_last. rewrite Hs. cbn [last rbind].
    unfold reshape_rows. rewrite Hs, Hsize.
    destruct (Nat.eqb_spec Z 0) as [|_]; [lia|].
    rewrite Nat.Div0.mod_mul, Nat.div_mul by lia.
    cbn [Nat.eqb rbind]. rewrite Hft. cbn [rbind].
    unfold reshape. cbn [shape data]. rewrite Hsize.
    replace (size [X * Y; Z]) with (X * Y * Z)
      by (cbn [size fold_right]; ring).
    rewrite Nat.eqb_refl. reflexivity.
  - intros i j k Hi Hj Hk. cbv zeta.
    unfold item at 1. cbn [shape data].
    replace (ravel [X; Y; Z] [i; j; k]) with ((i * Y + j) * Z + k)
      by (cbn [ravel size fold_right]; ring).
    rewrite Hout by nia. cbv zeta.
    replace (nth ((i * Y + j) * Z + k) (data image) (zero ar))
      with (item (zero ar) image [i; j; k])
      by (unfold item; rewrite Hs; f_equal;
          cbn [ravel size fold_right]; ring).
    reflexivity.
Qed.

(** Two volumes of one shape that agree on a last index have the same
    column there. *)
Lemma column_agree {F : Type} (ar : arith F) (image1 image2 : ndarray F)
      (X Y Z k : nat) :
  shape image1 = [X; Y; Z] -> shape image2 = [X; Y; Z] ->
  0 < Y -> k < Z ->
  (forall i j, i < X -> j < Y ->
     item (zero ar) image1 [i; j; k] = item (zero ar) image2 [i; j; k]) ->
  Sklearn.column ar (X * Y) Z k (data image1)
  = Sklearn.column ar (X * Y) Z k (data image2).
Proof.
  intros H1 H2 HY Hk Hag. unfold Sklearn.column.
  apply map_ext_in. intros r Hr. apply in_seq in Hr.
  assert (Hi : r / Y < X) by (apply Nat.Div0.div_lt_upper_bound; lia).
  assert (Hj : r mod Y < Y) by (apply Nat.mod_upper_bound; lia).
  specialize (Hag (r / Y) (r mod Y) Hi Hj).
  unfold item in Hag. rewrite H1, H2 in Hag.
  cbn [ravel size fold_right] in Hag.
  replace (r * Z + k)
    with (r / Y * (Y * (Z * 1)) + (r mod Y * (Z * 1) + (k * 1 + 0)));
    [exact Hag|].
  pose proof (Nat.div_mod_eq r Y). nia.
Qed.

(** X19.  The Normalizer treats every index of the last axis on its own:
    when two finite-valued binary64 volumes of one shape, with no empty
    axis, hold the same voxels at last index k, their normalised volumes
    hold the same voxels at last index k, whatever the two volumes hold
    at the other indices. *)
Theorem preprocess_nifti_slices_independent :
  forall (nib_load : string -> result (ndarray PrimFloat.float))
         (path1 path2 : string) (image1 image2 : ndarray PrimFloat.float)
         (X Y Z k : nat),
    nib_load path1 = Ok image1 -> nib_load path2 = Ok image2 ->
    shape image1 = [X; Y; Z] -> shape image2 = [X; Y; Z] ->
    0 < X -> 0 < Y -> k < Z ->
    finite_valued image1 -> finite_valued image2 ->
    (forall i j, i < X -> j < Y ->
       item PrimFloat.zero image1 [i; j; k]
       = item PrimFloat.zero image2 [i; j; k]) ->
    exists out1 out2,
      preprocess_nifti binary64 nib_load path1 = Ok out1 /\
      preprocess_nifti binary64 nib_load path2 = Ok out2 /\
      forall i j, i < X -> j < Y ->
        item PrimFloat.zero out1 [i; j; k]
        = item PrimFloat.zero out2 [i; j; k].
Proof.
  intros nib_load path1 path2 image1 image2 X Y Z k L1 L2 S1 S2 HX HY Hk
         _ _ Hag.
  destruct (preprocess_nifti_volume binary64 nib_load path1 image1 X Y Z
              L1 S1 HX HY ltac:(lia)) as (out1 & E1 & F1).
  destruct (preprocess_nifti_volume binary64 nib_load path2 image2 X Y Z
              L2 S2 HX HY ltac:(lia)) as (out2 & E2 & F2).
  exists (mk_ndarray [X; Y; Z] out1), (mk_ndarray [X; Y; Z] out2).
  split; [exact E1|]. split; [exact E2|].
  intros i j Hi Hj.
  change PrimFloat.zero with (zero binary64).
  rewrite (F1 i j k Hi Hj Hk), (F2 i j k Hi Hj Hk). cbv zeta.
  rewrite (column_agree binary64 image1 image2 X Y Z k S1 S2 HY Hk Hag).
  change (zero binary64) with PrimFloat.zero.
  rewrite (Hag i j Hi Hj). reflexivity.
Qed.

(** ** The Channel Combiner on any four arrays *)

Lemma shape_eqb_true (s t : list nat) : shape_eqb s t = true <-> s = t.
Proof.
  unfold shape_eqb. destruct (list_eq_dec Nat.eq_dec s t); split;
    congruence.
Qed.

Lemma length_getitem_shape_ranges (lo1 hi1 lo2 hi2 lo3 hi3 : nat)
      (sh : list nat) :
  3 <= length sh ->
  getitem_check [Range lo1 hi1; Range lo2 hi2; Range lo3 hi3] sh = true /\
  length (getitem_shape [Range lo1 hi1; Range lo2 hi2; Range lo3 hi3] sh)
  = length sh.
Proof.
  intros H. destruct sh as [|a [|b [|c sh]]]; simpl in H; try lia.
  split; reflexivity.
Qed.

Lemma combine_mismatch (t1n t1c t2f t2w : ndarray Q) :
  shape t1c <> shape t1n \/ shape t2f <> shape t1n
  \/ shape t2w <> shape t1n ->
  combine_channels t1n t1c t2f t2w = Raise ValueError.
Proof.
  intros H. unfold combine_channels, stack. cbn [forallb].
  destruct (shape_eqb (shape t1c) (shape t1n)) eqn:E1; [|reflexivity].
  destruct (shape_eqb (shape t2f) (shape t1n)) eqn:E2; [|reflexivity].
  destruct (shape_eqb (shape t2w) (shape t1n)) eqn:E3; [|reflexivity].
  apply shape_eqb_true in E1, E2, E3.
  destruct H as [H | [H | H]]; contradiction.
Qed.

Lemma combine_same_shape (t1n t1c t2f t2w : ndarray Q) :
  shape t1c = shape t1n -> shape t2f = shape t1n ->
  shape t2w = shape t1n ->
  (ndim t1n < 3 ->
   combine_channels t1n t1c t2f t2w = Raise AxisError) /\
  (3 <= ndim t1n ->
   exists combined,
     combine_channels t1n t1c t2f t2w = Ok combined /\
     ndim combined = S (ndim t1n)).
Proof.
  intros H2 H3 H4.
  unfold combine_channels, stack. cbn [forallb].
  rewrite H2, H3, H4, shape_eqb_refl. cbn [andb].
  split; intros Hn.
  - destruct (Nat.leb_spec 3 (ndim t1n)); [lia | reflexivity].
  - destruct (Nat.leb_spec 3 (ndim t1n)); [|lia].
    cbn [rbind]. unfold getitem. cbn [shape data].
    set (sh := firstn 3 (shape t1n) ++ length [t1n; t1c; t2f; t2w]
                 :: skipn 3 (shape t1n)).
    assert (Hlen : length sh = S (ndim t1n)).
    { subst sh. unfold ndim. rewrite length_app. cbn [length].
      rewrite length_firstn, length_skipn. unfold ndim in *. lia. }
    destruct (length_getitem_shape_ranges 56 184 56 184 13 141 sh
                ltac:(lia)) as [Hc Hl].
    rewrite Hc. eexists. split; [reflexivity|].
    unfold ndim at 1. cbn [shape]. rewrite Hl. exact Hlen.
Qed.

(** X3.  [combine_channels] fails in two ways only.  When one of the
    arrays has a shape other than that of the first, it raises the plain
    [ValueError] of the stacking step, whatever the rank.  When the shapes
    agree and there are fewer than three dimensions, it raises numpy's
    [AxisError].  As [AxisError] derives from [ValueError], every exception
    it raises is caught by [except ValueError]. *)
Theorem combine_channels_failures :
  forall t1n t1c t2f t2w : ndarray Q,
    ((shape t1c <> shape t1n \/ shape t2f <> shape t1n
      \/ shape t2w <> shape t1n) ->
     combine_channels t1n t1c t2f t2w = Raise ValueError) /\
    (forall e,
       combine_channels t1n t1c t2f t2w = Raise e ->
       isinstance e ValueError = true /\
       ((e = ValueError /\
         (shape t1c <> shape t1n \/ shape t2f <> shape t1n
          \/ shape t2w <> shape t1n)) \/
        (e = AxisError /\
         shape t1c = shape t1n /\ shape t2f = shape t1n /\
         shape t2w = shape t1n /\ ndim t1n < 3))).
Proof.
  intros t1n t1c t2f t2w. split; [apply combine_mismatch|].
  intros e He.
  destruct (list_eq_dec Nat.eq_dec (shape t1c) (shape t1n)) as [E1|E1];
    [|rewrite combine_mismatch in He by auto;
      injection He as <-; split; [reflexivity | left; auto]].
  destruct (list_eq_dec Nat.eq_dec (shape t2f) (shape t1n)) as [E2|E2];
    [|rewrite combine_mismatch in He by auto;
      injection He as <-; split; [reflexivity | left; auto]].
  destruct (list_eq_dec Nat.eq_dec (shape t2w) (shape t1n)) as [E3|E3];
    [|rewrite combine_mismatch in He by auto;
      injection He as <-; split; [reflexivity | left; auto]].
  destruct (combine_same_shape t1n t1c t2f t2w E1 E2 E3) as [Hlow Hhigh].
  destruct (Nat.lt_ge_cases (ndim t1n) 3) as [Hn|Hn].
  - rewrite (Hlow Hn) in He. injection He as <-.
    split; [reflexivity | right; auto].
  - destruct (Hhigh Hn) as (combined & Ec & _).
    rewrite Ec in He. discriminate He.
Qed.

(** X4.  On four arrays of one shape, [combine_channels] raises
    [AxisError] when they have fewer than three dimensions, and otherwise
    returns an array with one dimension more than they have: only
    three-dimensional volumes give the four dimensions the pipeline
    expects. *)
Theorem combine_channels_rank :
  forall (t1n t1c t2f t2w : ndarray Q),
    shape t1c = shape t1n -> shape t2f = shape t1n ->
    shape t2w = shape t1n ->
    (ndim t1n < 3 ->
     combine_channels t1n t1c t2f t2w = Raise AxisError) /\
    (3 <= ndim t1n ->
     exists combined,
       combine_channels t1n t1c t2f t2w = Ok combined /\
       ndim combined = S (ndim t1n)).
Proof. exact combine_same_shape. Qed.

(** X5.  On four well-formed volumes of one shape X x Y x Z of any extent,
    [combine_channels] never fails: the window is clamped to the volume, so
    the result has extents min(184,X) - min(56,X), min(184,Y) - min(56,Y),
    min(141,Z) - min(13,Z) and 4, it is well formed, its channel c at
    (i,j,k) is volume c at (56+i, 56+j, 13+k), and it is empty when the
    volume does not reach into the window. *)
Theorem combine_channels_clamped :
  forall (t1n t1c t2f t2w : ndarray Q) (X Y Z : nat),
    shape t1n = [X; Y; Z] -> shape t1c = [X; Y; Z] ->
    shape t2f = [X; Y; Z] -> shape t2w = [X; Y; Z] ->
    wf t1n -> wf t1c -> wf t2f -> wf t2w ->
    let X' := Nat.min 184 X - Nat.min 56 X in
    let Y' := Nat.min 184 Y - Nat.min 56 Y in
    let Z' := Nat.min 141 Z - Nat.min 13 Z in
    exists combined : ndarray Q,
      combine_channels t1n t1c t2f t2w = Ok combined /\
      shape combined = [X'; Y'; Z'; 4] /\
      wf combined /\
      (forall i j k, i < X' -> j < Y' -> k < Z' ->
         item 0%Q combined [i; j; k; 0] = item 0%Q t1n [56 + i; 56 + j; 13 + k] /\
         item 0%Q combined [i; j; k; 1] = item 0%Q t1c [56 + i; 56 + j; 13 + k] /\
         item 0%Q combined [i; j; k; 2] = item 0%Q t2f [56 + i; 56 + j; 13 + k] /\
         item 0%Q combined [i; j; k; 3] = item 0%Q t2w [56 + i; 56 + j; 13 + k]) /\
      (X <= 56 \/ Y <= 56 \/ Z <= 13 -> data combined = []).
Proof.
  intros t1n t1c t2f t2w X Y Z H1 H2 H3 H4 W1 W2 W3 W4 X' Y' Z'.
  unfold wf in W1, W2, W3, W4. rewrite H1 in W1. rewrite H2 in W2.
  rewrite H3 in W3. rewrite H4 in W4.
  unfold combine_channels, stack, ndim.
  cbn [forallb]. rewrite H1, H2, H3, H4, shape_eqb_refl.
  cbn [andb length Nat.leb firstn skipn app rbind].
  unfold getitem.
  cbn [shape data getitem_check getitem_shape].
  fold X' Y' Z'.
  set (arrs := [t1n; t1c; t2f; t2w]).
  set (S := flat_map _ _).
  assert (ES : S = flat_map (fun o => flat_map (fun b => block 1 o (data b)) arrs)
                            (seq 0 (size [X; Y; Z]))) by reflexivity.
  clearbody S.
  assert (Hlen : forall b, In b arrs -> size [X; Y; Z] <= length (data b)).
  { intros b [<-|[<-|[<-|[<-|[]]]]]; lia. }
  assert (HS : length S = size [X; Y; Z; 4]).
  { rewrite ES, (length_stack_last arrs (size [X; Y; Z]) Hlen).
    cbn [size fold_right arrs length]. lia. }
  assert (Hwf : length (getitem_data
                          [Range 56 184; Range 56 184; Range 13 141]
                          [X; Y; Z; 4] S)
                = size [X'; Y'; Z'; 4]).
  { rewrite (length_getitem_data
               [Range 56 184; Range 56 184; Range 13 141]
               [X; Y; Z; 4] S eq_refl HS).
    reflexivity. }
  eexists. split; [reflexivity|]. split; [reflexivity|].
  split; [exact Hwf|]. split.
  - intros i j k Hi Hj Hk.
    assert (HX : Nat.min 56 X = 56) by (subst X'; lia).
    assert (HY : Nat.min 56 Y = 56) by (subst Y'; lia).
    assert (HZ : Nat.min 13 Z = 13) by (subst Z'; lia).
    assert (Hsrc : in_bounds [X; Y; Z] [56 + i; 56 + j; 13 + k]).
    { subst X' Y' Z'.
      constructor; [lia|]. constructor; [lia|]. constructor; [lia|].
      constructor. }
    pose proof (ravel_lt _ _ Hsrc) as Ho.
    assert (Hitem : forall c, c < 4 ->
              nth (ravel [X'; Y'; Z'; 4] [i; j; k; c])
                  (getitem_data [Range 56 184; Range 56 184; Range 13 141]
                                [X; Y; Z; 4] S) 0%Q
              = nth (ravel [X; Y; Z] [56 + i; 56 + j; 13 + k])
                    (data (nth c arrs t1n)) 0%Q).
    { intros c Hc.
      assert (Hb : in_bounds
                     (getitem_shape [Range 56 184; Range 56 184; Range 13 141]
                                    [X; Y; Z; 4]) [i; j; k; c]).
      { cbn [getitem_shape]. fold X' Y' Z'.
        constructor; [lia|]. constructor; [lia|]. constructor; [lia|].
        constructor; [lia|]. constructor. }
      pose proof (nth_getitem_data 0%Q
                    [Range 56 184; Range 56 184; Range 13 141]
                    [X; Y; Z; 4] S [i; j; k; c] eq_refl HS Hb) as E.
      cbn [getitem_shape src_index] in E. fold X' Y' Z' in E.
      rewrite HX, HY, HZ in E.
      rewrite E. clear E.
      rewrite ES.
      rewrite <- (nth_stack_last arrs (size [X; Y; Z]) 0%Q t1n Hlen
                    (ravel [X; Y; Z] [56 + i; 56 + j; 13 + k]) c Ho Hc).
      f_equal. cbn [ravel size fold_right arrs length]. ring. }
    unfold item. cbn [shape data]. rewrite H1, H2, H3, H4.
    rewrite !Hitem by lia.
    repeat split; reflexivity.
  - intros Hsmall. cbn [data].
    apply length_zero_iff_nil. rewrite Hwf. cbn [size fold_right].
    subst X' Y' Z'. destruct Hsmall as [H|[H|H]].
    + replace (Nat.min 184 X - Nat.min 56 X) with 0 by lia. lia.
    + replace (Nat.min 184 Y - Nat.min 56 Y) with 0 by lia. lia.
    + replace (Nat.min 141 Z - Nat.min 13 Z) with 0 by lia. lia.
Qed.

(** ** The Inference Orchestrator: failures and decisive predictions *)

(** X6.  Once the rank check has passed, whatever goes wrong with the
    prediction ends [run_segmentation] with an exception after the one
    call of the model: the model's own error is passed on unchanged; an
    answer with fewer than five dimensions is an [AxisError]; an answer
    without classes is a [ValueError]; an answer without batch entries is
    an [IndexError]. *)
Theorem run_segmentation_failures :
  forall (mdl : model) (input_image : ndarray Q),
    ndim input_image = 4 ->
    let batched := expand_dims0 input_image in
    let run := run_segmentation mdl input_image in
    snd run = [ModelPredict batched] /\
    (forall e, mdl batched = Raise e -> fst run = Raise e) /\
    (forall prediction,
       mdl batched = Ok prediction ->
       (ndim prediction < 5 -> fst run = Raise AxisError) /\
       (5 <= ndim prediction -> nth 4 (shape prediction) 0 = 0 ->
        fst run = Raise ValueError) /\
       (5 <= ndim prediction -> nth 4 (shape prediction) 0 <> 0 ->
        nth 0 (shape prediction) 0 = 0 ->
        fst run = Raise IndexError)).
Proof.
  intros mdl input_image Hin batched run.
  assert (H5 : ndim (expand_dims0 input_image) = 5)
    by (unfold ndim, expand_dims0 in *; simpl; lia).
  split; [apply run_segmentation_log; exact H5|].
  subst run batched. unfold run_segmentation. rewrite H5.
  cbn [Nat.eqb negb]. split.
  - intros e He. rewrite He. reflexivity.
  - intros prediction Hp. rewrite Hp.
    cbn [bind emit lift ret fst snd app].
    unfold argmax. split; [|split].
    + intros Hn. destruct (Nat.ltb_spec 4 (ndim prediction)); [lia|].
      reflexivity.
    + intros Hn Hk. destruct (Nat.ltb_spec 4 (ndim prediction)); [|lia].
      rewrite Hk. reflexivity.
    + intros Hn Hk Hb. destruct (Nat.ltb_spec 4 (ndim prediction)); [|lia].
      destruct (Nat.eqb_spec (nth 4 (shape prediction) 0) 0); [contradiction|].
      cbn [bind lift fst]. unfold getitem. cbn [shape].
      unfold ndim in Hn.
      destruct (shape prediction) as [|b [|x [|y [|z [|k rest]]]]];
        simpl in Hn; try lia.
      cbn [nth] in Hb. subst b.
      cbn [firstn skipn app getitem_check Nat.ltb Nat.leb andb].
      reflexivity.
Qed.

(** The label volume as a function of the prediction. *)
Lemma run_segmentation_labels (mdl : model)
      (input_image prediction : ndarray Q) (B X Y Z K : nat) :
  ndim input_image = 4 ->
  mdl (expand_dims0 input_image) = Ok prediction ->
  shape prediction = [S B; X; Y; Z; S K] ->
  exists labels : ndarray nat,
    fst (run_segmentation mdl input_image) = Ok (Some labels) /\
    shape labels = [X; Y; Z] /\
    wf labels /\
    forall x y z, x < X -> y < Y -> z < Z ->
      item 0 labels [x; y; z]
      = argmax_list (map (fun c => item 0%Q prediction [0; x; y; z; c])
                         (seq 0 (S K))).
Proof.
  intros Hin Hp Hs.
  unfold run_segmentation.
  replace (ndim (expand_dims0 input_image)) with 5
    by (unfold ndim, expand_dims0 in *; simpl; lia).
  cbn [Nat.eqb negb bind emit lift ret fst app].
  rewrite Hp.
  unfold argmax, ndim. rewrite Hs.
  cbn [length Nat.ltb Nat.leb nth Nat.eqb firstn skipn app bind lift ret fst].
  unfold getitem.
  cbn [shape data getitem_check Nat.ltb Nat.leb andb bind lift ret fst].
  set (D := flat_map _ _).
  assert (HD : length D = size [S B; X; Y; Z]).
  { subst D. rewrite length_argmax_data. cbn [size fold_right]. lia. }
  eexists. split; [reflexivity|]. split; [reflexivity|]. split.
  - unfold wf. cbn [shape data].
    rewrite (length_getitem_data [At 0; All; All; All] [S B; X; Y; Z] D
               eq_refl HD).
    reflexivity.
  - intros x y z Hx Hy Hz.
    assert (Hb : in_bounds [X; Y; Z] [x; y; z]).
    { constructor; [exact Hx|]. constructor; [exact Hy|].
      constructor; [exact Hz|]. constructor. }
    unfold item. cbn [shape data getitem_shape]. rewrite Hs.
    pose proof (nth_getitem_data 0 [At 0; All; All; All] [S B; X; Y; Z] D
                  [x; y; z] eq_refl HD Hb) as E.
    cbn [getitem_shape src_index] in E. rewrite E. clear E.
    set (o := ravel [S B; X; Y; Z] [0; x; y; z]).
    assert (Ho : o < size [S B; X; Y; Z]).
    { apply ravel_lt. constructor; [lia | exact Hb]. }
    assert (HDo : nth o D 0
                  = argmax_list (lane 0%Q (S K) 1 o 0 (data prediction))).
    { subst D. replace o with (o * 1 + 0) at 1 by lia.
      apply nth_argmax_data; [|lia].
      cbn [size fold_right] in Ho |- *. lia. }
    rewrite HDo. f_equal. unfold lane.
    apply map_ext. intros c. f_equal.
    subst o. cbn [ravel size fold_right]. ring.
Qed.

Lemma first_max_unique (l : list Q) (r c : nat) :
  first_max l r -> c < length l ->
  (forall c', c' < length l -> c' <> c -> Qlt (nth c' l 0%Q) (nth c l 0%Q)) ->
  r = c.
Proof.
  intros (Hr & Hmax & _) Hc Hdom.
  destruct (Nat.eq_dec r c) as [E|E]; [exact E|].
  exfalso. apply (Qlt_irrefl (nth c l 0%Q)).
  apply Qle_lt_trans with (nth r l 0%Q); [apply Hmax; exact Hc|].
  apply Hdom; assumption.
Qed.

(** X7.  Where at every voxel one class has a strictly larger probability
    than every other class, the label volume [run_segmentation] returns is
    exactly that class at every voxel; the volume is well formed. *)
Theorem run_segmentation_decisive :
  forall (mdl : model) (input_image prediction : ndarray Q)
         (B X Y Z K : nat) (winner : nat -> nat -> nat -> nat),
    ndim input_image = 4 ->
    mdl (expand_dims0 input_image) = Ok prediction ->
    shape prediction = [S B; X; Y; Z; S K] ->
    (forall x y z, x < X -> y < Y -> z < Z ->
       winner x y z < S K /\
       forall c, c < S K -> c <> winner x y z ->
         Qlt (item 0%Q prediction [0; x; y; z; c])
             (item 0%Q prediction [0; x; y; z; winner x y z])) ->
    exists labels : ndarray nat,
      fst (run_segmentation mdl input_image) = Ok (Some labels) /\
      shape labels = [X; Y; Z] /\
      wf labels /\
      forall x y z, x < X -> y < Y -> z < Z ->
        item 0 labels [x; y; z] = winner x y z.
Proof.
  intros mdl input_image prediction B X Y Z K winner Hin Hp Hs Hwin.
  destruct (run_segmentation_labels mdl input_image prediction B X Y Z K
              Hin Hp Hs) as (labels & Hrun & Hsh & Hwf & Hlab).
  exists labels. split; [exact Hrun|]. split; [exact Hsh|].
  split; [exact Hwf|].
  intros x y z Hx Hy Hz. rewrite (Hlab x y z Hx Hy Hz).
  destruct (Hwin x y z Hx Hy Hz) as [Hw Hdom].
  set (l := map (fun c => item 0%Q prediction [0; x; y; z; c]) (seq 0 (S K))).
  assert (Hlen : length l = S K)
    by (unfold l; rewrite length_map, length_seq; reflexivity).
  assert (Hnth : forall c, c < S K ->
            nth c l 0%Q = item 0%Q prediction [0; x; y; z; c]).
  { intros c Hc. unfold l.
    apply (nth_map_seq (fun c => item 0%Q prediction [0; x; y; z; c])).
    exact Hc. }
  apply (first_max_unique l).
  - apply argmax_list_spec. intros E. rewrite E in Hlen. discriminate.
  - rewrite Hlen. exact Hw.
  - intros c' Hc' Hne. rewrite Hlen in Hc'.
    rewrite (Hnth c' Hc'), (Hnth _ Hw). apply Hdom; assumption.
Qed.

(** ** The scan of the archive *)

Lemma substring_all (s : string) : substring 0 (String.length s) s = s.
Proof. induction s as [|c s IH]; cbn; [reflexivity | rewrite IH; reflexivity]. Qed.

Lemma substring_skip_prefix (p s : string) (m : nat) :
  substring (String.length p) m (p ++ s) = substring 0 m s.
Proof. induction p as [|c p IH]; cbn; [reflexivity | exact IH]. Qed.

Lemma string_length_append (p s : string) :
  String.length (p ++ s) = String.length p + String.length s.
Proof. induction p as [|c p IH]; cbn; [reflexivity | rewrite IH; reflexivity]. Qed.

Lemma substring_split (s : string) : forall k,
  k <= String.length s ->
  s = (substring 0 k s ++ substring k (String.length s - k) s)%string.
Proof.
  induction s as [|c s IH]; intros k Hk.
  - cbn in Hk. assert (k = 0) as -> by lia. reflexivity.
  - destruct k as [|k].
    + cbn [substring append]. rewrite Nat.sub_0_r.
      symmetry. apply (substring_all (String c s)).
    + cbn [String.length] in *. cbn [substring append Nat.sub].
      f_equal. apply IH. lia.
Qed.

(** [endswith] holds of exactly the names made of something followed by
    the suffix. *)
Lemma endswith_iff (s suffix : string) :
  endswith s suffix = true <-> exists p, s = (p ++ suffix)%string.
Proof.
  unfold endswith. split.
  - intros H. apply andb_prop in H. destruct H as [Hle Heq].
    apply Nat.leb_le in Hle. apply String.eqb_eq in Heq.
    exists (substring 0 (String.length s - String.length suffix) s).
    remember (String.length suffix) as m eqn:Em.
    rewrite <- Heq.
    replace (substring (String.length s - m) m s)
      with (substring (String.length s - m)
                      (String.length s - (String.length s - m)) s)
      by (f_equal; lia).
    apply substring_split. lia.
  - intros (p & ->). rewrite string_length_append.
    apply andb_true_intro. split; [apply Nat.leb_le; lia|].
    apply String.eqb_eq.
    replace (String.length p + String.length suffix - String.length suffix)
      with (String.length p) by lia.
    rewrite substring_skip_prefix. apply substring_all.
Qed.

Lemma in_walk_files (walk : list walk_entry) (root file : string) :
  In (root, file) (walk_files walk) <->
  exists files, In (root, files) walk /\ In file files.
Proof.
  unfold walk_files. rewrite in_flat_map. split.
  - intros ([r files] & Hin & Hf). cbn [fst snd] in Hf.
    apply in_map_iff in Hf. destruct Hf as (f & E & Hf).
    injection E as <- <-. exists files. auto.
  - intros (files & Hin & Hf). exists (root, files). split; [exact Hin|].
    cbn [fst snd]. apply in_map_iff. exists file. auto.
Qed.

(** Whatever the scan binds a modality to is the non-empty joined path of
    a file of the walk that carries the modality's suffix. *)
Lemma find_nifti_files_sound (m : modality) (walk : list walk_entry)
      (p : string) :
  path_of m (find_nifti_files walk) = Some p ->
  p <> ""%string /\
  exists root files pre,
    In (root, files) walk /\ In (pre ++ suffix_of m)%string files /\
    p = path_join root (pre ++ suffix_of m).
Proof.
  intros Hp.
  destruct (existsb (fun q => endswith (snd q) (suffix_of m))
                    (walk_files walk)) eqn:E.
  - apply existsb_exists in E.
    destruct (last_match_split (fun q => endswith (snd q) (suffix_of m))
                (walk_files walk) E)
      as (l1 & [root file] & l2 & Hw & Hm & Hno).
    cbn [snd] in Hm.
    rewrite find_nifti_files_scan, Hw in Hp.
    rewrite (scan_last_match m l1 l2 root file _ Hm Hno) in Hp.
    injection Hp as <-.
    assert (Hin : In (root, file) (walk_files walk))
      by (rewrite Hw; apply in_or_app; right; left; reflexivity).
    apply in_walk_files in Hin. destruct Hin as (files & Hd & Hf).
    pose proof (truthy_bound m root file Hm) as Ht. cbn [truthy] in Ht.
    apply negb_true_iff, String.eqb_neq in Ht.
    split; [exact Ht|].
    apply endswith_iff in Hm. destruct Hm as (pre & ->).
    exists root, files, pre. auto.
  - rewrite no_file_unbound in Hp; [discriminate|].
    intros (q & Hq & Hm).
    assert (existsb (fun q => endswith (snd q) (suffix_of m))
                    (walk_files walk) = true)
      by (apply existsb_exists; eauto).
    congruence.
Qed.

(** X8.  After the scan, a modality is bound exactly when some directory
    of the walk lists a file whose name is any text followed by the
    modality's suffix; and what it is bound to is always the non-empty
    joined path of such a file of the walk. *)
Theorem find_nifti_files_bound :
  forall (m : modality) (walk : list walk_entry),
    (path_of m (find_nifti_files walk) <> None <->
     exists root files pre,
       In (root, files) walk /\ In (pre ++ suffix_of m)%string files) /\
    (forall p,
       path_of m (find_nifti_files walk) = Some p ->
       p <> ""%string /\
       exists root files pre,
         In (root, files) walk /\ In (pre ++ suffix_of m)%string files /\
         p = path_join root (pre ++ suffix_of m)).
Proof.
  intros m walk.
  split; [|apply find_nifti_files_sound].
  split.
  - intros Hne.
    destruct (path_of m (find_nifti_files walk)) as [p|] eqn:Ep;
      [|congruence].
    destruct (find_nifti_files_sound m walk p Ep)
      as (_ & root & files & pre & H1 & H2 & _).
    exists root, files, pre. auto.
  - intros (root & files & pre & Hd & Hf) Hnone.
    assert (Hh : has_file walk m).
    { exists (root, (pre ++ suffix_of m)%string). split.
      - apply in_walk_files. exists files. auto.
      - apply endswith_iff. exists pre. reflexivity. }
    apply has_file_truthy in Hh. rewrite Hnone in Hh. discriminate Hh.
Qed.

Lemma scan_depends_on_binding (m : modality) (l : list (string * string)) :
  forall st1 st2,
    path_of m st1 = path_of m st2 ->
    path_of m (fold_left scan_step l st1)
    = path_of m (fold_left scan_step l st2).
Proof.
  induction l as [|p l IH]; intros st1 st2 H; [exact H|].
  cbn [fold_left]. apply IH. unfold scan_step.
  rewrite !visit_spec, H. reflexivity.
Qed.

Lemma scan_filter (m : modality) (l : list (string * string)) :
  forall st,
    path_of m (fold_left scan_step l st)
    = path_of m (fold_left scan_step
                   (filter (fun p => endswith (snd p) (suffix_of m)) l) st).
Proof.
  induction l as [|p l IH]; intros st; [reflexivity|].
  cbn [fold_left filter].
  destruct (endswith (snd p) (suffix_of m)) eqn:E.
  - cbn [fold_left]. apply IH.
  - rewrite IH. apply scan_depends_on_binding.
    unfold scan_step. rewrite visit_spec, E. reflexivity.
Qed.

(** X9.  What a modality is bound to depends only on the files that carry
    its suffix, in the order of the walk: two archives that agree on those
    bind it alike, whatever other files, of other modalities or of none,
    they hold. *)
Theorem binding_ignores_other_files :
  forall (m : modality) (walk1 walk2 : list walk_entry),
    filter (fun p => endswith (snd p) (suffix_of m)) (walk_files walk1)
    = filter (fun p => endswith (snd p) (suffix_of m)) (walk_files walk2) ->
    path_of m (find_nifti_files walk1) = path_of m (find_nifti_files walk2).
Proof.
  intros m walk1 walk2 H.
  rewrite !find_nifti_files_scan.
  rewrite (scan_filter m (walk_files walk1)), (scan_filter m (walk_files walk2)).
  rewrite H. reflexivity.
Qed.

(** ** The Ground-Truth Adapter on any labels *)

Lemma relabel_nat (q : Q) (n : nat) :
  n <= 255 -> Qeq q (inject_Z (Z.of_nat n)) ->
  relabel q = if n =? 4 then 3 else n.
Proof.
  intros Hn Hq. unfold relabel.
  rewrite (Qtruncate_inject_Z q (Z.of_nat n)) by (lia || exact Hq).
  rewrite Z.mod_small by lia. rewrite Nat2Z.id. reflexivity.
Qed.

Lemma mask_argmax_raises_index (mask : ndarray Q) (q : Q) :
  In q (data mask) -> 4 <= relabel q ->
  mask_argmax mask = Raise IndexError.
Proof.
  intros Hin Hq. unfold mask_argmax, Keras.to_categorical.
  cbn [reassign_4_to_3 astype_uint8 data shape Nat.eqb andb].
  rewrite map_map.
  change (map _ (data mask)) with (map relabel (data mask)).
  assert (Hall : forallb (fun v => v <? 4) (map relabel (data mask)) = false).
  { destruct (forallb (fun v => v <? 4) (map relabel (data mask))) eqn:E;
      [|reflexivity].
    rewrite forallb_forall in E.
    specialize (E (relabel q) (in_map relabel _ _ Hin)).
    apply Nat.ltb_lt in E. lia. }
  rewrite Hall. reflexivity.
Qed.

Lemma relabel_in_scheme (q : Q) :
  (exists n, n <= 4 /\ Qeq q (inject_Z (Z.of_nat n))) -> relabel q < 4.
Proof.
  intros (n & Hn & E).
  rewrite (relabel_nat q n) by (lia || exact E).
  destruct (Nat.eqb_spec n 4); lia.
Qed.

(** The adapter succeeds on labels 0 to 4. *)
Lemma mask_argmax_ok (mask : ndarray Q) (X Y Z : nat) :
  shape mask = [X; Y; Z] -> Z <> 1 -> wf mask ->
  (forall q, In q (data mask) ->
     exists n, n <= 4 /\ Qeq q (inject_Z (Z.of_nat n))) ->
  mask_argmax mask = Ok (reassign_4_to_3 (astype_uint8 mask)).
Proof.
  intros Hs HZ Hwf Hvals. unfold mask_argmax.
  apply (argmax_to_categorical _ X Y Z); [exact Hs | exact HZ | |].
  - unfold wf. rewrite data_relabel, length_map. exact Hwf.
  - intros v Hv. rewrite data_relabel in Hv.
    apply in_map_iff in Hv. destruct Hv as (q & <- & Hq).
    apply relabel_in_scheme, Hvals, Hq.
Qed.

(** X10.  On a well-formed annotation volume of shape X x Y x Z, Z not 1:
    when every voxel holds one of the labels 0 to 4 the adapter returns the
    volume of the same shape in which 0, 1, 2, 3 are kept and 4 has become
    3, so that labels 3 and 4 can no longer be told apart; when some voxel
    holds a label from 5 to 255 the adapter raises [IndexError]. *)
Theorem mask_argmax_outcome :
  forall (mask : ndarray Q) (X Y Z : nat),
    shape mask = [X; Y; Z] ->
    Z <> 1 ->
    wf mask ->
    ((forall q, In q (data mask) ->
        exists n, n <= 4 /\ Qeq q (inject_Z (Z.of_nat n))) ->
     exists out,
       mask_argmax mask = Ok out /\
       shape out = [X; Y; Z] /\
       forall i j k n, i < X -> j < Y -> k < Z ->
         Qeq (item 0%Q mask [i; j; k]) (inject_Z (Z.of_nat n)) ->
         n <= 4 ->
         item 0 out [i; j; k] = Nat.min n 3) /\
    ((exists q n, In q (data mask) /\ 5 <= n <= 255 /\
                  Qeq q (inject_Z (Z.of_nat n))) ->
     mask_argmax mask = Raise IndexError).
Proof.
  intros mask X Y Z Hs HZ Hwf. split.
  - intros Hvals.
    exists (reassign_4_to_3 (astype_uint8 mask)).
    split; [|split; [exact Hs|]].
    + apply (mask_argmax_ok mask X Y Z); assumption.
    + intros i j k n Hi Hj Hk E Hn.
      assert (Hr : ravel [X; Y; Z] [i; j; k] < length (data mask)).
      { unfold wf in Hwf. rewrite Hwf, Hs. apply ravel_lt.
        constructor; [exact Hi|]. constructor; [exact Hj|].
        constructor; [exact Hk|]. constructor. }
      unfold item. rewrite data_relabel.
      change (shape (reassign_4_to_3 (astype_uint8 mask))) with (shape mask).
      rewrite Hs.
      rewrite (nth_indep _ 0 (relabel 0%Q)) by (rewrite length_map; exact Hr).
      rewrite map_nth.
      unfold item in E. rewrite Hs in E.
      rewrite (relabel_nat _ n) by (lia || exact E).
      destruct (Nat.eqb_spec n 4); lia.
  - intros (q & n & Hin & Hn & E).
    apply (mask_argmax_raises_index mask q Hin).
    rewrite (relabel_nat q n) by (lia || exact E).
    destruct (Nat.eqb_spec n 4); lia.
Qed.

(** ** Whole runs *)

Lemma file_events_bind {A B} (m : M A) (f : A -> M B) :
  file_events (bind m f)
  = file_events m ++ match fst m with
                     | Ok a => file_events (f a)
                     | Raise _ => []
                     end.
Proof. apply filter_bind. Qed.

Lemma predictions_bind {A B} (m : M A) (f : A -> M B) :
  predictions (bind m f)
  = predictions m ++ match fst m with
                     | Ok a => predictions (f a)
                     | Raise _ => []
                     end.
Proof. apply filter_bind. Qed.

Lemma tidy_bind {A} (m : M A) (f : A -> M unit) :
  file_events m = [] -> predictions m = [] ->
  (forall a, fst m = Ok a -> tidy (f a)) ->
  tidy (bind m f).
Proof.
  intros Hf Hp Hk. unfold tidy.
  rewrite file_events_bind, predictions_bind, fst_bind, snd_bind, Hf, Hp.
  cbn [app].
  destruct (fst m) as [a|e].
  - destruct (Hk a eq_refl) as [H | (H1 & H2 & s & log & H3 & H4)].
    + left. exact H.
    + right. split; [exact H1|]. split; [exact H2|].
      exists s, (snd m ++ log). split.
      * rewrite H3, app_assoc. reflexivity.
      * rewrite filter_app, H4, app_nil_r. exact Hf.
  - left. cbn [length]. split; [reflexivity | lia].
Qed.

Lemma tidy_quiet (m : M unit) :
  file_events m = [] -> predictions m = [] -> tidy m.
Proof. intros Hf Hp. left. rewrite Hp. cbn [length]. split; [exact Hf | lia]. Qed.

(** After the segmentation: no call of the model, and the file is touched
    only by a delivery that ends a normal run on an actual prediction. *)
Lemma present_results_delivery (nib_load : string -> result (ndarray Q))
      (combined : ndarray Q) (sr : option (ndarray nat))
      (mpath : option string) :
  let run := present_results nib_load combined sr mpath in
  predictions run = [] /\
  (file_events run = [] \/
   (fst run = Ok tt /\
    exists s log, sr = Some s /\ snd run = log ++ delivery s /\
                  filter is_file_event log = [])).
Proof.
  cbv zeta. split; [apply present_results_packages|].
  assert (Hgt : file_events (load_ground_truth nib_load mpath) = []).
  { apply filter_none. unfold load_ground_truth. log_steps. }
  assert (Hplot : forall am,
            file_events (plot_results combined sr mpath am) = []).
  { intros am. apply filter_none. unfold plot_results, plot_slice.
    log_steps. }
  unfold present_results.
  rewrite !file_events_bind, !fst_bind, !snd_bind.
  cbn [emit fst snd file_events filter is_file_event app].
  fold (file_events (load_ground_truth nib_load mpath)). rewrite Hgt.
  cbn [app].
  destruct (fst (load_ground_truth nib_load mpath)) as [am|e]; [|auto].
  rewrite file_events_bind, fst_bind, snd_bind, Hplot. cbn [app].
  destruct (fst (plot_results combined sr mpath am)) as [[]|e]; [|auto].
  destruct sr as [s|]; [|left; reflexivity].
  right. split; [reflexivity|].
  exists s, (StWrite SegmentationCompleted
             :: snd (load_ground_truth nib_load mpath)
             ++ snd (plot_results combined (Some s) mpath am)).
  split; [reflexivity|]. split.
  - cbn [save_result has_attr lift bind emit ret fst snd app delivery].
    rewrite <- !app_assoc. reflexivity.
  - cbn [filter is_file_event]. rewrite filter_app.
    fold (file_events (load_ground_truth nib_load mpath)).
    fold (file_events (plot_results combined (Some s) mpath am)).
    rewrite Hgt, Hplot. reflexivity.
Qed.

Lemma run_segmentation_none (mdl : model) (c : ndarray Q) :
  fst (run_segmentation mdl c) = Ok None ->
  snd (run_segmentation mdl c)
  = [StError (UnexpectedInputShape (shape (expand_dims0 c)))].
Proof.
  intros H.
  destruct (Nat.eq_dec (ndim (expand_dims0 c)) 5) as [E|E].
  - exfalso. revert H. unfold run_segmentation. rewrite E.
    cbn [Nat.eqb negb].
    rewrite !fst_bind. cbn [emit lift fst].
    destruct (mdl (expand_dims0 c)) as [p|e]; [|discriminate].
    rewrite !fst_bind. cbn [lift fst].
    destruct (argmax 4 p) as [am|e]; [|discriminate].
    rewrite !fst_bind. cbn [lift fst].
    destruct (getitem [At 0; All; All; All] am); discriminate.
  - rewrite (run_segmentation_rejects mdl c E). reflexivity.
Qed.

Lemma tidy_segmentation (nib_load : string -> result (ndarray Q))
      (mdl : model) (c : ndarray Q) (mpath : option string) :
  tidy (bind (run_segmentation mdl c)
             (fun sr => present_results nib_load c sr mpath)).
Proof.
  unfold tidy.
  rewrite file_events_bind, predictions_bind, fst_bind, snd_bind.
  assert (Hq : file_events (run_segmentation mdl c) = []).
  { unfold file_events.
    destruct (run_segmentation_events mdl c) as [-> | ->]; reflexivity. }
  assert (Hp : length (predictions (run_segmentation mdl c)) <= 1).
  { unfold predictions.
    destruct (run_segmentation_events mdl c) as [-> | ->]; cbn; lia. }
  rewrite Hq. cbn [app].
  destruct (fst (run_segmentation mdl c)) as [sr|e] eqn:Efst.
  - destruct (present_results_delivery nib_load c sr mpath)
      as (Hpred & [Hnone | (Hok & s & log & -> & Hsnd & Hlog)]).
    + left. rewrite Hpred, app_nil_r. auto.
    + right. split; [exact Hok|]. rewrite Hpred, app_nil_r.
      assert (Hsnd1 : snd (run_segmentation mdl c)
                      = [ModelPredict (expand_dims0 c)]).
      { destruct (run_segmentation_events mdl c) as [E | E]; [exact E|].
        exfalso.
        destruct (Nat.eq_dec (ndim (expand_dims0 c)) 5) as [E5|E5].
        - rewrite (run_segmentation_log mdl c E5) in E. discriminate E.
        - rewrite (run_segmentation_rejects mdl c E5) in Efst.
          discriminate Efst. }
      split; [unfold predictions; rewrite Hsnd1; reflexivity|].
      exists s, (snd (run_segmentation mdl c) ++ log). split.
      * rewrite Hsnd, app_assoc. reflexivity.
      * rewrite filter_app, Hlog, app_nil_r. exact Hq.
  - left. rewrite app_nil_r. auto.
Qed.

(** X11.  In every run of the pipeline, on any archive, any files and any
    model, the model is asked at most once; and the result file is either
    never touched, or the run ends normally, the model was asked exactly
    once, and the log ends with the file being saved, offered for download
    and removed, nothing having touched it before. *)
Theorem result_file_lifecycle :
  forall (nib_load : string -> result (ndarray Q)) (mdl : model)
         (walk : list walk_entry),
    let run := process_upload nib_load mdl walk in
    length (predictions run) <= 1 /\
    (file_events run = [] \/
     (fst run = Ok tt /\ length (predictions run) = 1 /\
      exists (s : ndarray nat) (log : list event),
        snd run = log ++ delivery s /\ filter is_file_event log = [])).
Proof.
  intros nib_load mdl walk run.
  assert (Ht : tidy run).
  { subst run. unfold process_upload.
    destruct (truthy _ && truthy _ && truthy _ && truthy _);
      [| apply tidy_quiet; reflexivity].
    apply tidy_bind; [reflexivity | reflexivity | intros t1n _].
    apply tidy_bind; [reflexivity | reflexivity | intros t1c _].
    apply tidy_bind; [reflexivity | reflexivity | intros t2f _].
    apply tidy_bind; [reflexivity | reflexivity | intros t2w _].
    apply tidy_bind; [reflexivity | reflexivity | intros combined _].
    apply tidy_bind; [reflexivity | reflexivity | intros _ _].
    destruct (negb (ndim combined =? 4));
      [apply tidy_quiet; reflexivity|].
    apply tidy_bind; [reflexivity | reflexivity | intros _ _].
    apply tidy_segmentation. }
  destruct Ht as [(H1 & H2) | (H1 & H2 & H3)].
  - split; [exact H2 | left; exact H1].
  - split; [lia | right; auto].
Qed.

(** ** Whole runs, step by step *)

Lemma size_pos (sh : list nat) : Forall (lt 0) sh -> 0 < size sh.
Proof.
  unfold size. induction 1 as [|n sh Hn _ IH]; cbn [fold_right]; [lia|].
  apply Nat.mul_pos_pos; assumption.
Qed.

Lemma all_bound_truthy (walk : list walk_entry) :
  (forall m, In m required -> path_of m (find_nifti_files walk) <> None) ->
  truthy (t1n_path (find_nifti_files walk))
  && truthy (t1c_path (find_nifti_files walk))
  && truthy (t2f_path (find_nifti_files walk))
  && truthy (t2w_path (find_nifti_files walk)) = true.
Proof.
  intros H.
  assert (Ht : forall m, In m required ->
                 truthy (path_of m (find_nifti_files walk)) = true).
  { intros m Hm. specialize (H m Hm).
    destruct (path_of m (find_nifti_files walk)) as [p|] eqn:E;
      [|congruence].
    destruct (find_nifti_files_sound m walk p E) as [Hne _].
    cbn [truthy]. apply String.eqb_neq in Hne. rewrite Hne. reflexivity. }
  pose proof (Ht T1n ltac:(cbn; auto)) as H1.
  pose proof (Ht T1c ltac:(cbn; auto)) as H2.
  pose proof (Ht T2f ltac:(cbn; auto)) as H3.
  pose proof (Ht T2w ltac:(cbn; auto 6)) as H4.
  cbn [path_of] in H1, H2, H3, H4. rewrite H1, H2, H3, H4. reflexivity.
Qed.

(** Once the four modalities are bound, the run is the combination of the
    four channels followed by the display of its shape, the rank check,
    the segmentation and the presentation. *)
Lemma process_upload_combined
      (nib_load : string -> result (ndarray Q)) (mdl : model)
      (walk : list walk_entry) :
  (forall m, In m required -> path_of m (find_nifti_files walk) <> None) ->
  process_upload nib_load mdl walk
  = bind (lift (combined_input nib_load walk)) (fun combined_image =>
    bind (emit (StWrite (ShapeOfCombinedImage (shape combined_image))))
      (fun _ =>
       if negb (ndim combined_image =? 4) then
         emit (StError (UnexpectedCombinedShape (shape combined_image)))
       else
         bind (emit (StWrite RunningSegmentation)) (fun _ =>
         bind (run_segmentation mdl combined_image) (fun sr =>
         present_results nib_load combined_image sr
           (mask_path (find_nifti_files walk)))))).
Proof.
  intros H. unfold process_upload. rewrite (all_bound_truthy walk H).
  unfold combined_input, normalised_channel. cbn [path_of].
  generalize (rbind (str_arg (t1n_path (find_nifti_files walk)))
                    (preprocess_nifti exactQ nib_load)).
  generalize (rbind (str_arg (t1c_path (find_nifti_files walk)))
                    (preprocess_nifti exactQ nib_load)).
  generalize (rbind (str_arg (t2f_path (find_nifti_files walk)))
                    (preprocess_nifti exactQ nib_load)).
  generalize (rbind (str_arg (t2w_path (find_nifti_files walk)))
                    (preprocess_nifti exactQ nib_load)).
  intros c4 c3 c2 c1.
  destruct c1 as [t1n|e]; [|reflexivity]. cbn [rbind]. rewrite bind_lift_ok.
  destruct c2 as [t1c|e]; [|reflexivity]. cbn [rbind]. rewrite bind_lift_ok.
  destruct c3 as [t2f|e]; [|reflexivity]. cbn [rbind]. rewrite bind_lift_ok.
  destruct c4 as [t2w|e]; [|reflexivity]. cbn [rbind]. rewrite bind_lift_ok.
  reflexivity.
Qed.

(** A bound file that loads as a non-empty array of at least one
    dimension is normalised into an array of the same shape. *)
Lemma normalised_channel_ok (nib_load : string -> result (ndarray Q))
      (f : found) (m : modality) (p : string) (image : ndarray Q) :
  path_of m f = Some p ->
  nib_load p = Ok image ->
  shape image <> [] -> 0 < size (shape image) ->
  exists t,
    normalised_channel nib_load f m = Ok t /\ shape t = shape image.
Proof.
  intros Hp Hl Hne Hpos.
  destruct (preprocess_nifti_any_rank nib_load p image Hl Hne Hpos)
    as (out & E & _).
  unfold normalised_channel. rewrite Hp. cbn [str_arg rbind]. rewrite E.
  eexists. split; reflexivity.
Qed.

Lemma loads_bound (nib_load : string -> result (ndarray Q))
      (walk : list walk_entry) (P : ndarray Q -> Prop) :
  (forall m, In m required ->
     exists p image,
       path_of m (find_nifti_files walk) = Some p /\
       nib_load p = Ok image /\ P image) ->
  forall m, In m required -> path_of m (find_nifti_files walk) <> None.
Proof.
  intros H m Hm. destruct (H m Hm) as (p & image & E & _).
  rewrite E. discriminate.
Qed.

(** Four files that load as non-empty arrays of one shape reach
    [combine_channels] as four arrays of that shape. *)
Lemma combined_input_same_shape (nib_load : string -> result (ndarray Q))
      (walk : list walk_entry) (sh : list nat) :
  (forall m, In m required ->
     exists p image,
       path_of m (find_nifti_files walk) = Some p /\
       nib_load p = Ok image /\ shape image = sh) ->
  sh <> [] -> 0 < size sh ->
  exists t1n t1c t2f t2w,
    shape t1n = sh /\ shape t1c = sh /\ shape t2f = sh /\ shape t2w = sh /\
    combined_input nib_load walk = combine_channels t1n t1c t2f t2w.
Proof.
  intros Hfiles Hne Hpos.
  assert (Hch : forall m, In m required ->
            exists t, normalised_channel nib_load (find_nifti_files walk) m
                      = Ok t /\ shape t = sh).
  { intros m Hm. destruct (Hfiles m Hm) as (p & image & Hp & Hl & Hs).
    destruct (normalised_channel_ok nib_load _ m p image Hp Hl)
      as (t & Et & St); [rewrite Hs; exact Hne | rewrite Hs; exact Hpos|].
    exists t. split; [exact Et | congruence]. }
  destruct (Hch T1n ltac:(cbn; auto)) as (t1n & E1 & S1).
  destruct (Hch T1c ltac:(cbn; auto)) as (t1c & E2 & S2).
  destruct (Hch T2f ltac:(cbn; auto)) as (t2f & E3 & S3).
  destruct (Hch T2w ltac:(cbn; auto 6)) as (t2w & E4 & S4).
  exists t1n, t1c, t2f, t2w. repeat (split; [assumption|]).
  unfold combined_input. rewrite E1, E2, E3, E4. reflexivity.
Qed.

(** What [run_segmentation] returns when the model answers the batch with
    per-voxel scores. *)
Lemma run_segmentation_batch (mdl : model) (combined : ndarray Q)
      (A B C : nat) :
  shape combined = [A; B; C; 4] ->
  scores_batch_of mdl combined ->
  exists sr,
    run_segmentation mdl combined
    = (Ok (Some sr), [ModelPredict (expand_dims0 combined)]) /\
    shape sr = [A; B; C].
Proof.
  intros Hs (prediction & N & K & Hp & Hps).
  rewrite Hs in Hps. cbn [firstn app] in Hps.
  unfold run_segmentation, ndim.
  cbn [expand_dims0 shape]. rewrite Hs. cbn [length Nat.eqb negb].
  fold (expand_dims0 combined) in *.
  replace (mk_ndarray (1 :: [A; B; C; 4]) (data combined))
    with (expand_dims0 combined)
    by (unfold expand_dims0; rewrite Hs; reflexivity).
  rewrite Hp. cbn [bind emit lift ret fst snd app].
  unfold argmax, ndim. rewrite Hps.
  cbn [length Nat.ltb Nat.leb nth Nat.eqb firstn skipn app
       bind emit lift ret fst snd].
  unfold getitem. cbn [shape data getitem_check getitem_shape
                       Nat.ltb Nat.leb andb bind lift ret app].
  eexists. split; reflexivity.
Qed.

(** The whole run, once the four modality files are found and load as
    non-empty volumes of one shape: the combination of the four channels,
    the two messages, then the segmentation and the presentation. *)
Lemma process_upload_segments
      (nib_load : string -> result (ndarray Q)) (mdl : model)
      (walk : list walk_entry) (X Y Z : nat) :
  (forall m, In m required ->
     exists p image,
       path_of m (find_nifti_files walk) = Some p /\
       nib_load p = Ok image /\ shape image = [X; Y; Z]) ->
  0 < X -> 0 < Y -> 0 < Z ->
  exists combined,
    combined_input nib_load walk = Ok combined /\
    shape combined = [crop_x X; crop_x Y; crop_z Z; 4] /\
    snd (run_segmentation mdl combined)
    = [ModelPredict (expand_dims0 combined)] /\
    let rest :=
      bind (run_segmentation mdl combined) (fun sr =>
        present_results nib_load combined sr
          (mask_path (find_nifti_files walk))) in
    process_upload nib_load mdl walk
    = (fst rest,
       [StWrite (ShapeOfCombinedImage (shape combined));
        StWrite RunningSegmentation] ++ snd rest).
Proof.
  intros Hfiles HX HY HZ.
  destruct (combined_input_same_shape nib_load walk [X; Y; Z] Hfiles)
    as (t1n & t1c & t2f & t2w & S1 & S2 & S3 & S4 & Ein);
    [discriminate | apply size_pos; repeat constructor; assumption |].
  destruct (combine_channels_ok t1n t1c t2f t2w X Y Z S1 S2 S3 S4)
    as (buf & Ec).
  rewrite Ec in Ein.
  set (combined := mk_ndarray _ buf) in *.
  exists combined.
  split; [exact Ein|]. split; [reflexivity|].
  split; [apply run_segmentation_log; reflexivity|].
  cbv zeta.
  rewrite (process_upload_combined nib_load mdl walk
             (loads_bound nib_load walk _ Hfiles)).
  rewrite Ein, bind_lift_ok.
  rewrite (surjective_pairing (bind (emit _) _)). f_equal.
  - repeat first
      [ rewrite fst_bind
      | progress cbn [emit fst snd ndim shape combined length Nat.eqb negb] ].
    reflexivity.
  - repeat first
      [ rewrite snd_bind | rewrite fst_bind
      | progress cbn [emit fst snd app ndim shape combined length
                      Nat.eqb negb] ].
    reflexivity.
Qed.

(** The same, when the model answers the batch with per-voxel scores: the
    outcome of [present_results], after the three events of the
    segmentation. *)
Lemma process_upload_runs
      (nib_load : string -> result (ndarray Q)) (mdl : model)
      (walk : list walk_entry) (X Y Z : nat) :
  (forall m, In m required ->
     exists p image,
       path_of m (find_nifti_files walk) = Some p /\
       nib_load p = Ok image /\ shape image = [X; Y; Z]) ->
  0 < X -> 0 < Y -> 0 < Z ->
  (forall combined, combined_input nib_load walk = Ok combined ->
     scores_batch_of mdl combined) ->
  exists combined sr,
    combined_input nib_load walk = Ok combined /\
    shape combined = [crop_x X; crop_x Y; crop_z Z; 4] /\
    run_segmentation mdl combined
    = (Ok (Some sr), [ModelPredict (expand_dims0 combined)]) /\
    shape sr = [crop_x X; crop_x Y; crop_z Z] /\
    process_upload nib_load mdl walk
    = (fst (present_results nib_load combined (Some sr)
              (mask_path (find_nifti_files walk))),
       [StWrite (ShapeOfCombinedImage (shape combined));
        StWrite RunningSegmentation;
        ModelPredict (expand_dims0 combined)]
       ++ snd (present_results nib_load combined (Some sr)
                 (mask_path (find_nifti_files walk)))).
Proof.
  intros Hfiles HX HY HZ Hm.
  destruct (process_upload_segments nib_load mdl walk X Y Z Hfiles HX HY HZ)
    as (combined & Ein & Hc & _ & Erun).
  destruct (run_segmentation_batch mdl combined _ _ _ Hc (Hm combined Ein))
    as (sr & Hrun & Hsr).
  exists combined, sr.
  split; [exact Ein|]. split; [exact Hc|].
  split; [exact Hrun|]. split; [exact Hsr|].
  rewrite Erun. cbv zeta.
  rewrite fst_bind, snd_bind, Hrun. cbn [fst snd app]. reflexivity.
Qed.

Lemma plot_slice_with_mask (combined : ndarray Q) (sr am : ndarray nat)
      (path : string) (A B C A' B' C' i n : nat) :
  shape combined = [A; B; C; 4] ->
  shape sr = [A; B; C] ->
  shape am = [A'; B'; C'] ->
  path <> ""%string ->
  n < C -> n < C' ->
  fst (plot_slice combined (Some sr) (Some path) (Some am) (i, n)) = Ok tt.
Proof.
  intros Hc Hs Ha Hp Hn Hn'.
  assert (Hlt : (n <? C) = true) by (apply Nat.ltb_lt; exact Hn).
  assert (Hlt' : (n <? C') = true) by (apply Nat.ltb_lt; exact Hn').
  apply String.eqb_neq in Hp.
  unfold plot_slice. cbn [subscriptable rbind truthy]. rewrite Hp.
  unfold getitem. rewrite Hc, Hs, Ha.
  cbn [getitem_check getitem_shape shape rbind negb].
  rewrite Hlt, Hlt'.
  change (0 <? 4) with true.
  cbn [andb rbind]. unfold rot90.
  cbn [shape rbind bind lift emit ret fst snd app].
  reflexivity.
Qed.

(** With a ground truth that adapts to a volume deep enough for the three
    displayed slices, everything after the segmentation succeeds. *)
Lemma present_results_with_mask (nib_load : string -> result (ndarray Q))
      (combined : ndarray Q) (sr am : ndarray nat) (path : string)
      (mask : ndarray Q) (A B C A' B' C' : nat) :
  shape combined = [A; B; C; 4] ->
  shape sr = [A; B; C] ->
  100 < C ->
  path <> ""%string ->
  nib_load path = Ok mask ->
  mask_argmax mask = Ok am ->
  shape am = [A'; B'; C'] ->
  100 < C' ->
  fst (present_results nib_load combined (Some sr) (Some path)) = Ok tt.
Proof.
  intros Hc Hs HC Hp Hl Hm Ha HC'.
  assert (F75 := plot_slice_with_mask combined sr am path A B C A' B' C' 0 75
                   Hc Hs Ha Hp ltac:(lia) ltac:(lia)).
  assert (F90 := plot_slice_with_mask combined sr am path A B C A' B' C' 1 90
                   Hc Hs Ha Hp ltac:(lia) ltac:(lia)).
  assert (F100 := plot_slice_with_mask combined sr am path A B C A' B' C' 2 100
                    Hc Hs Ha Hp ltac:(lia) ltac:(lia)).
  unfold present_results, load_ground_truth, plot_results.
  change (enumerate slice_indices) with [(0, 75); (1, 90); (2, 100)].
  cbn [truthy for_each]. apply String.eqb_neq in Hp. rewrite Hp.
  cbn [negb str_arg rbind]. rewrite Hl.
  repeat first
    [ rewrite fst_bind | rewrite Hm
    | rewrite F75 | rewrite F90 | rewrite F100
    | progress cbn [emit ret lift has_attr save_result fst snd] ].
  reflexivity.
Qed.

(** A presentation that ends normally has delivered the label volume. *)
Lemma present_results_ok_delivers
      (nib_load : string -> result (ndarray Q)) (combined : ndarray Q)
      (sr : ndarray nat) (mpath : option string) :
  fst (present_results nib_load combined (Some sr) mpath) = Ok tt ->
  exists log,
    snd (present_results nib_load combined (Some sr) mpath)
    = log ++ delivery sr /\
    filter is_file_event log = [].
Proof.
  intros Hok.
  destruct (present_results_delivery nib_load combined (Some sr) mpath)
    as (_ & [Hnone | (_ & s & log & Es & Hsnd & Hlog)]).
  - exfalso.
    destruct (present_results_packages nib_load combined (Some sr) mpath)
      as (_ & _ & Hout).
    specialize (Hout Hok). unfold outputs in Hout.
    unfold file_events in Hnone.
    assert (Hin : In (NibSave output_file (astype_float32 sr))
                     (snd (present_results nib_load combined (Some sr)
                             mpath))).
    { eapply proj1. apply filter_In with (f := is_output).
      rewrite Hout. left. reflexivity. }
    assert (Hin' : In (NibSave output_file (astype_float32 sr))
                      (filter is_file_event
                         (snd (present_results nib_load combined (Some sr)
                                 mpath))))
      by (apply filter_In; split; [exact Hin | reflexivity]).
    rewrite Hnone in Hin'. exact Hin'.
  - injection Es as <-. exists log. auto.
Qed.

(** Without a ground truth, a combined image too shallow for the
    displayed slices stops the plotting with [IndexError]. *)
Lemma plot_results_shallow (combined : ndarray Q) (sr : ndarray nat)
      (A B C : nat) :
  shape combined = [A; B; C; 4] ->
  shape sr = [A; B; C] ->
  C <= 100 ->
  fst (plot_results combined (Some sr) None None) = Raise IndexError.
Proof.
  intros Hc Hs HC.
  assert (Hfail : forall i n, C <= n ->
            fst (plot_slice combined (Some sr) None None (i, n))
            = Raise IndexError).
  { intros i n Hn. unfold plot_slice, getitem. rewrite Hc.
    cbn [getitem_check].
    destruct (Nat.ltb_spec n C) as [|_]; [lia|]. reflexivity. }
  assert (Hok : forall i n, n < C ->
            fst (plot_slice combined (Some sr) None None (i, n)) = Ok tt).
  { intros i n Hn. apply (plot_slice_ok combined sr A B C i n Hc Hs Hn). }
  unfold plot_results.
  change (enumerate slice_indices) with [(0, 75); (1, 90); (2, 100)].
  cbn [for_each].
  rewrite ?fst_bind. cbn [emit fst].
  destruct (Nat.lt_ge_cases 75 C) as [H75|H75];
    [rewrite (Hok 0 75 H75) | rewrite (Hfail 0 75 H75); reflexivity].
  rewrite ?fst_bind.
  destruct (Nat.lt_ge_cases 90 C) as [H90|H90];
    [rewrite (Hok 1 90 H90) | rewrite (Hfail 1 90 H90); reflexivity].
  rewrite ?fst_bind, (Hfail 2 100 HC). reflexivity.
Qed.

(** With or without a ground truth, it stops the presentation with some
    exception. *)
Lemma present_results_shallow (nib_load : string -> result (ndarray Q))
      (combined : ndarray Q) (sr : option (ndarray nat))
      (mpath : option string) (A B C : nat) :
  shape combined = [A; B; C; 4] ->
  C <= 100 ->
  exists e, fst (present_results nib_load combined sr mpath) = Raise e.
Proof.
  intros Hc HC.
  assert (Hfail : forall am i n, C <= n ->
            fst (plot_slice combined sr mpath am (i, n)) = Raise IndexError).
  { intros am i n Hn. unfold plot_slice, getitem. rewrite Hc.
    cbn [getitem_check].
    destruct (Nat.ltb_spec n C) as [|_]; [lia|]. reflexivity. }
  assert (Hplot : forall am,
            exists e, fst (plot_results combined sr mpath am) = Raise e).
  { intros am. unfold plot_results.
    change (enumerate slice_indices) with [(0, 75); (1, 90); (2, 100)].
    cbn [for_each].
    rewrite ?fst_bind. cbn [emit fst].
    destruct (fst (plot_slice combined sr mpath am (0, 75))) as [[]|e];
      [|eauto].
    rewrite ?fst_bind.
    destruct (fst (plot_slice combined sr mpath am (1, 90))) as [[]|e];
      [|eauto].
    rewrite ?fst_bind, (Hfail am 2 100 HC). eauto. }
  unfold present_results. rewrite !fst_bind. cbn [emit fst].
  destruct (fst (load_ground_truth nib_load mpath)) as [am|e]; [|eauto].
  rewrite fst_bind. destruct (Hplot am) as (e & ->). eauto.
Qed.

(** ** Whole runs *)

(** X12.  When the four modality files load as volumes of one shape
    (X, Y, Z) with X and Y above 56 and Z at least 114, the model answers
    the one batch the run asks about, that of the combination of the four
    normalised files, with per-voxel class scores, and the ground truth,
    if the archive has one, loads as a non-empty 3-D volume of more than
    100 slices with labels 0 to 4, the run ends normally: the model is
    asked once, on that batch, and the log ends with the delivery of the
    label volume [run_segmentation] returned, whose shape is the crop of
    (X, Y, Z); nothing touches the result file before. *)
Theorem process_upload_delivers :
  forall (nib_load : string -> result (ndarray Q)) (mdl : model)
         (walk : list walk_entry) (X Y Z : nat),
    (forall m, In m required ->
       exists p image,
         path_of m (find_nifti_files walk) = Some p /\
         nib_load p = Ok image /\ shape image = [X; Y; Z]) ->
    56 < X -> 56 < Y -> 114 <= Z ->
    (forall combined,
       combined_input nib_load walk = Ok combined ->
       scores_batch_of mdl combined) ->
    (forall p, path_of Seg (find_nifti_files walk) = Some p ->
       exists mask A B C,
         nib_load p = Ok mask /\ shape mask = [A; B; C] /\
         0 < A /\ 0 < B /\ 100 < C /\ wf mask /\
         forall q, In q (data mask) ->
           exists n, n <= 4 /\ Qeq q (inject_Z (Z.of_nat n))) ->
    let run := process_upload nib_load mdl walk in
    fst run = Ok tt /\
    exists combined sr log,
      combined_input nib_load walk = Ok combined /\
      shape combined = [crop_x X; crop_x Y; crop_z Z; 4] /\
      fst (run_segmentation mdl combined) = Ok (Some sr) /\
      shape sr = [crop_x X; crop_x Y; crop_z Z] /\
      predictions run = [ModelPredict (expand_dims0 combined)] /\
      snd run = log ++ delivery sr /\
      filter is_file_event log = [].
Proof.
  intros nib_load mdl walk X Y Z Hfiles HX HY HZ Hm Hmask run.
  destruct (process_upload_runs nib_load mdl walk X Y Z Hfiles
              ltac:(lia) ltac:(lia) ltac:(lia) Hm)
    as (combined & sr & Ein & Hc & Hrun & Hsr & Erun).
  assert (HC : 100 < crop_z Z) by (unfold crop_z; lia).
  assert (Hok : fst (present_results nib_load combined (Some sr)
                       (mask_path (find_nifti_files walk))) = Ok tt).
  { destruct (mask_path (find_nifti_files walk)) as [p|] eqn:Ep.
    - destruct (Hmask p Ep)
        as (mask & A & B & C & Hl & Hs & _ & _ & HC' & Hwf & Hvals).
      destruct (find_nifti_files_sound Seg walk p Ep) as [Hne _].
      apply (present_results_with_mask nib_load combined sr
               (reassign_4_to_3 (astype_uint8 mask)) p mask
               _ _ _ A B C Hc Hsr HC Hne Hl).
      + apply (mask_argmax_ok mask A B C Hs ltac:(lia) Hwf Hvals).
      + cbn [reassign_4_to_3 astype_uint8 shape]. exact Hs.
      + exact HC'.
    - apply (present_results_without_mask nib_load combined sr _ _ _
               Hc Hsr HC). }
  destruct (present_results_ok_delivers nib_load combined sr _ Hok)
    as (log & Hsnd & Hlog).
  destruct (present_results_delivery nib_load combined (Some sr)
              (mask_path (find_nifti_files walk))) as (Hpred & _).
  subst run. rewrite Erun. cbn [fst snd].
  split; [exact Hok|].
  exists combined, sr,
    ([StWrite (ShapeOfCombinedImage (shape combined));
      StWrite RunningSegmentation;
      ModelPredict (expand_dims0 combined)] ++ log).
  split; [exact Ein|]. split; [exact Hc|].
  split; [rewrite Hrun; reflexivity|]. split; [exact Hsr|].
  split; [|split].
  - unfold predictions in *. cbn [snd]. rewrite filter_app, Hpred.
    reflexivity.
  - rewrite Hsnd, app_assoc. reflexivity.
  - rewrite filter_app, Hlog. reflexivity.
Qed.

(** X13.  When the four modality files load as volumes of one shape
    (X, Y, Z) with no empty axis and fewer than 114 slices along the last
    axis, then whatever the model does, it is asked once, the run ends
    with an exception and the result file is never written: the crop
    leaves at most 100 slices and slice 100 is displayed before the
    result is saved.  When moreover X and Y are above 56, the model
    answers that batch with per-voxel class scores and the archive has no
    ground truth, the exception is [IndexError]. *)
Theorem process_upload_too_shallow :
  forall (nib_load : string -> result (ndarray Q)) (mdl : model)
         (walk : list walk_entry) (X Y Z : nat),
    (forall m, In m required ->
       exists p image,
         path_of m (find_nifti_files walk) = Some p /\
         nib_load p = Ok image /\ shape image = [X; Y; Z]) ->
    0 < X -> 0 < Y -> 0 < Z -> Z < 114 ->
    let run := process_upload nib_load mdl walk in
    (exists e, fst run = Raise e) /\
    file_events run = [] /\
    exists combined,
      combined_input nib_load walk = Ok combined /\
      predictions run = [ModelPredict (expand_dims0 combined)] /\
      (56 < X -> 56 < Y ->
       scores_batch_of mdl combined ->
       path_of Seg (find_nifti_files walk) = None ->
       fst run = Raise IndexError).
Proof.
  intros nib_load mdl walk X Y Z Hfiles HX HY HZ HZ' run.
  destruct (process_upload_segments nib_load mdl walk X Y Z Hfiles HX HY HZ)
    as (combined & Ein & Hc & Hlog & Erun).
  cbv zeta in Erun.
  assert (HC : crop_z Z <= 100) by (unfold crop_z; lia).
  assert (Hpres : forall sr,
            (exists e, fst (present_results nib_load combined sr
                              (mask_path (find_nifti_files walk)))
                       = Raise e) /\
            file_events (present_results nib_load combined sr
                           (mask_path (find_nifti_files walk))) = [] /\
            predictions (present_results nib_load combined sr
                           (mask_path (find_nifti_files walk))) = []).
  { intros sr.
    destruct (present_results_shallow nib_load combined sr
                (mask_path (find_nifti_files walk)) _ _ _ Hc HC)
      as (e & He).
    destruct (present_results_delivery nib_load combined sr
                (mask_path (find_nifti_files walk)))
      as (Hpred & Hfile).
    split; [eauto|]. split; [|exact Hpred].
    destruct Hfile as [Hnone | (Hok & _)]; [exact Hnone|].
    rewrite He in Hok. discriminate Hok. }
  subst run. rewrite Erun. cbn [fst snd].
  split; [|split].
  - rewrite fst_bind.
    destruct (fst (run_segmentation mdl combined)) as [sr|e]; [|eauto].
    apply (Hpres sr).
  - unfold file_events. cbn [snd app filter is_file_event].
    fold (file_events (bind (run_segmentation mdl combined)
            (fun sr => present_results nib_load combined sr
                         (mask_path (find_nifti_files walk))))).
    rewrite file_events_bind. unfold file_events at 1. rewrite Hlog.
    cbn [filter is_file_event app].
    destruct (fst (run_segmentation mdl combined)) as [sr|e];
      [apply (Hpres sr) | reflexivity].
  - exists combined. split; [exact Ein|]. split.
    + unfold predictions. cbn [snd app filter is_predict].
      fold (predictions (bind (run_segmentation mdl combined)
              (fun sr => present_results nib_load combined sr
                           (mask_path (find_nifti_files walk))))).
      rewrite predictions_bind. unfold predictions at 1. rewrite Hlog.
      cbn [filter is_predict app].
      destruct (fst (run_segmentation mdl combined)) as [sr|e];
        [|reflexivity].
      destruct (Hpres sr) as (_ & _ & ->). reflexivity.
    + intros HX' HY' Hm Hseg.
      destruct (run_segmentation_batch mdl combined _ _ _ Hc Hm)
        as (sr & Hrun & Hsr).
      cbn [path_of] in Hseg.
      rewrite fst_bind, Hrun, Hseg. cbn [fst].
      unfold present_results, load_ground_truth. cbn [truthy].
      pose proof (plot_results_shallow combined sr _ _ _ Hc Hsr HC) as Hp.
      repeat first [ rewrite fst_bind | rewrite Hp
                   | progress cbn [emit ret fst snd] ].
      reflexivity.
Qed.

(** X14.  Loading errors are not caught: when the four modalities are
    bound and the file of one of them fails to load, those before it (in
    the order T1n, T1c, T2f, T2w) loading as non-empty arrays, the run
    ends with the loader's exception and nothing at all has happened: no
    message, no call of the model, no file. *)
Theorem process_upload_load_failure :
  forall (nib_load : string -> result (ndarray Q)) (mdl : model)
         (walk : list walk_entry) (k : nat) (m : modality) (p : string)
         (e : exn),
    (forall m', In m' required ->
       path_of m' (find_nifti_files walk) <> None) ->
    nth_error required k = Some m ->
    (forall m', In m' (firstn k required) ->
       exists p' image,
         path_of m' (find_nifti_files walk) = Some p' /\
         nib_load p' = Ok image /\
         shape image <> [] /\ 0 < size (shape image)) ->
    path_of m (find_nifti_files walk) = Some p ->
    nib_load p = Raise e ->
    process_upload nib_load mdl walk = (Raise e, []).
Proof.
  intros nib_load mdl walk k m p e Hb Hk Hbefore Hp He.
  rewrite (process_upload_combined nib_load mdl walk Hb).
  assert (Hm : normalised_channel nib_load (find_nifti_files walk) m
               = Raise e).
  { unfold normalised_channel, preprocess_nifti. rewrite Hp.
    cbn [str_arg rbind]. rewrite He. reflexivity. }
  assert (Hch : forall m', In m' (firstn k required) ->
            exists t, normalised_channel nib_load (find_nifti_files walk) m'
                      = Ok t).
  { intros m' Hm'.
    destruct (Hbefore m' Hm') as (p' & image & Hp' & Hl & Hne & Hpos).
    destruct (normalised_channel_ok nib_load _ m' p' image Hp' Hl Hne Hpos)
      as (t & Et & _).
    eauto. }
  assert (Ein : combined_input nib_load walk = Raise e).
  { unfold combined_input.
    destruct k as [|[|[|[|k]]]]; cbn in Hk;
      [ | | | | destruct k; discriminate Hk];
      injection Hk as <-; cbn [firstn required] in Hch.
    - rewrite Hm. reflexivity.
    - destruct (Hch T1n ltac:(cbn; auto)) as (t1 & ->).
      cbn [rbind]. rewrite Hm. reflexivity.
    - destruct (Hch T1n ltac:(cbn; auto)) as (t1 & ->).
      destruct (Hch T1c ltac:(cbn; auto)) as (t2 & ->).
      cbn [rbind]. rewrite Hm. reflexivity.
    - destruct (Hch T1n ltac:(cbn; auto)) as (t1 & ->).
      destruct (Hch T1c ltac:(cbn; auto)) as (t2 & ->).
      destruct (Hch T2f ltac:(cbn; auto)) as (t3 & ->).
      cbn [rbind]. rewrite Hm. reflexivity. }
  rewrite Ein. reflexivity.
Qed.

(** X15.  The shapes of the four volumes are never compared by the
    script itself: when the four files load as non-empty arrays and one
    of them has a shape other than that of the T1n volume, the run ends
    with the [ValueError] of the stacking step, before anything is
    displayed and without asking the model. *)
Theorem process_upload_shape_mismatch :
  forall (nib_load : string -> result (ndarray Q)) (mdl : model)
         (walk : list walk_entry) (image : modality -> ndarray Q),
    (forall m, In m required ->
       exists p,
         path_of m (find_nifti_files walk) = Some p /\
         nib_load p = Ok (image m) /\
         shape (image m) <> [] /\ 0 < size (shape (image m))) ->
    (exists m, In m required /\ shape (image m) <> shape (image T1n)) ->
    process_upload nib_load mdl walk = (Raise ValueError, []).
Proof.
  intros nib_load mdl walk image Hfiles (m0 & Hm0 & Hdiff).
  assert (Hb : forall m, In m required ->
            path_of m (find_nifti_files walk) <> None).
  { intros m Hm. destruct (Hfiles m Hm) as (p & E & _).
    rewrite E. discriminate. }
  rewrite (process_upload_combined nib_load mdl walk Hb).
  assert (Hch : forall m, In m required ->
            exists t, normalised_channel nib_load (find_nifti_files walk) m
                      = Ok t /\ shape t = shape (image m)).
  { intros m Hm. destruct (Hfiles m Hm) as (p & Hp & Hl & Hne & Hpos).
    apply (normalised_channel_ok nib_load _ m p (image m) Hp Hl Hne Hpos). }
  destruct (Hch T1n ltac:(cbn; auto)) as (t1n & E1 & S1).
  destruct (Hch T1c ltac:(cbn; auto)) as (t1c & E2 & S2).
  destruct (Hch T2f ltac:(cbn; auto)) as (t2f & E3 & S3).
  destruct (Hch T2w ltac:(cbn; auto 6)) as (t2w & E4 & S4).
  unfold combined_input. rewrite E1, E2, E3, E4. cbn [rbind].
  rewrite combine_mismatch; [reflexivity|].
  rewrite S1, S2, S3, S4.
  destruct Hm0 as [<- | [<- | [<- | [<- | []]]]]; try congruence; auto.
Qed.

(** X16.  For four files that load as non-empty arrays of one shape, the
    rank decides the run.  With one or two dimensions the stacking step
    raises [AxisError] and nothing is displayed.  With more than three
    dimensions the run ends normally after displaying the shape of the
    combined image, which has one dimension more, and the
    unexpected-shape error: the model is not asked and no file is
    written. *)
Theorem process_upload_rank :
  forall (nib_load : string -> result (ndarray Q)) (mdl : model)
         (walk : list walk_entry) (sh : list nat),
    (forall m, In m required ->
       exists p image,
         path_of m (find_nifti_files walk) = Some p /\
         nib_load p = Ok image /\ shape image = sh) ->
    0 < size sh ->
    let run := process_upload nib_load mdl walk in
    (0 < length sh < 3 -> run = (Raise AxisError, [])) /\
    (3 < length sh ->
     exists sh',
       length sh' = S (length sh) /\
       run = (Ok tt, [StWrite (ShapeOfCombinedImage sh');
                      StError (UnexpectedCombinedShape sh')])).
Proof.
  intros nib_load mdl walk sh Hfiles Hpos run.
  assert (Hcases : 0 < length sh ->
            exists t1n t1c t2f t2w,
              shape t1n = sh /\ shape t1c = sh /\ shape t2f = sh /\
              shape t2w = sh /\
              run = bind (lift (combine_channels t1n t1c t2f t2w))
                      (fun combined_image =>
                       bind (emit (StWrite (ShapeOfCombinedImage
                                              (shape combined_image))))
                         (fun _ =>
                          if negb (ndim combined_image =? 4) then
                            emit (StError (UnexpectedCombinedShape
                                             (shape combined_image)))
                          else
                            bind (emit (StWrite RunningSegmentation))
                              (fun _ =>
                               bind (run_segmentation mdl combined_image)
                                 (fun sr =>
                                  present_results nib_load combined_image sr
                                    (mask_path (find_nifti_files walk))))))).
  { intros Hlen.
    destruct (combined_input_same_shape nib_load walk sh Hfiles)
      as (t1n & t1c & t2f & t2w & S1 & S2 & S3 & S4 & Ein);
      [destruct sh; [cbn in Hlen; lia | discriminate] | exact Hpos |].
    exists t1n, t1c, t2f, t2w. repeat (split; [assumption|]).
    subst run.
    rewrite (process_upload_combined nib_load mdl walk
               (loads_bound nib_load walk _ Hfiles)), Ein.
    reflexivity. }
  split.
  - intros Hlen.
    destruct (Hcases ltac:(lia))
      as (t1n & t1c & t2f & t2w & S1 & S2 & S3 & S4 & ->).
    destruct (combine_same_shape t1n t1c t2f t2w) as [Hlow _];
      [congruence | congruence | congruence |].
    rewrite Hlow; [reflexivity | unfold ndim; rewrite S1; lia].
  - intros Hlen.
    destruct (Hcases ltac:(lia))
      as (t1n & t1c & t2f & t2w & S1 & S2 & S3 & S4 & ->).
    destruct (combine_same_shape t1n t1c t2f t2w) as [_ Hhigh];
      [congruence | congruence | congruence |].
    destruct Hhigh as (combined & Ec & Hn);
      [unfold ndim; rewrite S1; lia|].
    exists (shape combined). split.
    + unfold ndim in Hn. rewrite Hn, S1. reflexivity.
    + rewrite Ec, bind_lift_ok.
      destruct (Nat.eqb_spec (ndim combined) 4) as [E|_];
        [unfold ndim in E, Hn; rewrite S1 in Hn; lia|].
      reflexivity.
Qed.

(** ** The default model *)

Lemma reloads_existing (disk : Type) (path_exists : disk -> string -> bool)
      (gdown_download : string -> string -> disk -> result unit * disk)
      (load_model : disk -> string -> result model) (d : disk) (n : nat) :
  path_exists d output_path = true ->
  reloads disk path_exists gdown_download load_model n d
  = (repeat (load_model d output_path) n, d,
     repeat (LoadModel output_path) n).
Proof.
  intros Hex.
  induction n as [|n IH]; [reflexivity|].
  cbn [reloads]. unfold load_default_model, download_default_model.
  rewrite Hex. cbn [negb app]. rewrite IH. reflexivity.
Qed.

(** X17.  A file called [default_model.keras] that is already in the
    working directory is trusted as it is: however often
    [load_default_model] runs, it never downloads, it leaves the
    directory as it was, and every execution is one reading of that file
    by the model loader, whose outcome it returns; so a file the loader
    cannot read is never replaced. *)
Theorem existing_model_file_is_trusted :
  forall (disk : Type) (path_exists : disk -> string -> bool)
         (gdown_download : string -> string -> disk -> result unit * disk)
         (load_model : disk -> string -> result model)
         (d : disk) (n : nat),
    path_exists d output_path = true ->
    reloads disk path_exists gdown_download load_model n d
    = (repeat (load_model d output_path) n, d,
       repeat (LoadModel output_path) n).
Proof. exact reloads_existing. Qed.

(** X18.  When [default_model.keras] is missing, the first execution of
    [load_default_model] starts with one download from the fixed address.
    If the download raises, the exception ends the execution and the
    model loader is not called.  If it returns and the file is then in
    the directory, this execution and all later ones read that file and
    nothing is downloaded again. *)
Theorem missing_model_file_is_downloaded_once :
  forall (disk : Type) (path_exists : disk -> string -> bool)
         (gdown_download : string -> string -> disk -> result unit * disk)
         (load_model : disk -> string -> result model)
         (d : disk),
    path_exists d output_path = false ->
    let url := ("https://drive.google.com/uc?id=1lV1SgafomQKwgv1NW2cjlpyb4LwZXFwX")%string in
    let d' := snd (gdown_download url output_path d) in
    (forall e,
       fst (gdown_download url output_path d) = Raise e ->
       load_default_model disk path_exists gdown_download load_model d
       = (Raise e, d', [GdownDownload url output_path])) /\
    (fst (gdown_download url output_path d) = Ok tt ->
     path_exists d' output_path = true ->
     forall n,
       reloads disk path_exists gdown_download load_model (S n) d
       = (repeat (load_model d' output_path) (S n), d',
          GdownDownload url output_path
          :: repeat (LoadModel output_path) (S n))).
Proof.
  intros disk path_exists gdown_download load_model d Hex url d'.
  assert (Hurl : ("https://drive.google.com/uc?id=" ++ file_id)%string = url)
    by reflexivity.
  split.
  - intros e He. unfold load_default_model, download_default_model.
    rewrite Hex, Hurl. cbn [negb]. subst d'.
    destruct (gdown_download url output_path d) as [r d1].
    cbn [fst snd] in *. rewrite He. reflexivity.
  - intros Hok Hex' n. cbn [reloads].
    unfold load_default_model, download_default_model.
    rewrite Hex, Hurl. cbn [negb]. subst d'.
    destruct (gdown_download url output_path d) as [r d1].
    cbn [fst snd] in *. rewrite Hok. cbn [rbind].
    rewrite (reloads_existing disk path_exists gdown_download load_model
               d1 n Hex').
    reflexivity.
Qed.

(** ** The further properties on concrete inputs *)

Ltac size_positive :=
  apply size_pos; repeat (constructor; [lia|]); constructor.

Lemma preprocess_nifti_slices_independent_witness :
  exists out1 out2,
    preprocess_nifti binary64 Examples64.load_a_or_b "a.nii.gz"%string
    = Ok out1 /\
    preprocess_nifti binary64 Examples64.load_a_or_b "b.nii.gz"%string
    = Ok out2 /\
    forall i j, i < 2 -> j < 1 ->
      item PrimFloat.zero out1 [i; j; 0]
      = item PrimFloat.zero out2 [i; j; 0].
Proof.
  apply (preprocess_nifti_slices_independent Examples64.load_a_or_b
           "a.nii.gz"%string "b.nii.gz"%string
           Examples64.volume_a Examples64.volume_b 2 1 2 0).
  - reflexivity.
  - reflexivity.
  - reflexivity.
  - reflexivity.
  - lia.
  - lia.
  - lia.
  - intros v [<- | [<- | [<- | [<- | []]]]]; reflexivity.
  - intros v [<- | [<- | [<- | [<- | []]]]]; reflexivity.
  - intros i j Hi Hj.
    destruct i as [|[|i]]; [| |lia]; (destruct j as [|j]; [|lia]);
      reflexivity.
Defined.

Lemma combine_channels_rank_witness :
  exists combined,
    combine_channels Examples.brats_volume Examples.brats_volume
                     Examples.brats_volume Examples.brats_volume
    = Ok combined /\
    ndim combined = S (ndim Examples.brats_volume).
Proof.
  apply (proj2 (combine_channels_rank Examples.brats_volume
                  Examples.brats_volume Examples.brats_volume
                  Examples.brats_volume eq_refl eq_refl eq_refl)).
  change (3 <= 3). lia.
Defined.

Lemma combine_channels_clamped_witness :
  exists combined : ndarray Q,
    combine_channels Cases.shallow_volume Cases.shallow_volume
                     Cases.shallow_volume Cases.shallow_volume
    = Ok combined /\
    shape combined = [128; 128; 87; 4] /\
    wf combined.
Proof.
  destruct (combine_channels_clamped Cases.shallow_volume
              Cases.shallow_volume Cases.shallow_volume Cases.shallow_volume
              240 240 100 eq_refl eq_refl eq_refl eq_refl
              (Examples.wf_zeros _) (Examples.wf_zeros _)
              (Examples.wf_zeros _) (Examples.wf_zeros _))
    as (combined & H1 & H2 & H3 & _).
  exists combined. split; [exact H1|]. split; [exact H2 | exact H3].
Defined.

Lemma run_segmentation_failures_witness :
  fst (run_segmentation Cases.flat_answer Cases.small_input)
  = Raise AxisError.
Proof.
  destruct (run_segmentation_failures Cases.flat_answer Cases.small_input
              eq_refl) as (_ & _ & H).
  destruct (H (Examples.zeros [1; 2; 2; 2]) eq_refl) as (Hlow & _).
  apply Hlow. change (4 < 5). lia.
Defined.

Lemma run_segmentation_decisive_witness :
  exists labels : ndarray nat,
    fst (run_segmentation Examples.stub_model Cases.small_input)
    = Ok (Some labels) /\
    shape labels = [2; 2; 2] /\
    wf labels /\
    forall x y z, x < 2 -> y < 2 -> z < 2 ->
      item 0 labels [x; y; z] = 2.
Proof.
  eapply (run_segmentation_decisive Examples.stub_model Cases.small_input
            _ 0 2 2 2 3 (fun _ _ _ => 2)).
  - reflexivity.
  - reflexivity.
  - reflexivity.
  - intros x y z Hx Hy Hz. split; [lia|].
    intros c Hc Hne.
    destruct x as [|[|x]]; [| |lia];
      (destruct y as [|[|y]]; [| |lia]);
      (destruct z as [|[|z]]; [| |lia]);
      (destruct c as [|[|[|[|c]]]]; [| | | |lia]);
      try (exfalso; apply Hne; reflexivity);
      reflexivity.
Defined.

Lemma binding_ignores_other_files_witness :
  path_of T1n (find_nifti_files Examples.walk_without_seg)
  = path_of T1n (find_nifti_files Examples.walk_with_seg).
Proof.
  apply (binding_ignores_other_files T1n Examples.walk_without_seg
           Examples.walk_with_seg).
  reflexivity.
Defined.

Lemma mask_argmax_outcome_witness :
  mask_argmax Cases.mask_with_label_5 = Raise IndexError.
Proof.
  apply (proj2 (mask_argmax_outcome Cases.mask_with_label_5 1 2 2 eq_refl
                  ltac:(lia) eq_refl)).
  exists 5%Q, 5. split; [left; reflexivity|].
  split; [lia | reflexivity].
Defined.

Lemma shallow_files_load :
  forall m, In m required ->
    exists p image,
      path_of m (find_nifti_files Examples.walk_without_seg) = Some p /\
      Cases.load_shallow p = Ok image /\ shape image = [240; 240; 100].
Proof.
  intros m [<-|[<-|[<-|[<-|[]]]]];
    (eexists; exists Cases.shallow_volume;
     split; [reflexivity|]; split; reflexivity).
Defined.

Lemma brats_files_load :
  forall m, In m required ->
    exists p image,
      path_of m (find_nifti_files Examples.walk_with_seg) = Some p /\
      Examples.load_with Examples.good_mask p = Ok image /\
      shape image = [240; 240; 155].
Proof.
  intros m [<-|[<-|[<-|[<-|[]]]]];
    (eexists; exists Examples.brats_volume;
     split; [reflexivity|]; split; reflexivity).
Defined.

Lemma stub_model_scores (combined : ndarray Q) :
  scores_batch_of Examples.stub_model combined.
Proof. eexists. exists 0, 3. split; reflexivity. Defined.

Lemma process_upload_delivers_witness :
  let run := process_upload (Examples.load_with Examples.good_mask)
               Examples.stub_model Examples.walk_with_seg in
  fst run = Ok tt /\
  exists (sr : ndarray nat) (log : list event),
    shape sr = [128; 128; 128] /\
    snd run = log ++ delivery sr /\
    filter is_file_event log = [].
Proof.
  destruct (process_upload_delivers (Examples.load_with Examples.good_mask)
              Examples.stub_model Examples.walk_with_seg 240 240 155
              brats_files_load ltac:(lia) ltac:(lia) ltac:(lia)
              (fun combined _ => stub_model_scores combined))
    as (Hok & combined & sr & log & _ & _ & _ & Hs & _ & Hsnd & Hlog).
  - intros p Hp.
    exists Examples.good_mask, 240, 240, 155.
    assert (Ep : p = path_join Examples.case_dir
                       "BraTS-GLI-00000-000-seg.nii.gz")
      by (injection Hp as <-; reflexivity).
    subst p.
    split; [reflexivity|]. split; [reflexivity|].
    split; [lia|]. split; [lia|]. split; [lia|].
    split; [apply Examples.wf_zeros|].
    intros q Hq. apply repeat_spec in Hq. subst q.
    exists 0. split; [lia | reflexivity].
  - split; [exact Hok|]. exists sr, log.
    split; [exact Hs|]. split; [exact Hsnd | exact Hlog].
Defined.

Lemma process_upload_too_shallow_witness :
  let run := process_upload Cases.load_shallow Examples.stub_model
               Examples.walk_without_seg in
  fst run = Raise IndexError /\ file_events run = [].
Proof.
  destruct (process_upload_too_shallow Cases.load_shallow
              Examples.stub_model Examples.walk_without_seg 240 240 100
              shallow_files_load ltac:(lia) ltac:(lia) ltac:(lia)
              ltac:(lia))
    as (_ & Hfile & combined & _ & _ & Hidx).
  split; [|exact Hfile].
  apply Hidx; [lia | lia | apply stub_model_scores | reflexivity].
Defined.

Lemma process_upload_load_failure_witness :
  process_upload Cases.load_unreadable_t2f Examples.stub_model
                 Examples.walk_without_seg
  = (Raise ImageFileError, []).
Proof.
  apply (process_upload_load_failure Cases.load_unreadable_t2f
           Examples.stub_model Examples.walk_without_seg 2 T2f
           (path_join Examples.case_dir "BraTS-GLI-00000-000-t2f.nii.gz")).
  - intros m [<-|[<-|[<-|[<-|[]]]]]; discriminate.
  - reflexivity.
  - intros m [<-|[<-|[]]];
      (eexists; exists Examples.brats_volume;
       split; [reflexivity|]; split; [reflexivity|];
       split; [discriminate|];
       change (0 < size [240; 240; 155]); size_positive).
  - reflexivity.
  - reflexivity.
Defined.

Lemma process_upload_shape_mismatch_witness :
  process_upload Cases.load_short_t2w Examples.stub_model
                 Examples.walk_without_seg
  = (Raise ValueError, []).
Proof.
  apply (process_upload_shape_mismatch Cases.load_short_t2w
           Examples.stub_model Examples.walk_without_seg
           Cases.volumes_short_t2w).
  - intros m [<-|[<-|[<-|[<-|[]]]]];
      (eexists; split; [reflexivity|]; split; [reflexivity|];
       split; [discriminate|]);
      [ change (0 < size [240; 240; 155])
      | change (0 < size [240; 240; 155])
      | change (0 < size [240; 240; 155])
      | change (0 < size [240; 240; 154]) ];
      size_positive.
  - exists T2w. split; [cbn; auto 6|].
    change ([240; 240; 154] <> [240; 240; 155]).
    intros H. injection H as H. lia.
Defined.

Lemma process_upload_rank_witness :
  exists sh',
    length sh' = 5 /\
    process_upload Cases.load_series Examples.stub_model
                   Examples.walk_without_seg
    = (Ok tt, [StWrite (ShapeOfCombinedImage sh');
               StError (UnexpectedCombinedShape sh')]).
Proof.
  apply (proj2 (process_upload_rank Cases.load_series Examples.stub_model
                  Examples.walk_without_seg [240; 240; 155; 2]
                  ltac:(intros m [<-|[<-|[<-|[<-|[]]]]];
                        (eexists; exists Cases.series;
                         split; [reflexivity|]; split; reflexivity))
                  ltac:(size_positive))).
  change (3 < 4). lia.
Defined.

Lemma existing_model_file_is_trusted_witness :
  reloads (list string) Cases.listed Cases.fetch Cases.unreadable 2
          ["default_model.keras"%string]
  = ([Raise ValueError; Raise ValueError],
     ["default_model.keras"%string],
     [LoadModel output_path; LoadModel output_path]).
Proof.
  apply (existing_model_file_is_trusted (list string) Cases.listed
           Cases.fetch Cases.unreadable ["default_model.keras"%string] 2).
  reflexivity.
Defined.

Lemma missing_model_file_is_downloaded_once_witness :
  reloads (list string) Cases.listed Cases.fetch Cases.unreadable 2 []
  = ([Raise ValueError; Raise ValueError],
     ["default_model.keras"%string],
     [GdownDownload
        "https://drive.google.com/uc?id=1lV1SgafomQKwgv1NW2cjlpyb4LwZXFwX"
        output_path;
      LoadModel output_path; LoadModel output_path]).
Proof.
  apply (proj2 (missing_model_file_is_downloaded_once (list string)
                  Cases.listed Cases.fetch Cases.unreadable [] eq_refl)
           eq_refl eq_refl 1).
Defined.
